(** * hashchain: a shallow embedding of [hashchain.c]

    The command line tool builds a hash chain
    [H(seed), H(H(seed)), ...] in one flat buffer, prints it as base64
    through OpenSSL's [BIO_f_base64] filter and checks one link of a
    chain.  The C functions are embedded one by one, under their own
    names, in a small monad that records the memory accesses and the
    output of a run and stops at the first access outside its object.

    The digest functions and the base64 filter belong to OpenSSL.  A
    digest is a record holding its size and its one-shot function; the
    base64 filter is modelled after [crypto/evp/encode.c] and
    [crypto/evp/bio_b64.c]: lines of 64 characters when written, one
    line expected when read with [BIO_FLAGS_BASE64_NO_NL].

    The definitions come first: the C integers, the runs, the functions
    of [hashchain.c] with the pieces of OpenSSL they call, the program
    of [test.c], which reads back the file a chain was written to, then
    the definitions the statements need.  The properties follow: the
    chain builder, the verifier, the codec, printing, and the two
    commands; then what else holds of each function, of [main] and of
    [test.c]. *)

From Stdlib.Strings Require Import Byte String.
From Stdlib Require Import ZArith List Lia Bool.
Import ListNotations.
Local Open Scope Z_scope.

(** ** C integers on the 32-bit target *)

Definition INT_MAX : Z := 2147483647.
Definition PTRDIFF_MAX : Z := 2147483647.
Definition EXIT_SUCCESS : Z := 0.
Definition EXIT_FAILURE : Z := 1.

(** Signed 32-bit wrap-around of a mathematical integer. *)
Definition wrap_int (z : Z) : Z := (z + 2147483648) mod 4294967296 - 2147483648.

Definition int_add (a b : Z) : Z := wrap_int (a + b).
Definition int_sub (a b : Z) : Z := wrap_int (a - b).
Definition int_mul (a b : Z) : Z := wrap_int (a * b).

(** Conversion of an [int] to [size_t]. *)
Definition to_size_t (z : Z) : Z := z mod 4294967296.

(** ** Runs: a trace of effects and a result, or a memory fault *)

Inductive stream : Type := Stdout | Stderr.

Inductive event : Type :=
| EvAlloc (nbytes : Z)
| EvFree
| EvLoad (off len : Z)
| EvStore (off len : Z)
| EvPrint (f : stream) (s : list byte).

(** A run yields the events it performed, in order, and [Some] result, or
    [None] when the last event recorded is an access outside its object. *)
Definition M (A : Type) : Type := (list event * option A)%type.

Definition ret {A : Type} (a : A) : M A := ([], Some a).

Definition bind {A B : Type} (m : M A) (f : A -> M B) : M B :=
  match m with
  | (t, Some a) => let (t', r) := f a in (t ++ t', r)
  | (t, None) => (t, None)
  end.

Definition emit (e : event) : M unit := ([e], Some tt).
Definition fault {A : Type} : M A := ([], None).

Notation "x <- m ;; k" := (bind m (fun x => k))
  (at level 61, m at next level, right associativity).
Notation "m ;;; k" := (bind m (fun _ => k))
  (at level 61, right associativity).

(** ** Memory objects

    An object is the list of its bytes; a pointer is an object (or
    [None] for [NULL]) together with a byte offset into it. *)

Abbreviation block := (list byte) (only parsing).

Definition in_bounds (b : block) (off len : Z) : bool :=
  (0 <=? off) && (0 <=? len) && (off + len <=? Z.of_nat (length b)).

(** The [len] bytes at offset [off]. *)
Definition slice (b : block) (off len : Z) : list byte :=
  firstn (Z.to_nat len) (skipn (Z.to_nat off) b).

Definition Z_of_byte (b : byte) : Z := Z.of_N (Byte.to_N b).

Definition byte_of_Z (z : Z) : byte :=
  match Byte.of_N (Z.to_N (z mod 256)) with
  | Some b => b
  | None => "000"%byte
  end.

Definition load (p : option block) (off len : Z) : M (list byte) :=
  emit (EvLoad off len) ;;;
  match p with
  | Some b =>
      if in_bounds b off len
      then ret (slice b off len)
      else fault
  | None => fault
  end.

Definition store (p : option block) (off : Z) (bs : list byte)
  : M (option block) :=
  let len := Z.of_nat (length bs) in
  emit (EvStore off len) ;;;
  match p with
  | Some b =>
      if in_bounds b off len
      then ret (Some (firstn (Z.to_nat off) b ++ bs
                        ++ skipn (Z.to_nat (off + len)) b))
      else fault
  | None => fault
  end.

(** [calloc]: the two counts are converted to [size_t]; on the 32-bit
    target no object has more than [PTRDIFF_MAX] bytes, and a request
    for more gives [NULL]. *)
Definition calloc (nmemb size : Z) : M (option block) :=
  let n := to_size_t nmemb in
  let s := to_size_t size in
  if n * s <=? PTRDIFF_MAX
  then emit (EvAlloc (n * s)) ;;; ret (Some (repeat "000"%byte (Z.to_nat (n * s))))
  else ret None.

(** [malloc]: the new object holds whatever the heap held before;
    [garbage] is that content. *)
Definition resize (n : nat) (garbage : list byte) : block :=
  firstn n (garbage ++ repeat "000"%byte n).

Definition malloc (garbage : list byte) (size : Z) : M (option block) :=
  let n := to_size_t size in
  if n <=? PTRDIFF_MAX
  then emit (EvAlloc n) ;;; ret (Some (resize (Z.to_nat n) garbage))
  else ret None.

Definition free (p : option block) : M unit :=
  match p with
  | Some _ => emit EvFree
  | None => ret tt
  end.

(** ** The digest provider (OpenSSL EVP) *)

Record EVP_MD : Type := {
  EVP_MD_size : Z;
  md_digest : list byte -> list byte
}.

(** A digest has a positive fixed output size. *)
Definition md_wf (type : EVP_MD) : Prop :=
  0 < EVP_MD_size type /\
  forall x, Z.of_nat (length (md_digest type x)) = EVP_MD_size type.

Record EVP_MD_CTX : Type := {
  ctx_type : option EVP_MD;
  ctx_input : list byte
}.

(** The context is created and destroyed inside the function that uses
    it; it is a local value here and leaves no event. *)
Definition EVP_MD_CTX_create : EVP_MD_CTX :=
  {| ctx_type := None; ctx_input := [] |}.

Definition EVP_DigestInit_ex (ctx : EVP_MD_CTX) (type : EVP_MD) : EVP_MD_CTX :=
  {| ctx_type := Some type; ctx_input := [] |}.

Definition EVP_DigestUpdate (ctx : EVP_MD_CTX) (d : option block) (off cnt : Z)
  : M EVP_MD_CTX :=
  bs <- load d off (to_size_t cnt) ;;
  ret {| ctx_type := ctx_type ctx; ctx_input := ctx_input ctx ++ bs |}.

Definition EVP_DigestFinal_ex (ctx : EVP_MD_CTX) (md : option block) (off : Z)
  : M (option block) :=
  match ctx_type ctx with
  | Some type => store md off (md_digest type (ctx_input ctx))
  | None => fault
  end.

(** ** [struct hash_chain] and [hash_chain_create] *)

Record hash_chain : Type := {
  digest_size : Z;
  chain_length : Z;
  data : option block
}.

Definition set_data (c : hash_chain) (d : option block) : hash_chain :=
  {| digest_size := digest_size c; chain_length := chain_length c; data := d |}.

(** The [for] loop of [hash_chain_create], from [idx] on.  The fuel is
    the number of rounds left; [chain_len] rounds are never used up. *)
Fixpoint hash_chain_create_loop (fuel : nat) (type : EVP_MD) (ctx : EVP_MD_CTX)
    (output : hash_chain) (idx : Z) : M (EVP_MD_CTX * hash_chain) :=
  if idx <? chain_length output then
    match fuel with
    | O => fault
    | S fuel' =>
        let ctx := EVP_DigestInit_ex ctx type in
        ctx <- EVP_DigestUpdate ctx (data output)
                 (int_mul (int_sub idx 1) (digest_size output))
                 (digest_size output) ;;
        d <- EVP_DigestFinal_ex ctx (data output)
               (int_mul idx (digest_size output)) ;;
        hash_chain_create_loop fuel' type ctx (set_data output d) (int_add idx 1)
    end
  else ret (ctx, output).

Definition hash_chain_create (base : option block) (baselen : Z)
    (type : EVP_MD) (chain_len : Z) : M hash_chain :=
  let dsize := EVP_MD_size type in
  d <- calloc chain_len dsize ;;
  let output :=
    {| digest_size := dsize; chain_length := chain_len; data := d |} in
  let ctx := EVP_MD_CTX_create in
  let ctx := EVP_DigestInit_ex ctx type in
  ctx <- EVP_DigestUpdate ctx base 0 baselen ;;
  d <- EVP_DigestFinal_ex ctx (data output) 0 ;;
  r <- hash_chain_create_loop (Z.to_nat chain_len) type ctx (set_data output d) 1 ;;
  ret (snd r).

(** Element [i] of a chain: the [digest_size] bytes at offset
    [i * digest_size] of its buffer. *)
Definition chain_elem (c : hash_chain) (i : Z) : option (list byte) :=
  match data c with
  | Some b =>
      if in_bounds b (i * digest_size c) (digest_size c)
      then Some (slice b (i * digest_size c) (digest_size c))
      else None
  | None => None
  end.

(** The elements of a chain, in order. *)
Definition chain_elems (c : hash_chain) : list (list byte) :=
  match data c with
  | Some b =>
      map (fun i => slice b (Z.of_nat i * digest_size c) (digest_size c))
        (seq 0 (Z.to_nat (chain_length c)))
  | None => []
  end.

(** ** [hash_chain_verify]

    A pointer argument is passed as its object and its offset.  [garbage]
    is the initial content of the block [malloc] returns. *)

Fixpoint memcmp_bytes (a b : list byte) : Z :=
  match a, b with
  | x :: a', y :: b' =>
      if Z_of_byte x =? Z_of_byte y
      then memcmp_bytes a' b'
      else Z_of_byte x - Z_of_byte y
  | _, _ => 0
  end.

Definition memcmp (s1 : option block) (off1 : Z) (s2 : option block) (off2 : Z)
    (n : Z) : M Z :=
  a <- load s1 off1 (to_size_t n) ;;
  b <- load s2 off2 (to_size_t n) ;;
  ret (memcmp_bytes a b).

Definition hash_chain_verify (garbage : list byte)
    (h : option block) (h_off : Z) (tip : option block) (tip_off : Z)
    (hash : EVP_MD) : M bool :=
  let digest_len := EVP_MD_size hash in
  data <- malloc garbage digest_len ;;
  let ctx := EVP_MD_CTX_create in
  let ctx := EVP_DigestInit_ex ctx hash in
  ctx <- EVP_DigestUpdate ctx h h_off digest_len ;;
  data <- EVP_DigestFinal_ex ctx data 0 ;;
  result <- memcmp data 0 tip tip_off digest_len ;;
  free data ;;;
  ret (result =? 0).

(** ** OpenSSL's base64 encoder ([crypto/evp/encode.c]) *)

Definition data_bin2ascii : list byte :=
  list_byte_of_string
    "ABCDEFGHIJKLMNOPQRSTUVWXYZabcdefghijklmnopqrstuvwxyz0123456789+/".

Definition conv_bin2ascii (a : Z) : byte :=
  nth (Z.to_nat (Z.land a 63)) data_bin2ascii "000"%byte.

Definition NL : byte := "010"%byte.
Definition PAD : byte := "="%byte.

(** The 24 bits of three bytes, and of four 6-bit values. *)
Definition enc_l (a b c : Z) : Z :=
  Z.lor (Z.lor (Z.shiftl a 16) (Z.shiftl b 8)) c.

Definition dec_l (a b c d : Z) : Z :=
  Z.lor (Z.lor (Z.lor (Z.shiftl a 18) (Z.shiftl b 12)) (Z.shiftl c 6)) d.

Fixpoint EVP_EncodeBlock (f : list byte) : list byte :=
  match f with
  | [] => []
  | [a] =>
      let l := Z.shiftl (Z_of_byte a) 16 in
      [conv_bin2ascii (Z.shiftr l 18); conv_bin2ascii (Z.shiftr l 12); PAD; PAD]
  | [a; b] =>
      let l := Z.lor (Z.shiftl (Z_of_byte a) 16) (Z.shiftl (Z_of_byte b) 8) in
      [conv_bin2ascii (Z.shiftr l 18); conv_bin2ascii (Z.shiftr l 12);
       conv_bin2ascii (Z.shiftr l 6); PAD]
  | a :: b :: c :: r =>
      let l := enc_l (Z_of_byte a) (Z_of_byte b) (Z_of_byte c) in
      conv_bin2ascii (Z.shiftr l 18) :: conv_bin2ascii (Z.shiftr l 12)
        :: conv_bin2ascii (Z.shiftr l 6) :: conv_bin2ascii l
        :: EVP_EncodeBlock r
  end.

(** [EVP_ENCODE_CTX]: [enc_data] holds the [num] bytes not yet encoded;
    a line takes [ctx->length = 48] input bytes. *)
Record EVP_ENCODE_CTX : Type := { enc_data : list byte }.

Definition EVP_ENCODE_LENGTH : Z := 48.

Definition EVP_EncodeInit : EVP_ENCODE_CTX := {| enc_data := [] |}.

Definition EVP_ENCODE_CTX_num (ctx : EVP_ENCODE_CTX) : Z :=
  Z.of_nat (length (enc_data ctx)).

(** The [while (inl >= ctx->length)] loop of [EVP_EncodeUpdate]: whole
    lines, each followed by a newline; the rest of the input is
    returned. *)
Fixpoint encode_lines (fuel : nat) (inp : list byte) : list byte * list byte :=
  if EVP_ENCODE_LENGTH <=? Z.of_nat (length inp) then
    match fuel with
    | O => ([], inp)
    | S fuel' =>
        let (out, rest) := encode_lines fuel' (skipn 48 inp) in
        (EVP_EncodeBlock (firstn 48 inp) ++ NL :: out, rest)
    end
  else ([], inp).

Definition EVP_EncodeUpdate (ctx : EVP_ENCODE_CTX) (inp : list byte)
  : EVP_ENCODE_CTX * list byte :=
  let inl := Z.of_nat (length inp) in
  let num := EVP_ENCODE_CTX_num ctx in
  if inl <=? 0 then (ctx, [])
  else if inl <? EVP_ENCODE_LENGTH - num
  then ({| enc_data := enc_data ctx ++ inp |}, [])
  else
    let i := Z.to_nat (EVP_ENCODE_LENGTH - num) in
    let (out1, inp1) :=
      if num =? 0 then ([], inp)
      else (EVP_EncodeBlock (enc_data ctx ++ firstn i inp) ++ [NL], skipn i inp) in
    let (out2, rest) := encode_lines (length inp1) inp1 in
    ({| enc_data := rest |}, out1 ++ out2).

Definition EVP_EncodeFinal (ctx : EVP_ENCODE_CTX) : EVP_ENCODE_CTX * list byte :=
  if EVP_ENCODE_CTX_num ctx =? 0 then (ctx, [])
  else ({| enc_data := [] |}, EVP_EncodeBlock (enc_data ctx) ++ [NL]).

(** ** The base64 filter written through ([b64_write], [b64_ctrl]) *)

Definition B64_BLOCK_SIZE : Z := 1024.

(** The filter [BIO_push (b64, out)] of [hash_chain_print]: the encoder
    state and the stream behind it. *)
Record BIO : Type := { base64 : EVP_ENCODE_CTX; next_fp : stream }.

Definition BIO_new_b64_fp (f : stream) : BIO :=
  {| base64 := EVP_EncodeInit; next_fp := f |}.

Definition BIO_write_next (f : stream) (buf : list byte) : M unit :=
  match buf with
  | [] => ret tt
  | _ => emit (EvPrint f buf)
  end.

(** The [while (inl > 0)] loop of [b64_write]: the input goes to the
    encoder in pieces of at most [B64_BLOCK_SIZE] bytes and what the
    encoder returns goes to the next BIO. *)
Fixpoint b64_write (fuel : nat) (b : BIO) (inp : list byte) : M BIO :=
  match inp with
  | [] => ret b
  | _ =>
      match fuel with
      | O => ret b
      | S fuel' =>
          let n := Z.to_nat (Z.min (Z.of_nat (length inp)) B64_BLOCK_SIZE) in
          let (ctx, buf) := EVP_EncodeUpdate (base64 b) (firstn n inp) in
          BIO_write_next (next_fp b) buf ;;;
          b64_write fuel' {| base64 := ctx; next_fp := next_fp b |} (skipn n inp)
      end
  end.

Definition BIO_write (b : BIO) (p : option block) (off dlen : Z) : M BIO :=
  if dlen <=? 0 then ret b
  else
    inp <- load p off dlen ;;
    b64_write (length inp) b inp.

(** [BIO_flush]: without [BIO_FLAGS_BASE64_NO_NL] the bytes the encoder
    still holds are written as a last, padded line. *)
Definition BIO_flush (b : BIO) : M BIO :=
  if EVP_ENCODE_CTX_num (base64 b) =? 0 then ret b
  else
    let (ctx, buf) := EVP_EncodeFinal (base64 b) in
    BIO_write_next (next_fp b) buf ;;;
    ret {| base64 := ctx; next_fp := next_fp b |}.

(** ** [hash_chain_print]

    The loop has fuel for [chain_length] rounds, one for each element. *)

Fixpoint hash_chain_print_loop (fuel : nat) (bio : BIO) (chain : hash_chain)
    (i : Z) : M BIO :=
  if i <? chain_length chain then
    match fuel with
    | O => fault
    | S fuel' =>
        bio <- BIO_write bio (data chain) (int_mul i (digest_size chain))
                 (digest_size chain) ;;
        bio <- BIO_flush bio ;;
        hash_chain_print_loop fuel' bio chain (int_add i 1)
    end
  else ret bio.

Definition hash_chain_print (chain : hash_chain) (f : stream) : M unit :=
  let bio := BIO_new_b64_fp f in
  hash_chain_print_loop (Z.to_nat (chain_length chain)) bio chain 0 ;;;
  ret tt.

(** What a run wrote to a stream. *)
Definition same_stream (f g : stream) : bool :=
  match f, g with
  | Stdout, Stdout | Stderr, Stderr => true
  | _, _ => false
  end.

Fixpoint printed (f : stream) (t : list event) : list byte :=
  match t with
  | [] => []
  | EvPrint g s :: t' =>
      if same_stream f g then s ++ printed f t' else printed f t'
  | _ :: t' => printed f t'
  end.

(** The lines of a text: the pieces ended by a newline. *)
Fixpoint count_lines (s : list byte) : nat :=
  match s with
  | [] => O
  | c :: r =>
      if Z_of_byte c =? 10 then S (count_lines r) else count_lines r
  end.

(** ** OpenSSL's base64 decoder ([EVP_DecodeBlock]) *)

Definition B64_WS : Z := 224.
Definition B64_ERROR : Z := 255.

(** [B64_NOT_BASE64]: white space, end of line, carriage return or end
    of file, the values [0xE0], [0xF0], [0xF1] and [0xF2]. *)
Definition B64_NOT_BASE64 (a : Z) : bool := Z.lor a 19 =? 243.

Definition data_ascii2bin : list Z :=
  [255; 255; 255; 255; 255; 255; 255; 255;
   255; 224; 240; 255; 255; 241; 255; 255;
   255; 255; 255; 255; 255; 255; 255; 255;
   255; 255; 255; 255; 255; 255; 255; 255;
   224; 255; 255; 255; 255; 255; 255; 255;
   255; 255; 255;  62; 255; 242; 255;  63;
    52;  53;  54;  55;  56;  57;  58;  59;
    60;  61; 255; 255; 255;   0; 255; 255;
   255;   0;   1;   2;   3;   4;   5;   6;
     7;   8;   9;  10;  11;  12;  13;  14;
    15;  16;  17;  18;  19;  20;  21;  22;
    23;  24;  25; 255; 255; 255; 255; 255;
   255;  26;  27;  28;  29;  30;  31;  32;
    33;  34;  35;  36;  37;  38;  39;  40;
    41;  42;  43;  44;  45;  46;  47;  48;
    49;  50;  51; 255; 255; 255; 255; 255].

Definition conv_ascii2bin (c : byte) : Z :=
  let a := Z_of_byte c in
  if Z.land a 128 =? 0 then nth (Z.to_nat a) data_ascii2bin B64_ERROR
  else B64_ERROR.

(** White space is trimmed from the start of the line. *)
Fixpoint trim_start (f : list byte) : list byte :=
  match f with
  | c :: r => if conv_ascii2bin c =? B64_WS then trim_start r else f
  | [] => []
  end.

(** While more than three characters are left, a last character that is
    not base64 is dropped. *)
Fixpoint strip_end (fuel : nat) (f : list byte) : list byte :=
  match fuel with
  | O => f
  | S fuel' =>
      if (3 <? Z.of_nat (length f))
         && B64_NOT_BASE64 (conv_ascii2bin (last f "000"%byte))
      then strip_end fuel' (removelast f)
      else f
  end.

(** Four characters give three bytes; a character outside the alphabet
    fails the block. *)
Fixpoint decode_quads (f : list byte) : option (list byte) :=
  match f with
  | a :: b :: c :: d :: r =>
      let a := conv_ascii2bin a in
      let b := conv_ascii2bin b in
      let c := conv_ascii2bin c in
      let d := conv_ascii2bin d in
      if (Z.land a 128 =? 0) && (Z.land b 128 =? 0)
         && (Z.land c 128 =? 0) && (Z.land d 128 =? 0)
      then
        let l := dec_l a b c d in
        match decode_quads r with
        | Some t =>
            Some (byte_of_Z (Z.land (Z.shiftr l 16) 255)
                    :: byte_of_Z (Z.land (Z.shiftr l 8) 255)
                    :: byte_of_Z (Z.land l 255) :: t)
        | None => None
        end
      else None
  | _ => Some []
  end.

(** [EVP_DecodeBlock]: the decoded bytes, or [None] where the C function
    returns [-1]. *)
Definition EVP_DecodeBlock (f : list byte) : option (list byte) :=
  let f := trim_start f in
  let f := strip_end (length f) f in
  if Z.of_nat (length f) mod 4 =? 0 then decode_quads f else None.

(** ** The base64 filter read through ([b64_read])

    The filter of [base64_decode] has [BIO_FLAGS_BASE64_NO_NL] set and
    reads from a memory BIO over a C string, which gives at most what is
    asked for and [0] at its end, without retry. *)

(** A C string: the bytes before the first [NUL]. *)
Fixpoint c_string (s : list byte) : list byte :=
  match s with
  | c :: r => if Z_of_byte c =? 0 then [] else c :: c_string r
  | [] => []
  end.

Definition strlen (s : list byte) : Z := Z.of_nat (length (c_string s)).

Definition char_at (tmp : list byte) (i : Z) : byte :=
  nth (Z.to_nat i) tmp "000"%byte.

(** The number of bytes one block gives: [EVP_DecodeBlock]'s count, less
    one for each of the last two characters that is [=]. *)
Definition block_count (tmp : list byte) (jj : Z) (dec : option (list byte)) : Z :=
  let z := match dec with Some t => Z.of_nat (length t) | None => -1 end in
  if 2 <? jj then
    if Z_of_byte (char_at tmp (jj - 1)) =? 61 then
      if Z_of_byte (char_at tmp (jj - 2)) =? 61 then z - 2 else z - 1
    else z
  else z.

(** One round of the [while (outl > 0)] loop of [b64_read].  [src] is
    what the memory BIO still holds, [tmp] the characters kept from the
    round before, [out] the bytes delivered so far.  A round leaves the
    loop ([Break]) or goes on with a new state ([Next]). *)
Inductive round : Type :=
| Break (out : list byte) (ret_code : Z)
| Next (src tmp : list byte) (cont outl : Z) (out : list byte) (ret_code : Z).

Definition b64_read_round (src tmp : list byte) (outl : Z) (out : list byte)
    (ret_code : Z) : round :=
  let tmp_len := Z.of_nat (length tmp) in
  let want := Z.to_nat (B64_BLOCK_SIZE - tmp_len) in
  let got := firstn want src in
  let src := skipn want src in
  let i := Z.of_nat (length got) in
  let eof := i <=? 0 in
  let ret_code := if eof then i else ret_code in
  if eof && (tmp_len =? 0) then Break out ret_code
  else
    let tmp := tmp ++ got in
    let i := Z.of_nat (length tmp) in
    let jj := Z.land i (Z.lnot 3) in
    let dec := EVP_DecodeBlock (firstn (Z.to_nat jj) tmp) in
    let z := block_count tmp jj dec in
    let tmp := if jj =? i then [] else skipn (Z.to_nat jj) tmp in
    if z <? 0 then Break out 0
    else
      let buf := match dec with
                 | Some t => firstn (Z.to_nat z) t
                 | None => []
                 end in
      let i := Z.min (Z.of_nat (length buf)) outl in
      Next src tmp z (outl - i) (out ++ firstn (Z.to_nat i) buf) ret_code.

(** The loop: it ends when [outl] bytes were delivered, when the round
    before gave nothing ([cont <= 0]) or when a round breaks.  The
    result is [out] and [ret_code].  Each round but the last takes
    characters from [src], so one round more than [src] has characters
    is fuel enough. *)
Fixpoint b64_read_loop (fuel : nat) (src tmp : list byte) (cont outl : Z)
    (out : list byte) (ret_code : Z) : list byte * Z :=
  if outl <=? 0 then (out, ret_code)
  else if cont <=? 0 then (out, ret_code)
  else
    match fuel with
    | O => (out, ret_code)
    | S fuel' =>
        match b64_read_round src tmp outl out ret_code with
        | Break out ret_code => (out, ret_code)
        | Next src tmp cont outl out ret_code =>
            b64_read_loop fuel' src tmp cont outl out ret_code
        end
    end.

(** [BIO_read (b64, buf, outl)] on a fresh filter over the C string
    [str]: the return value and the bytes copied to [buf]. *)
Definition BIO_read (str : list byte) (outl : Z) : Z * list byte :=
  let src := c_string str in
  let (out, ret_code) := b64_read_loop (S (S (length src))) src [] 1 outl [] 0 in
  let ret := Z.of_nat (length out) in
  (if ret =? 0 then ret_code else ret, out).

(** The bytes each round of the loop of [b64_read] copies to the
    caller's buffer, [memcpy (out, ctx->buf, i)], round by round.  The
    rounds are those of [b64_read_loop]. *)
Fixpoint b64_read_copies (fuel : nat) (src tmp : list byte) (cont outl : Z)
  : list (list byte) :=
  if outl <=? 0 then []
  else if cont <=? 0 then []
  else
    match fuel with
    | O => []
    | S fuel' =>
        match b64_read_round src tmp outl [] 0 with
        | Break _ _ => []
        | Next src tmp cont outl copied _ =>
            copied :: b64_read_copies fuel' src tmp cont outl
        end
    end.

Definition BIO_read_copies (str : list byte) (outl : Z) : list (list byte) :=
  let src := c_string str in
  b64_read_copies (S (S (length src))) src [] 1 outl.

(** The copies go to the buffer one behind the other, from [off] on; a
    round that delivers no byte writes nothing. *)
Fixpoint copy_out (buf : option block) (off : Z) (copies : list (list byte))
  : M (option block) :=
  match copies with
  | [] => ret buf
  | c :: rest =>
      buf <- match c with
             | [] => ret buf
             | _ => store buf off c
             end ;;
      copy_out buf (off + Z.of_nat (length c)) rest
  end.

(** ** [base64_decode]

    [BIO_read] writes the buffer as the rounds of its loop deliver the
    bytes.  Its value is dropped: the buffer is returned whatever was
    read. *)
Definition base64_decode (garbage : list byte) (str : list byte) (explen : Z)
  : M (option block) :=
  buf <- malloc garbage explen ;;
  match buf with
  | None => ret None
  | Some _ => copy_out buf 0 (BIO_read_copies str explen)
  end.

(** ** The commands *)

Definition isspace (c : byte) : bool :=
  let a := Z_of_byte c in (a =? 32) || ((9 <=? a) && (a <=? 13)).

Definition isdigit (c : byte) : bool :=
  let a := Z_of_byte c in (48 <=? a) && (a <=? 57).

Fixpoint skip_space (s : list byte) : list byte :=
  match s with
  | c :: r => if isspace c then skip_space r else s
  | [] => []
  end.

Fixpoint scan_digits (s : list byte) (acc : Z) : Z :=
  match s with
  | c :: r => if isdigit c then scan_digits r (10 * acc + (Z_of_byte c - 48)) else acc
  | [] => acc
  end.

(** [sscanf (s, "%d", &n) == 1]: white space, an optional sign and at
    least one digit; the value is taken modulo the range of [int]. *)
Definition sscanf_d (s : list byte) : option Z :=
  let s := skip_space (c_string s) in
  let (neg, s) :=
    match s with
    | c :: r =>
        if Z_of_byte c =? 45 then (true, r)
        else if Z_of_byte c =? 43 then (false, r)
        else (false, s)
    | [] => (false, s)
    end in
  match s with
  | c :: _ =>
      if isdigit c
      then let v := scan_digits s 0 in Some (wrap_int (if neg then - v else v))
      else None
  | [] => None
  end.

Definition fprintf (f : stream) (s : list byte) : M unit := emit (EvPrint f s).

Definition text (s : string) : list byte := list_byte_of_string s.

Fixpoint bytes_eqb (a b : list byte) : bool :=
  match a, b with
  | [], [] => true
  | x :: a', y :: b' => Byte.eqb x y && bytes_eqb a' b'
  | _, _ => false
  end.

(** [strcmp (a, b) == 0] *)
Definition strcmp_eq (a b : list byte) : bool :=
  bytes_eqb (c_string a) (c_string b).

Section Commands.

(** The table of digests registered by [OpenSSL_add_all_digests]. *)
Variable EVP_get_digestbyname : list byte -> option EVP_MD.

Definition cmd_create (argc : Z) (argv : list (list byte)) : M Z :=
  if argc <? 4 then
    fprintf Stderr (text "error: too few args" ++ [NL]) ;;;
    fprintf Stderr (text "usage: " ++ c_string (nth 0 argv [])
                      ++ text " HASH LENGTH BASE" ++ [NL]) ;;;
    ret EXIT_FAILURE
  else
    match EVP_get_digestbyname (c_string (nth 1 argv [])) with
    | None =>
        fprintf Stderr (text "error: hash " ++ c_string (nth 1 argv [])
                          ++ text " doesn't exist" ++ [NL]) ;;;
        ret EXIT_FAILURE
    | Some hash =>
        match sscanf_d (nth 2 argv []) with
        | None =>
            fprintf Stderr (text "error: can't convert "
                              ++ c_string (nth 2 argv [])
                              ++ text " to integer" ++ [NL]) ;;;
            ret EXIT_FAILURE
        | Some length =>
            chain <- hash_chain_create (Some (nth 3 argv []))
                       (wrap_int (strlen (nth 3 argv []))) hash length ;;
            hash_chain_print chain Stdout ;;;
            free (data chain) ;;;
            ret EXIT_SUCCESS
        end
    end.

(** [gq], [gt] and [gd] are the initial contents of the three blocks the
    command allocates: the two decoded digests and the digest computed
    by [hash_chain_verify]. *)
Definition cmd_verify (gq gt gd : list byte) (argc : Z) (argv : list (list byte))
  : M Z :=
  if argc <? 4 then
    fprintf Stderr (text "error: too few args" ++ [NL]) ;;;
    fprintf Stderr (text "usage: " ++ c_string (nth 0 argv [])
                      ++ text " ALGO QUERY ANCHOR" ++ [NL]) ;;;
    ret EXIT_FAILURE
  else
    match EVP_get_digestbyname (c_string (nth 1 argv [])) with
    | None =>
        fprintf Stderr (text "error: hash " ++ c_string (nth 1 argv [])
                          ++ text " doesn't exist" ++ [NL]) ;;;
        ret EXIT_FAILURE
    | Some hash =>
        let digest_len := EVP_MD_size hash in
        qhash <- base64_decode gq (nth 2 argv []) digest_len ;;
        thash <- base64_decode gt (nth 3 argv []) digest_len ;;
        res <- hash_chain_verify gd qhash 0 thash 0 hash ;;
        free qhash ;;;
        free thash ;;;
        if res : bool then
          fprintf Stdout (text "success" ++ [NL]) ;;; ret EXIT_SUCCESS
        else
          fprintf Stdout (text "failure" ++ [NL]) ;;; ret EXIT_FAILURE
    end.

Definition main (gq gt gd : list byte) (argc : Z) (argv : list (list byte))
  : M Z :=
  if argc <? 2 then
    fprintf Stderr (text "error: subcommand required" ++ [NL]) ;;;
    ret EXIT_FAILURE
  else if strcmp_eq (nth 1 argv []) (text "create") then
    cmd_create (int_sub argc 1) (tl argv)
  else if strcmp_eq (nth 1 argv []) (text "verify") then
    cmd_verify gq gt gd (int_sub argc 1) (tl argv)
  else
    fprintf Stderr (text "error: subcommand " ++ c_string (nth 1 argv [])
                      ++ text " not found" ++ [NL]) ;;;
    ret EXIT_FAILURE.

End Commands.

(** * [test.c]: the last two lines of the file [chains] *)

(** ** Streams of the C library

    A stream opened for reading is the list of the characters still to
    be read from it. *)

Definition NUL : byte := "000"%byte.

(** The characters one call of [fgets] takes: at most [k], up to the
    first newline, which is taken too. *)
Fixpoint fgets_chars (k : nat) (fp : list byte) : list byte * list byte :=
  match k, fp with
  | S k', c :: r =>
      if Z_of_byte c =? 10 then ([c], r)
      else let (l, rest) := fgets_chars k' r in (c :: l, rest)
  | _, _ => ([], fp)
  end.

(** [fgets (s, n, fp)]: at the end of the stream nothing is stored and
    the result is [NULL]; otherwise at most [n - 1] characters and a
    [NUL] are stored at [s].  The result is the object at [s] with its
    new content, or [None] for [NULL], and the rest of the stream. *)
Definition fgets (s : option block) (n : Z) (fp : list byte)
  : M (option (option block) * list byte) :=
  match fp with
  | [] => ret (None, fp)
  | _ =>
      let (l, rest) := fgets_chars (Z.to_nat (n - 1)) fp in
      s' <- store s 0 (l ++ [NUL]) ;;
      ret (Some s', rest)
  end.

(** The argument of a [%s]: the string at [s] is read up to its [NUL]
    and with it. *)
Definition load_string (s : option block) : M (list byte) :=
  match s with
  | Some b => bs <- load s 0 (strlen b + 1) ;; ret (c_string bs)
  | None => load s 0 1
  end.

Module Test.

(** [printf ("%s\n", line)] *)
Definition printf_line (line : option block) : M unit :=
  s <- load_string line ;;
  fprintf Stdout (s ++ [NL]).

(** The first [while] loop: every piece read is counted and printed.
    Each round but the last takes characters from the stream, so one
    round more than the stream has characters is fuel enough. *)
Fixpoint count_loop (fuel : nat) (line : option block) (fp : list byte)
    (riadok : Z) : M (option block * Z) :=
  match fuel with
  | O => fault
  | S fuel' =>
      r <- fgets line 255 fp ;;
      match r with
      | (None, _) => ret (line, riadok)
      | (Some line, fp) =>
          let riadok := int_add riadok 1 in
          fprintf Stdout (text "[+]") ;;;
          printf_line line ;;;
          count_loop fuel' line fp riadok
      end
  end.

(** The second [while] loop, over the stream from its start again. *)
Fixpoint report_loop (fuel : nat) (line : option block) (fp : list byte)
    (riadok count : Z) : M (option block) :=
  match fuel with
  | O => fault
  | S fuel' =>
      r <- fgets line 255 fp ;;
      match r with
      | (None, _) => ret line
      | (Some line, fp) =>
          let count := int_add count 1 in
          (if count =? riadok then
             fprintf Stdout (text "SERVER STORED HASH: ") ;;;
             printf_line line
           else ret tt) ;;;
          (if int_add count 1 =? riadok then
             fprintf Stdout (text "Client HASH: ") ;;;
             printf_line line
           else ret tt) ;;;
          report_loop fuel' line fp riadok count
      end
  end.

(** [chains] is the content of the file [chains] as the stream gives
    it, or [None] when the file cannot be opened; [garbage] is the
    initial content of the block [malloc] returns. *)
Definition testGetFile (garbage : list byte) (chains : option (list byte))
  : M unit :=
  let fp := chains in
  line <- malloc garbage 255 ;;
  match fp with
  | None => fprintf Stdout (text "cant open file!") ;;; ret tt
  | Some content =>
      r <- count_loop (S (length content)) line content 0 ;;
      let (line, riadok) := r in
      line <- report_loop (S (length content)) line content riadok 0 ;;
      free line
  end.

Definition main (garbage : list byte) (chains : option (list byte)) : M Z :=
  testGetFile garbage chains ;;;
  ret 0.

End Test.

(** * Definitions for the statements *)

(** ** The chain as a list of digests

    [iter_hash H n x] is [[H x; H (H x); ...]], [n] digests. *)
Fixpoint iter_hash (H : list byte -> list byte) (n : nat) (x : list byte)
  : list (list byte) :=
  match n with
  | O => []
  | S n' => H x :: iter_hash H n' (H x)
  end.

(** The accesses of the loop of [hash_chain_create] for [m] rounds from
    index [k], with digests of [d] bytes. *)
Fixpoint loop_trace (d : Z) (m : nat) (k : Z) : list event :=
  match m with
  | O => []
  | S m' => EvLoad ((k - 1) * d) d :: EvStore (k * d) d :: loop_trace d m' (k + 1)
  end.

(** The whole trace of a successful [hash_chain_create]. *)
Definition create_trace (baselen d n : Z) : list event :=
  EvAlloc (n * d) :: EvLoad 0 baselen :: EvStore 0 d
    :: loop_trace d (Z.to_nat (n - 1)) 1.

(** A write that stays inside an object of [size] bytes. *)
Definition access_within (size : Z) (e : event) : Prop :=
  match e with
  | EvStore off len => 0 <= off /\ off + len <= size
  | _ => True
  end.

Definition is_store (e : event) : bool :=
  match e with EvStore _ _ => true | _ => false end.

Definition is_heap_event (e : event) : bool :=
  match e with EvAlloc _ | EvFree => true | _ => false end.

Definition is_load (e : event) : bool :=
  match e with EvLoad _ _ => true | _ => false end.

(** ** The codec *)

(** What the decoder needs of a character of the alphabet: its value is
    the 6-bit one it stands for, and it is not [NUL], not [=] and not a
    newline. *)
Definition alphabet_char (c : byte) (s : Z) : bool :=
  (conv_ascii2bin c =? s)
  && negb (Z_of_byte c =? 0) && negb (Z_of_byte c =? 61)
  && negb (Z_of_byte c =? 10).

(** The zero bytes a padded block decodes to after the data. *)
Definition npad (bs : list byte) : nat :=
  match (length bs mod 3)%nat with
  | 1%nat => 2%nat
  | 2%nat => 1%nat
  | _ => 0%nat
  end.

(** The characters of an encoded block: none is [NUL], white space or an
    end of line for the decoder. *)
Definition text_char (c : byte) : bool :=
  negb (Z_of_byte c =? 0) && negb (conv_ascii2bin c =? B64_WS)
  && negb (B64_NOT_BASE64 (conv_ascii2bin c)).

Definition nonzero (c : byte) : bool := negb (Z_of_byte c =? 0).

(** How many of the last two characters before [jj] are [=]. *)
Definition pads (tmp : list byte) (jj : Z) : Z :=
  if 2 <? jj then
    if Z_of_byte (char_at tmp (jj - 1)) =? 61 then
      if Z_of_byte (char_at tmp (jj - 2)) =? 61 then 2 else 1
    else 0
  else 0.

(** The buffer [base64_decode] returns: what the filter delivered,
    then what the block held before. *)
Definition decoded (garbage str : list byte) (explen : Z) : list byte :=
  let bytes := snd (BIO_read str explen) in
  bytes ++ skipn (length bytes) (resize (Z.to_nat explen) garbage).

(** The text [hash_chain_print] writes for one digest. *)
Definition print_digest (d : list byte) : list byte :=
  printed Stdout
    (fst (hash_chain_print
            {| digest_size := Z.of_nat (length d); chain_length := 1;
               data := Some d |} Stdout)).

(** The base64 text of a digest in lines of 64 characters, the last one
    padded, each ended by a newline. *)
Definition wrap64 (e : list byte) : list byte :=
  let (lines, rest) := encode_lines (length e) e in
  lines ++ match rest with
           | [] => []
           | _ => EVP_EncodeBlock rest ++ [NL]
           end.

(** ** Memory events

    What a run does apart from its output: the blocks it allocates and
    frees and its accesses to memory objects.  What OpenSSL allocates
    for itself, a digest context or a filter, lives inside the call
    that makes it and is not part of a run. *)
Definition is_print (e : event) : bool :=
  match e with EvPrint _ _ => true | _ => false end.

Definition memory_events (t : list event) : list event :=
  filter (fun e => negb (is_print e)) t.

(** The stores of [copy_out]: one for each copy that is not empty. *)
Fixpoint copy_events (off : Z) (copies : list (list byte)) : list event :=
  match copies with
  | [] => []
  | c :: rest =>
      match c with
      | [] => []
      | _ => [EvStore off (Z.of_nat (length c))]
      end ++ copy_events (off + Z.of_nat (length c)) rest
  end.

(** The events of [base64_decode]: the allocation, and the store of
    each round of the filter that delivered bytes. *)
Definition decode_trace (str : list byte) (explen : Z) : list event :=
  EvAlloc explen :: copy_events 0 (BIO_read_copies str explen).

(** ** The report of [test.c] *)

(** The lines of the report of [test.c] on the pieces [cs] of a file:
    the piece before the last one as the client's hash, the last one as
    the server's. *)
Definition last_two (cs : list (list byte)) : list byte :=
  match rev cs with
  | [] => []
  | [s] => text "SERVER STORED HASH: " ++ s ++ [NL]
  | s :: c :: _ =>
      text "Client HASH: " ++ c ++ [NL]
        ++ text "SERVER STORED HASH: " ++ s ++ [NL]
  end.

(** A line of text that fits the buffer of [test.c] with its newline:
    at most 253 characters, none of them a newline or [NUL]. *)
Definition text_line (l : list byte) : bool :=
  (length l <=? 253)%nat
  && forallb (fun c => negb (Z_of_byte c =? 10) && negb (Z_of_byte c =? 0)) l.

(** The pieces the [fgets] of [test.c] cuts a stream into: a piece ends
    behind a newline, after 254 characters or with the stream. *)
Fixpoint pieces (fuel : nat) (fp : list byte) : list (list byte) :=
  match fuel, fp with
  | S fuel', _ :: _ =>
      let (l, rest) := fgets_chars 254 fp in l :: pieces fuel' rest
  | _, _ => []
  end.

(** What the second loop prints for the pieces [cs], when [count] pieces
    were read before them. *)
Fixpoint report (riadok count : Z) (cs : list (list byte)) : list byte :=
  match cs with
  | [] => []
  | c :: cs' =>
      (if count + 1 =? riadok
       then text "SERVER STORED HASH: " ++ c ++ [NL] else [])
        ++ (if count + 2 =? riadok
            then text "Client HASH: " ++ c ++ [NL] else [])
        ++ report riadok (count + 1) cs'
  end.

(** ** Concrete data

    [toy_md n] is a digest of [n] output bytes for concrete runs: byte
    [i] is the sum of the input bytes, the input length and [7 * i],
    modulo 256. *)
Definition toy_sum (x : list byte) : Z :=
  fold_right (fun b acc => Z_of_byte b + acc) (Z.of_nat (length x)) x.

Definition toy_digest (n : nat) (x : list byte) : list byte :=
  map (fun i => byte_of_Z (toy_sum x + 7 * Z.of_nat i)) (seq 0 n).

Definition toy_md (n : nat) : EVP_MD :=
  {| EVP_MD_size := Z.of_nat n; md_digest := toy_digest n |}.

(** A table with two digests, of 4 and of 64 bytes. *)
Definition toy_digests (name : list byte) : option EVP_MD :=
  if bytes_eqb name (text "toy4") then Some (toy_md 4)
  else if bytes_eqb name (text "toy64") then Some (toy_md 64)
  else None.

Definition seed_hello : list byte := text "hello".
Definition digest16 : list byte := toy_digest 16 seed_hello.
Definition digest64 : list byte := toy_digest 64 seed_hello.

(** Two digests of four bytes, as a chain buffer. *)
Definition two_digests : list (list byte) :=
  [toy_digest 4 seed_hello; toy_digest 4 (toy_digest 4 seed_hello)].

(** A block of [n] bytes of value [0xAA], for the old content of the
    heap. *)
Definition junk (n : nat) : list byte := repeat "170"%byte n.

(** A base64 text behind 1000 spaces: the filter reads its 1044
    characters in two rounds. *)
Definition padded_text : list byte :=
  repeat " "%byte 1000 ++ EVP_EncodeBlock (toy_digest 32 seed_hello).

(** Command lines. *)
Definition argv_create (len : string) : list (list byte) :=
  [text "create"; text "toy4"; text len; text "hello"].

Definition argv_verify (algo query anchor : string) : list (list byte) :=
  [text "verify"; text algo; text query; text anchor].

(** * Basic facts *)

Lemma wrap_int_small (z : Z) :
  -2147483648 <= z <= INT_MAX -> wrap_int z = z.
Proof.
  unfold wrap_int, INT_MAX. intros Hz.
  rewrite Z.mod_small by lia. lia.
Qed.

Lemma to_size_t_small (z : Z) :
  0 <= z <= INT_MAX -> to_size_t z = z.
Proof.
  unfold to_size_t, INT_MAX. intros Hz. apply Z.mod_small. lia.
Qed.

Lemma in_bounds_true (b : block) (off len : Z) :
  0 <= off -> 0 <= len -> off + len <= Z.of_nat (length b) ->
  in_bounds b off len = true.
Proof.
  intros. unfold in_bounds.
  rewrite !andb_true_iff, !Z.leb_le. auto.
Qed.

Lemma in_bounds_inv (b : block) (off len : Z) :
  in_bounds b off len = true ->
  0 <= off /\ 0 <= len /\ off + len <= Z.of_nat (length b).
Proof.
  unfold in_bounds. rewrite !andb_true_iff, !Z.leb_le. tauto.
Qed.

Lemma load_ok (b : block) (off len : Z) :
  in_bounds b off len = true ->
  load (Some b) off len = ([EvLoad off len], Some (slice b off len)).
Proof. intros Hb. unfold load. cbn. now rewrite Hb. Qed.

Lemma store_ok (b : block) (off : Z) (bs : list byte) :
  in_bounds b off (Z.of_nat (length bs)) = true ->
  store (Some b) off bs
  = ([EvStore off (Z.of_nat (length bs))],
     Some (Some (firstn (Z.to_nat off) b ++ bs
                   ++ skipn (Z.to_nat (off + Z.of_nat (length bs))) b))).
Proof. intros Hb. unfold store. cbn. now rewrite Hb. Qed.

Lemma firstn_length_app {A : Type} (pre rest : list A) :
  firstn (length pre) (pre ++ rest) = pre.
Proof.
  rewrite firstn_app, firstn_all, Nat.sub_diag. cbn [firstn].
  apply app_nil_r.
Qed.

Lemma skipn_length_app {A : Type} (pre rest : list A) :
  skipn (length pre) (pre ++ rest) = rest.
Proof.
  rewrite skipn_app, skipn_all, Nat.sub_diag. reflexivity.
Qed.

Lemma skipn_length_app2 {A : Type} (pre mid rest : list A) (n : nat) :
  n = (length pre + length mid)%nat ->
  skipn n (pre ++ mid ++ rest) = rest.
Proof.
  intros ->. rewrite app_assoc, <- length_app. apply skipn_length_app.
Qed.

(** Reading the middle part of an object. *)
Lemma load_mid (pre x post : list byte) (off len : Z) :
  off = Z.of_nat (length pre) -> len = Z.of_nat (length x) ->
  load (Some (pre ++ x ++ post)) off len = ([EvLoad off len], Some x).
Proof.
  intros -> ->. rewrite load_ok.
  - unfold slice. now rewrite !Nat2Z.id, skipn_length_app, firstn_length_app.
  - apply in_bounds_true; rewrite ?length_app; lia.
Qed.

Lemma load_whole (b : list byte) :
  load (Some b) 0 (Z.of_nat (length b))
  = ([EvLoad 0 (Z.of_nat (length b))], Some b).
Proof.
  pose proof (load_mid [] b [] 0 _ eq_refl eq_refl) as Hl.
  cbn [app] in Hl. now rewrite app_nil_r in Hl.
Qed.

(** Overwriting the middle part of an object. *)
Lemma store_mid (pre old post new : list byte) (off : Z) :
  off = Z.of_nat (length pre) -> length new = length old ->
  store (Some (pre ++ old ++ post)) off new
  = ([EvStore off (Z.of_nat (length new))], Some (Some (pre ++ new ++ post))).
Proof.
  intros -> Hlen. rewrite store_ok.
  - rewrite Nat2Z.id, firstn_length_app.
    rewrite (skipn_length_app2 pre old post) by lia. reflexivity.
  - apply in_bounds_true; rewrite ?length_app; lia.
Qed.

Lemma length_iter_hash H n x : length (iter_hash H n x) = n.
Proof. revert x. induction n; intros; cbn; auto. Qed.

Lemma length_concat_iter_hash (H : list byte -> list byte) (d : nat) n x :
  (forall y, length (H y) = d) ->
  length (concat (iter_hash H n x)) = (n * d)%nat.
Proof.
  intros Hd. revert x. induction n; intros x; cbn; auto.
  now rewrite length_app, IHn, Hd.
Qed.

Lemma nth_iter_hash (H : list byte -> list byte) (n i : nat) (x : list byte) :
  (i < n)%nat -> nth i (iter_hash H n x) [] = Nat.iter (S i) H x.
Proof.
  revert i x. induction n as [|n IH]; intros i x Hi; [lia|].
  destruct i as [|i]; [reflexivity|].
  cbn [iter_hash nth]. rewrite IH by lia.
  symmetry. apply Nat.iter_succ_r.
Qed.

(** Slicing a concatenation of equally long pieces. *)
Lemma slice_concat {A : Type} (l : list (list A)) (dn i : nat) :
  Forall (fun e => length e = dn) l -> (i < length l)%nat ->
  firstn dn (skipn (i * dn) (concat l)) = nth i l [].
Proof.
  intros Hall. revert i. induction Hall as [|e l He Hall IH]; intros i Hi.
  - cbn in Hi. lia.
  - cbn [concat]. destruct i as [|i].
    + cbn [Nat.mul skipn nth]. rewrite <- He. apply firstn_length_app.
    + cbn [Nat.mul nth].
      rewrite skipn_app, (skipn_all2 e) by lia.
      replace (dn + i * dn - length e)%nat with (i * dn)%nat by lia.
      cbn [app]. apply IH. cbn in Hi. lia.
Qed.

Lemma Forall_length_iter_hash (H : list byte -> list byte) (dn n : nat) x :
  (forall y, length (H y) = dn) ->
  Forall (fun e => length e = dn) (iter_hash H n x).
Proof.
  intros Hd. revert x. induction n; intros x; cbn; constructor; auto.
Qed.

(** * The chain builder *)

Section Builder.

Variable type : EVP_MD.
Hypothesis type_wf : md_wf type.

Local Abbreviation d := (EVP_MD_size type).
Local Abbreviation H := (md_digest type).

Lemma digest_length (x : list byte) : Z.of_nat (length (H x)) = d.
Proof. apply type_wf. Qed.

Lemma digest_size_pos : 0 < d.
Proof. apply type_wf. Qed.

Lemma digest_length_nat (x : list byte) : length (H x) = Z.to_nat d.
Proof. rewrite <- (digest_length x). now rewrite Nat2Z.id. Qed.

(** One round of the loop: the digest at index [k - 1] is read and its
    hash is written at index [k]; [m] rounds fill the rest of the buffer
    with the iterated hashes of the last digest written. *)
Lemma hash_chain_create_loop_spec (m : nat) :
  forall (fuel : nat) (k n : Z) (pre last : list byte) (ctx : EVP_MD_CTX),
    (m <= fuel)%nat -> 1 <= k -> k + Z.of_nat m = n -> n * d <= INT_MAX ->
    Z.of_nat (length pre) = (k - 1) * d ->
    Z.of_nat (length last) = d ->
    exists ctx',
      hash_chain_create_loop fuel type ctx
        {| digest_size := d; chain_length := n;
           data := Some (pre ++ last
                           ++ repeat "000"%byte (m * Z.to_nat d)) |} k
      = (loop_trace d m k,
         Some (ctx',
               {| digest_size := d; chain_length := n;
                  data := Some (pre ++ last ++ concat (iter_hash H m last)) |})).
Proof.
  pose proof digest_size_pos as Hd.
  induction m as [|m IH]; intros fuel k n pre last ctx Hfuel Hk Hn Hmax Hpre Hlast.
  - exists ctx. destruct fuel; cbn [hash_chain_create_loop chain_length];
      (replace (k <? n) with false by (symmetry; apply Z.ltb_ge; lia));
      reflexivity.
  - destruct fuel as [|fuel]; [lia|].
    cbn [hash_chain_create_loop chain_length digest_size data].
    replace (k <? n) with true by (symmetry; apply Z.ltb_lt; lia).
    assert (Hkn : k + 1 <= n) by lia.
    assert (Hk1 : 0 <= (k - 1) * d <= INT_MAX) by nia.
    assert (Hkd : 0 <= k * d <= INT_MAX) by nia.
    assert (HkI : k + 1 <= INT_MAX) by nia.
    unfold int_sub, int_mul, int_add.
    rewrite (wrap_int_small (k - 1)) by (unfold INT_MAX in *; lia).
    rewrite (wrap_int_small ((k - 1) * d)) by (unfold INT_MAX in *; lia).
    rewrite (wrap_int_small (k * d)) by (unfold INT_MAX in *; lia).
    rewrite (wrap_int_small (k + 1)) by (unfold INT_MAX in *; lia).
    (* the read of digest [k - 1] *)
    unfold EVP_DigestUpdate, EVP_DigestInit_ex.
    cbn [ctx_type ctx_input app].
    rewrite (to_size_t_small d) by nia.
    rewrite (load_mid pre last _ ((k - 1) * d) d) by lia.
    (* the write of digest [k] *)
    change (S m * Z.to_nat d)%nat with (Z.to_nat d + m * Z.to_nat d)%nat.
    rewrite repeat_app.
    unfold EVP_DigestFinal_ex. cbn [bind ret app ctx_type ctx_input].
    rewrite (app_assoc pre last).
    rewrite (store_mid (pre ++ last) (repeat "000"%byte (Z.to_nat d)) _
               (md_digest type last) (k * d))
      by (rewrite ?length_app, ?repeat_length, ?digest_length_nat; lia).
    cbn [bind ret app].
    unfold set_data. cbn [digest_size chain_length].
    destruct (IH fuel (k + 1) n (pre ++ last) (H last)
                {| ctx_type := Some type; ctx_input := last |})
      as [ctx' Hloop]; try lia.
    { rewrite length_app. lia. }
    { apply digest_length. }
    rewrite Hloop. exists ctx'.
    cbn [loop_trace iter_hash concat].
    rewrite digest_length. rewrite <- !app_assoc. reflexivity.
Qed.


(** The run of [hash_chain_create] on a seed, for a chain of [n >= 1]
    digests whose buffer can be allocated.  The object [base] points to
    may hold more bytes, [tail], after the seed. *)
Lemma hash_chain_create_spec (seed tail : list byte) (n : Z) :
  Z.of_nat (length seed) <= INT_MAX ->
  1 <= n -> n * d <= PTRDIFF_MAX ->
  hash_chain_create (Some (seed ++ tail)) (Z.of_nat (length seed)) type n
  = (create_trace (Z.of_nat (length seed)) d n,
     Some {| digest_size := d; chain_length := n;
             data := Some (concat (iter_hash H (Z.to_nat n) seed)) |}).
Proof.
  pose proof digest_size_pos as Hd. intros Hseed Hn Hmax.
  unfold PTRDIFF_MAX in Hmax.
  assert (HnI : 0 <= n <= INT_MAX) by (unfold INT_MAX; nia).
  assert (HdI : 0 <= d <= INT_MAX) by (unfold INT_MAX; nia).
  unfold hash_chain_create, calloc.
  rewrite (to_size_t_small n), (to_size_t_small d) by assumption.
  replace (n * d <=? PTRDIFF_MAX) with true
    by (symmetry; apply Z.leb_le; unfold PTRDIFF_MAX; lia).
  cbn [bind emit ret app data].
  unfold EVP_DigestUpdate, EVP_DigestInit_ex, EVP_DigestFinal_ex.
  cbn [ctx_type ctx_input app].
  rewrite (to_size_t_small (Z.of_nat (length seed))) by lia.
  pose proof (load_mid [] seed tail 0 _ eq_refl eq_refl) as Hl.
  cbn [app] in Hl. rewrite Hl. clear Hl.
  cbn [bind ret app ctx_type ctx_input].
  replace (Z.to_nat (n * d))
    with (Z.to_nat d + Z.to_nat (n - 1) * Z.to_nat d)%nat by nia.
  rewrite repeat_app.
  pose proof (store_mid [] (repeat "000"%byte (Z.to_nat d))
                (repeat "000"%byte (Z.to_nat (n - 1) * Z.to_nat d))
                (md_digest type seed) 0 eq_refl) as Hs.
  cbn [app] in Hs. rewrite Hs
    by (rewrite ?repeat_length, ?digest_length_nat; reflexivity).
  clear Hs.
  cbn [bind ret app]. unfold set_data. cbn [digest_size chain_length].
  destruct (hash_chain_create_loop_spec (Z.to_nat (n - 1)) (Z.to_nat n) 1 n
              [] (H seed) {| ctx_type := Some type; ctx_input := seed |})
    as [ctx' Hloop]; try (unfold INT_MAX; cbn [length]; lia).
  { apply digest_length. }
  cbn [app] in Hloop. rewrite Hloop. cbn [bind ret snd].
  rewrite app_nil_r.
  unfold create_trace. rewrite ?digest_length. cbn [app].
  replace (Z.to_nat n) with (S (Z.to_nat (n - 1))) by lia.
  reflexivity.
Qed.

(** The elements of the buffer [hash_chain_create] fills. *)
Lemma chain_elem_built (seed : list byte) (n i : Z) :
  0 <= i < n ->
  chain_elem {| digest_size := d; chain_length := n;
                data := Some (concat (iter_hash H (Z.to_nat n) seed)) |} i
  = Some (Nat.iter (S (Z.to_nat i)) H seed).
Proof.
  pose proof digest_size_pos as Hd. intros Hi.
  unfold chain_elem. cbn [data digest_size].
  assert (Hlen : length (concat (iter_hash H (Z.to_nat n) seed))
                 = (Z.to_nat n * Z.to_nat d)%nat)
    by (apply length_concat_iter_hash, digest_length_nat).
  rewrite in_bounds_true by (rewrite ?Hlen; nia).
  unfold slice.
  replace (Z.to_nat (i * d)) with (Z.to_nat i * Z.to_nat d)%nat by nia.
  rewrite slice_concat.
  - rewrite nth_iter_hash by lia. reflexivity.
  - apply Forall_length_iter_hash, digest_length_nat.
  - rewrite length_iter_hash. lia.
Qed.

End Builder.

(** ** Facts on the trace of the builder *)

Lemma filter_store_loop_trace (d : Z) (m : nat) (k : Z) :
  filter is_store (loop_trace d m k)
  = map (fun j => EvStore ((k + Z.of_nat j) * d) d) (seq 0 m).
Proof.
  revert k. induction m as [|m IH]; intros k; [reflexivity|].
  cbn [loop_trace filter is_store seq map]. rewrite IH.
  rewrite <- seq_shift, map_map. f_equal.
  - f_equal. lia.
  - apply map_ext. intros j. f_equal. lia.
Qed.

Lemma Forall_within_loop_trace (d size : Z) (m : nat) (k : Z) :
  0 <= d -> 0 <= k -> (k + Z.of_nat m) * d <= size ->
  Forall (access_within size) (loop_trace d m k).
Proof.
  intros Hd. revert k. induction m as [|m IH]; intros k Hk Hsize;
    cbn [loop_trace]; [constructor|].
  constructor; [exact I|]. constructor; [cbn; nia|].
  apply IH; [lia|]. replace (k + 1 + Z.of_nat m) with (k + Z.of_nat (S m)) by lia.
  exact Hsize.
Qed.

Lemma Forall_within_create_trace (baselen d n : Z) :
  0 < d -> 1 <= n ->
  Forall (access_within (n * d)) (create_trace baselen d n).
Proof.
  intros Hd Hn. unfold create_trace.
  constructor; [exact I|]. constructor; [exact I|].
  constructor; [cbn; nia|].
  apply Forall_within_loop_trace; try lia.
  replace (1 + Z.of_nat (Z.to_nat (n - 1))) with n by lia. lia.
Qed.

Lemma printed_loop_trace (f : stream) (d : Z) (m : nat) (k : Z) :
  printed f (loop_trace d m k) = [].
Proof. revert k. induction m; intros k; cbn; auto. Qed.

Lemma filter_heap_loop_trace (d : Z) (m : nat) (k : Z) :
  filter is_heap_event (loop_trace d m k) = [].
Proof. revert k. induction m; intros k; cbn; auto. Qed.

Lemma toy_md_wf (n : nat) : (0 < n)%nat -> md_wf (toy_md n).
Proof.
  intros Hn. split; cbn [EVP_MD_size toy_md md_digest]; [lia|].
  intros x. unfold toy_digest. now rewrite length_map, length_seq.
Qed.

(** With [chain_len <= 0] the buffer has no room for a digest, or is
    [NULL]; the first digest is written all the same, and that write is
    the fault. *)
Lemma hash_chain_create_nonpositive (type : EVP_MD) (seed tail : list byte)
    (n : Z) :
  md_wf type ->
  Z.of_nat (length seed) <= INT_MAX ->
  -2147483648 <= n <= 0 ->
  exists t,
    hash_chain_create (Some (seed ++ tail)) (Z.of_nat (length seed)) type n
    = (t ++ [EvStore 0 (EVP_MD_size type)], None)
    /\ filter is_store t = []
    /\ printed Stdout t = [] /\ printed Stderr t = [].
Proof.
  intros Hwf Hseed Hn. destruct (Hwf) as [Hpos Hlen].
  unfold hash_chain_create, calloc.
  unfold EVP_DigestUpdate, EVP_DigestInit_ex, EVP_DigestFinal_ex.
  cbn [ctx_type ctx_input app].
  rewrite (to_size_t_small (Z.of_nat (length seed))) by lia.
  pose proof (load_mid [] seed tail 0 _ eq_refl eq_refl) as Hl.
  cbn [app] in Hl.
  destruct (to_size_t n * to_size_t (EVP_MD_size type) <=? PTRDIFF_MAX) eqn:Ha.
  - (* a block was returned: it has no room for a digest *)
    apply Z.leb_le in Ha.
    assert (Hn0 : to_size_t n * to_size_t (EVP_MD_size type) = 0).
    { unfold to_size_t, PTRDIFF_MAX in *.
      assert (Hs : 1 <= EVP_MD_size type mod 4294967296
                   \/ EVP_MD_size type mod 4294967296 = 0).
      { pose proof (Z.mod_pos_bound (EVP_MD_size type) 4294967296). lia. }
      destruct (Z.eq_dec n 0) as [->|Hne]; [reflexivity|].
      replace (n mod 4294967296) with (n + 4294967296) in *
        by (apply Z.mod_unique with (q := -1); lia).
      destruct Hs as [Hs|Hs]; [nia|]. rewrite Hs. lia. }
    rewrite Hn0. cbn [bind emit ret app data Z.to_nat repeat].
    rewrite Hl. cbn [bind ret app ctx_type ctx_input].
    unfold store. cbn [bind emit].
    replace (in_bounds [] 0 (Z.of_nat (length (md_digest type seed))))
      with false
      by (symmetry; unfold in_bounds; cbn [length Z.of_nat];
          rewrite Hlen; apply andb_false_iff; right; apply Z.leb_gt; lia).
    cbn [fault app]. rewrite Hlen.
    exists [EvAlloc 0; EvLoad 0 (Z.of_nat (length seed))].
    repeat split.
  - (* [calloc] returned [NULL] *)
    cbn [bind emit ret app data].
    rewrite Hl. cbn [bind ret app ctx_type ctx_input].
    unfold store. cbn [bind emit fault app]. rewrite Hlen.
    exists [EvLoad 0 (Z.of_nat (length seed))].
    repeat split.
Qed.

(** No result of [calloc] is looked at.  For a length [n >= 1] whose
    buffer cannot be allocated the seed is read and the first digest is
    written through the null pointer. *)
Lemma hash_chain_create_null (type : EVP_MD) (seed : list byte) (n : Z) :
  md_wf type -> EVP_MD_size type <= INT_MAX ->
  Z.of_nat (length seed) <= INT_MAX ->
  1 <= n <= INT_MAX -> PTRDIFF_MAX < n * EVP_MD_size type ->
  hash_chain_create (Some seed) (Z.of_nat (length seed)) type n
  = ([EvLoad 0 (Z.of_nat (length seed)); EvStore 0 (EVP_MD_size type)], None).
Proof.
  intros [Hpos Hlen] Hd Hseed Hn Hbig.
  unfold hash_chain_create, calloc.
  rewrite (to_size_t_small n), (to_size_t_small (EVP_MD_size type)) by lia.
  replace (n * EVP_MD_size type <=? PTRDIFF_MAX) with false
    by (symmetry; apply Z.leb_gt; lia).
  unfold EVP_DigestUpdate, EVP_DigestInit_ex, EVP_DigestFinal_ex.
  cbn [ctx_type ctx_input app bind ret data].
  rewrite (to_size_t_small (Z.of_nat (length seed))) by lia.
  rewrite load_whole. cbn [bind ret app ctx_type ctx_input].
  unfold store. cbn [bind emit fault app]. now rewrite Hlen.
Qed.

(** * The claims on the builder *)

(** C1 (as amended).  For every seed (the empty one too), every digest
    of fixed size [d] and every length [n >= 1] whose buffer of [n * d]
    bytes can be allocated, which on this target are the lengths with
    [n * d <= PTRDIFF_MAX], [hash_chain_create] returns a chain of
    length [n] and digest size [d] over a buffer of [n * d] bytes;
    element 0 is [H seed], element [i] is [H] of element [i - 1] for
    [1 <= i < n], every element has [d] bytes, and for [n = 1] the
    buffer is [H seed] alone, written by a run that reads the seed and
    nothing else: no digest is hashed again. *)
Theorem hash_chain_create_correct (type : EVP_MD) (seed : list byte) (n : Z) :
  md_wf type ->
  Z.of_nat (length seed) <= INT_MAX ->
  1 <= n ->
  n * EVP_MD_size type <= PTRDIFF_MAX ->
  exists t c,
    hash_chain_create (Some seed) (Z.of_nat (length seed)) type n = (t, Some c)
    /\ chain_length c = n
    /\ digest_size c = EVP_MD_size type
    /\ (exists b, data c = Some b
                  /\ Z.of_nat (length b) = n * EVP_MD_size type)
    /\ chain_elem c 0 = Some (md_digest type seed)
    /\ (forall i, 1 <= i < n ->
          exists prev, chain_elem c (i - 1) = Some prev
                       /\ chain_elem c i = Some (md_digest type prev))
    /\ (forall i, 0 <= i < n ->
          exists e, chain_elem c i = Some e
                    /\ Z.of_nat (length e) = EVP_MD_size type)
    /\ (n = 1 ->
        data c = Some (md_digest type seed)
        /\ t = [EvAlloc (EVP_MD_size type);
                EvLoad 0 (Z.of_nat (length seed));
                EvStore 0 (EVP_MD_size type)]).
Proof.
  intros Hwf Hseed Hn Hmax.
  pose proof (hash_chain_create_spec type Hwf seed [] n Hseed Hn Hmax) as Hrun.
  rewrite app_nil_r in Hrun.
  eexists _, _. split; [exact Hrun|].
  assert (Hiter : forall k, Z.of_nat (length (Nat.iter (S k) (md_digest type) seed))
                            = EVP_MD_size type)
    by (intros k; cbn [Nat.iter]; apply Hwf).
  repeat match goal with |- _ /\ _ => split end; try reflexivity.
  - cbn [data]. eexists. split; [reflexivity|].
    rewrite (length_concat_iter_hash _ (Z.to_nat (EVP_MD_size type)))
      by (apply digest_length_nat, Hwf).
    destruct Hwf as [Hpos _]. nia.
  - rewrite (chain_elem_built type Hwf) by lia. reflexivity.
  - intros i Hi. exists (Nat.iter (S (Z.to_nat (i - 1))) (md_digest type) seed).
    rewrite !(chain_elem_built type Hwf) by lia.
    split; [reflexivity|].
    replace (Z.to_nat i) with (S (Z.to_nat (i - 1))) by lia. reflexivity.
  - intros i Hi. eexists. rewrite (chain_elem_built type Hwf) by lia.
    split; [reflexivity|]. apply Hiter.
  - intros ->. split.
    + cbn [data]. change (Z.to_nat 1) with 1%nat.
      cbn [iter_hash concat]. now rewrite app_nil_r.
    + unfold create_trace. change (Z.to_nat (1 - 1)) with 0%nat.
      cbn [loop_trace]. now rewrite Z.mul_1_l.
Qed.

Lemma hash_chain_create_correct_witness :
  exists t c,
    hash_chain_create (Some seed_hello) 5 (toy_md 4) 3 = (t, Some c)
    /\ chain_length c = 3
    /\ chain_elem c 1 = Some (toy_digest 4 (toy_digest 4 seed_hello)).
Proof.
  destruct (hash_chain_create_correct (toy_md 4) seed_hello 3)
    as (t & c & Hrun & Hlen & _ & _ & H0 & Hstep & _).
  - apply toy_md_wf. lia.
  - vm_compute. discriminate.
  - lia.
  - vm_compute. discriminate.
  - exists t, c. split; [exact Hrun|]. split; [exact Hlen|].
    destruct (Hstep 1) as (prev & Hprev & Hcur); [lia|].
    change (1 - 1) with 0 in Hprev. rewrite H0 in Hprev.
    injection Hprev as <-. exact Hcur.
Defined.

(** C1, the claim as stated, fails: not every length [>= 1] gives a
    chain.  For 40000000 digests of 64 bytes the buffer is not
    allocated; the first digest is written through the null pointer and
    no chain is returned. *)
Lemma hash_chain_create_no_chain_for_large_length :
  1 <= 40000000
  /\ md_wf (toy_md 64)
  /\ hash_chain_create (Some seed_hello) 5 (toy_md 64) 40000000
     = ([EvLoad 0 5; EvStore 0 64], None).
Proof.
  split; [lia|]. split; [apply toy_md_wf; lia|].
  apply (hash_chain_create_null (toy_md 64) seed_hello 40000000);
    try (apply toy_md_wf; lia); vm_compute; try discriminate;
    split; discriminate.
Qed.



(** C9 (as amended).  With [chain_len >= 1], a digest size [d >= 1] and
    the buffer of [chain_len * d] bytes allocated, which on this target
    means [chain_len * d <= PTRDIFF_MAX], [hash_chain_create] runs
    without a fault and writes element [i] at offset [i * d], for
    [i = 0 .. chain_len - 1] in turn, each write inside the buffer.
    Both preconditions are needed, as the first digest is written
    whatever [chain_len] is and whatever [calloc] returned: for any
    [chain_len <= 0] that first write, at offset 0, is outside the
    buffer, and for any [chain_len >= 1] whose buffer is not allocated
    it goes through the null pointer. *)
Theorem hash_chain_create_writes_in_bounds (type : EVP_MD) (seed : list byte)
    (n : Z) :
  md_wf type ->
  Z.of_nat (length seed) <= INT_MAX ->
  (1 <= n -> n * EVP_MD_size type <= PTRDIFF_MAX ->
   exists t c,
     hash_chain_create (Some seed) (Z.of_nat (length seed)) type n = (t, Some c)
     /\ Forall (access_within (n * EVP_MD_size type)) t
     /\ filter is_store t
        = map (fun i => EvStore (Z.of_nat i * EVP_MD_size type) (EVP_MD_size type))
            (seq 0 (Z.to_nat n)))
  /\ (-2147483648 <= n <= 0 ->
      exists t,
        hash_chain_create (Some seed) (Z.of_nat (length seed)) type n
        = (t ++ [EvStore 0 (EVP_MD_size type)], None)
        /\ filter is_store t = [])
  /\ (1 <= n <= INT_MAX -> EVP_MD_size type <= INT_MAX ->
      PTRDIFF_MAX < n * EVP_MD_size type ->
      hash_chain_create (Some seed) (Z.of_nat (length seed)) type n
      = ([EvLoad 0 (Z.of_nat (length seed)); EvStore 0 (EVP_MD_size type)],
         None)).
Proof.
  intros Hwf Hseed. destruct (Hwf) as [Hpos Hlen]. split; [|split].
  - intros Hn Hmax.
    pose proof (hash_chain_create_spec type Hwf seed [] n Hseed Hn Hmax) as Hrun.
    rewrite app_nil_r in Hrun.
    eexists _, _. split; [exact Hrun|]. split.
    + apply Forall_within_create_trace; lia.
    + unfold create_trace. cbn [filter is_store]. rewrite filter_store_loop_trace.
      replace (Z.to_nat n) with (S (Z.to_nat (n - 1))) by lia.
      cbn [seq map]. f_equal. rewrite <- seq_shift, map_map.
      apply map_ext. intros j. f_equal. lia.
  - intros Hn.
    pose proof (hash_chain_create_nonpositive type seed [] n Hwf Hseed Hn) as Hrun.
    rewrite app_nil_r in Hrun. destruct Hrun as (t & Hrun & Hst & _).
    exists t. auto.
  - intros Hn Hd Hbig. now apply hash_chain_create_null.
Qed.

Lemma hash_chain_create_writes_in_bounds_witness :
  (exists t c,
     hash_chain_create (Some seed_hello) 5 (toy_md 4) 3 = (t, Some c)
     /\ filter is_store t = [EvStore 0 4; EvStore 4 4; EvStore 8 4])
  /\ (exists t,
        hash_chain_create (Some seed_hello) 5 (toy_md 4) 0
        = (t ++ [EvStore 0 4], None))
  /\ hash_chain_create (Some seed_hello) 5 (toy_md 4) 600000000
     = ([EvLoad 0 5; EvStore 0 4], None).
Proof.
  destruct (hash_chain_create_writes_in_bounds (toy_md 4) seed_hello 3)
    as (Hok & _ & _); [apply toy_md_wf; lia | vm_compute; discriminate |].
  destruct (hash_chain_create_writes_in_bounds (toy_md 4) seed_hello 0)
    as (_ & Hbad & _); [apply toy_md_wf; lia | vm_compute; discriminate |].
  destruct (hash_chain_create_writes_in_bounds (toy_md 4) seed_hello 600000000)
    as (_ & _ & Hnull); [apply toy_md_wf; lia | vm_compute; discriminate |].
  split; [|split].
  - destruct Hok as (t & c & Hrun & _ & Hst); [lia | vm_compute; discriminate |].
    exists t, c. split; [exact Hrun | exact Hst].
  - destruct Hbad as (t & Hrun & _); [lia|]. exists t. exact Hrun.
  - apply Hnull;
      [vm_compute; split; discriminate | vm_compute; discriminate
      | vm_compute; reflexivity].
Defined.

(** C9, the claim as stated, fails: [chain_len >= 1] and [d >= 1] do
    not keep the writes inside an allocated buffer.  For 40000000
    digests of 64 bytes no block is allocated, and the one store of the
    run, of the first digest, goes through the null pointer. *)
Lemma hash_chain_create_writes_through_null :
  exists t,
    1 <= 40000000 /\ 1 <= EVP_MD_size (toy_md 64)
    /\ hash_chain_create (Some seed_hello) 5 (toy_md 64) 40000000 = (t, None)
    /\ filter is_heap_event t = []
    /\ filter is_store t = [EvStore 0 64].
Proof.
  exists [EvLoad 0 5; EvStore 0 64].
  split; [lia|]. split; [vm_compute; discriminate|].
  split; [|split; reflexivity].
  apply (hash_chain_create_null (toy_md 64) seed_hello 40000000);
    try (apply toy_md_wf; lia); vm_compute; try discriminate;
    split; discriminate.
Qed.

(** * The verifier *)

Lemma Z_of_byte_range (b : byte) : 0 <= Z_of_byte b < 256.
Proof.
  unfold Z_of_byte. pose proof (Byte.to_N_bounded b). lia.
Qed.

Lemma byte_of_Z_of_byte (b : byte) : byte_of_Z (Z_of_byte b) = b.
Proof.
  unfold byte_of_Z. rewrite Z.mod_small by apply Z_of_byte_range.
  unfold Z_of_byte. now rewrite N2Z.id, Byte.of_to_N.
Qed.

Lemma Z_of_byte_inj (a b : byte) : Z_of_byte a = Z_of_byte b -> a = b.
Proof.
  intros Hab. rewrite <- (byte_of_Z_of_byte a), <- (byte_of_Z_of_byte b).
  now rewrite Hab.
Qed.

Lemma memcmp_bytes_zero (a b : list byte) :
  length a = length b -> (memcmp_bytes a b = 0 <-> a = b).
Proof.
  revert b. induction a as [|x a IH]; intros [|y b] Hlen; try discriminate.
  - cbn. tauto.
  - cbn [memcmp_bytes]. injection Hlen as Hlen.
    destruct (Z_of_byte x =? Z_of_byte y) eqn:Hxy.
    + apply Z.eqb_eq, Z_of_byte_inj in Hxy. subst y.
      rewrite (IH b Hlen). split; [now intros -> | now intros [= ->]].
    + apply Z.eqb_neq in Hxy. split; [lia|].
      intros [= -> _]. now contradiction Hxy.
Qed.

Lemma length_resize (n : nat) (garbage : list byte) :
  length (resize n garbage) = n.
Proof.
  unfold resize. rewrite length_firstn, length_app, repeat_length. lia.
Qed.

Lemma store_whole (old new : list byte) :
  length new = length old ->
  store (Some old) 0 new
  = ([EvStore 0 (Z.of_nat (length new))], Some (Some new)).
Proof.
  intros Hlen.
  pose proof (store_mid [] old [] new 0 eq_refl Hlen) as Hs.
  cbn [app] in Hs. now rewrite !app_nil_r in Hs.
Qed.

Lemma length_slice (b : block) (off len : Z) :
  in_bounds b off len = true -> Z.of_nat (length (slice b off len)) = len.
Proof.
  intros Hb. apply in_bounds_inv in Hb. unfold slice.
  rewrite length_firstn, length_skipn. lia.
Qed.

(** The run of [hash_chain_verify] on two pointers with [d] readable
    bytes each. *)
Lemma hash_chain_verify_spec (hash : EVP_MD) (garbage : list byte)
    (h : block) (h_off : Z) (tip : block) (tip_off : Z) :
  md_wf hash -> EVP_MD_size hash <= PTRDIFF_MAX ->
  in_bounds h h_off (EVP_MD_size hash) = true ->
  in_bounds tip tip_off (EVP_MD_size hash) = true ->
  let d := EVP_MD_size hash in
  hash_chain_verify garbage (Some h) h_off (Some tip) tip_off hash
  = ([EvAlloc d; EvLoad h_off d; EvStore 0 d; EvLoad 0 d; EvLoad tip_off d;
      EvFree],
     Some (memcmp_bytes (md_digest hash (slice h h_off d)) (slice tip tip_off d)
           =? 0)).
Proof.
  intros [Hpos Hlen] Hmax Hh Htip d.
  assert (Hd : to_size_t d = d)
    by (apply to_size_t_small; unfold PTRDIFF_MAX, INT_MAX in *; subst d; lia).
  unfold hash_chain_verify, malloc. fold d. rewrite Hd.
  replace (d <=? PTRDIFF_MAX) with true by (symmetry; now apply Z.leb_le).
  cbn [bind emit ret app].
  unfold EVP_DigestUpdate, EVP_DigestInit_ex, EVP_DigestFinal_ex.
  cbn [ctx_type ctx_input app]. rewrite Hd.
  rewrite (load_ok h h_off d Hh). cbn [bind ret app ctx_type ctx_input].
  rewrite store_whole by (rewrite length_resize; specialize (Hlen (slice h h_off d)); lia).
  cbn [bind ret app]. unfold memcmp. rewrite Hd, Hlen.
  pose proof (load_whole (md_digest hash (slice h h_off d))) as Hl.
  rewrite Hlen in Hl. fold d in Hl. rewrite Hl.
  rewrite (load_ok tip tip_off d Htip).
  cbn [bind ret app free emit]. reflexivity.
Qed.

Lemma chain_elem_inv (c : hash_chain) (i : Z) (e : list byte) :
  chain_elem c i = Some e ->
  exists b, data c = Some b
            /\ in_bounds b (i * digest_size c) (digest_size c) = true
            /\ slice b (i * digest_size c) (digest_size c) = e.
Proof.
  unfold chain_elem. destruct (data c) as [b|]; [|discriminate].
  destruct (in_bounds b (i * digest_size c) (digest_size c)) eqn:Hb;
    [|discriminate].
  intros [= <-]. exists b. auto.
Qed.

Lemma slice_whole (b : block) : slice b 0 (Z.of_nat (length b)) = b.
Proof.
  unfold slice. cbn [Z.to_nat skipn]. rewrite Nat2Z.id. apply firstn_all.
Qed.

Lemma slice_all (b : block) (len : Z) :
  Z.of_nat (length b) = len -> slice b 0 len = b.
Proof. intros <-. apply slice_whole. Qed.

Lemma slice_prefix (b : block) (len : Z) :
  slice b 0 len = firstn (Z.to_nat len) b.
Proof. reflexivity. Qed.

(** * The claims on the verifier *)

(** C2.  For a candidate and a tip of the digest's length [d],
    [hash_chain_verify] returns, without a fault, [true] exactly when
    [H candidate] equals [tip] byte for byte, hence [false] for every
    candidate whose hash differs from the tip; and for every chain
    [hash_chain_create] builds and every [i] with [1 <= i < length],
    the call on the pointers to elements [i - 1] and [i] returns
    [true]. *)
Theorem hash_chain_verify_correct (hash : EVP_MD) (garbage : list byte) :
  md_wf hash ->
  EVP_MD_size hash <= PTRDIFF_MAX ->
  (forall candidate tip,
      Z.of_nat (length candidate) = EVP_MD_size hash ->
      Z.of_nat (length tip) = EVP_MD_size hash ->
      exists t b,
        hash_chain_verify garbage (Some candidate) 0 (Some tip) 0 hash
        = (t, Some b)
        /\ (b = true <-> md_digest hash candidate = tip)
        /\ (md_digest hash candidate <> tip -> b = false))
  /\ (forall seed n i,
         Z.of_nat (length seed) <= INT_MAX ->
         n * EVP_MD_size hash <= PTRDIFF_MAX ->
         1 <= i < n ->
         exists t c t',
           hash_chain_create (Some seed) (Z.of_nat (length seed)) hash n
           = (t, Some c)
           /\ hash_chain_verify garbage
                (data c) ((i - 1) * digest_size c)
                (data c) (i * digest_size c) hash
              = (t', Some true)).
Proof.
  intros Hwf Hmax. destruct (Hwf) as [Hpos Hlen]. split.
  - intros candidate tip Hc Ht.
    pose proof (hash_chain_verify_spec hash garbage candidate 0 tip 0 Hwf Hmax)
      as Hrun.
    cbv zeta in Hrun.
    assert (Hsc : slice candidate 0 (EVP_MD_size hash) = candidate)
      by (rewrite <- Hc; apply slice_whole).
    assert (Hst : slice tip 0 (EVP_MD_size hash) = tip)
      by (rewrite <- Ht; apply slice_whole).
    rewrite Hsc, Hst in Hrun.
    eexists _, _. split.
    + apply Hrun; apply in_bounds_true; lia.
    + assert (Hiff : (memcmp_bytes (md_digest hash candidate) tip =? 0) = true
                     <-> md_digest hash candidate = tip).
      { rewrite Z.eqb_eq. apply memcmp_bytes_zero.
        specialize (Hlen candidate). lia. }
      split; [exact Hiff|].
      intros Hne. apply not_true_is_false. intros Hb. now apply Hne, Hiff.
  - intros seed n i Hseed Hn Hi.
    pose proof (hash_chain_create_spec hash Hwf seed [] n Hseed) as Hrun.
    rewrite app_nil_r in Hrun.
    pose proof (chain_elem_built hash Hwf seed n (i - 1)) as Hprev.
    pose proof (chain_elem_built hash Hwf seed n i) as Hcur.
    apply chain_elem_inv in Hprev; [|lia].
    apply chain_elem_inv in Hcur; [|lia].
    destruct Hprev as (b & Hb & Hin1 & Hs1).
    destruct Hcur as (b' & Hb' & Hin2 & Hs2).
    rewrite Hb in Hb'. injection Hb' as <-.
    cbn [data digest_size] in *. injection Hb as <-.
    eexists _, _, _. split; [apply Hrun; [lia | assumption]|].
    cbn [data digest_size].
    rewrite (hash_chain_verify_spec hash garbage _ _ _ _ Hwf Hmax Hin1 Hin2).
    cbv zeta. rewrite Hs1, Hs2. f_equal. f_equal.
    apply Z.eqb_eq. apply memcmp_bytes_zero.
    + apply Nat2Z.inj. rewrite Hlen. symmetry.
      apply (Hlen (Nat.iter (Z.to_nat i) (md_digest hash) seed)).
    + replace (Z.to_nat i) with (S (Z.to_nat (i - 1))) by lia. reflexivity.
Qed.

Lemma hash_chain_verify_correct_witness :
  exists t,
    hash_chain_verify [] (Some (toy_digest 4 seed_hello)) 0
      (Some (toy_digest 4 (toy_digest 4 seed_hello))) 0 (toy_md 4)
    = (t, Some true).
Proof.
  destruct (hash_chain_verify_correct (toy_md 4) []) as [Hone _].
  - apply toy_md_wf. lia.
  - vm_compute. discriminate.
  - destruct (Hone (toy_digest 4 seed_hello)
                (toy_digest 4 (toy_digest 4 seed_hello)))
      as (t & b & Hrun & Hiff & _); [reflexivity | reflexivity |].
    assert (Hb : b = true) by (apply Hiff; reflexivity).
    subst b. exists t. exact Hrun.
Defined.

(** C10.  [hash_chain_verify] reads [EVP_MD_size hash] bytes from each
    of its two inputs and nothing behind them: the three loads of a run
    each span the [d] bytes at the pointer they are given, and two runs
    with the same digest whose candidates agree on their first [d] bytes
    and whose tips agree on their first [d] bytes return the same
    boolean, whatever follows in the objects and whatever the heap held
    before. *)
Theorem hash_chain_verify_reads_prefix (hash : EVP_MD)
    (garbage1 garbage2 : list byte) (h1 h2 tip1 tip2 : block) :
  md_wf hash ->
  EVP_MD_size hash <= PTRDIFF_MAX ->
  let d := EVP_MD_size hash in
  d <= Z.of_nat (length h1) -> d <= Z.of_nat (length h2) ->
  d <= Z.of_nat (length tip1) -> d <= Z.of_nat (length tip2) ->
  firstn (Z.to_nat d) h1 = firstn (Z.to_nat d) h2 ->
  firstn (Z.to_nat d) tip1 = firstn (Z.to_nat d) tip2 ->
  exists t b,
    hash_chain_verify garbage1 (Some h1) 0 (Some tip1) 0 hash = (t, Some b)
    /\ hash_chain_verify garbage2 (Some h2) 0 (Some tip2) 0 hash = (t, Some b)
    /\ filter is_load t = [EvLoad 0 d; EvLoad 0 d; EvLoad 0 d]
    /\ (b = true <->
        md_digest hash (firstn (Z.to_nat d) h1) = firstn (Z.to_nat d) tip1).
Proof.
  intros Hwf Hmax d Hh1 Hh2 Ht1 Ht2 Hh Ht. destruct (Hwf) as [Hpos Hlen].
  fold d in Hpos.
  pose proof (hash_chain_verify_spec hash garbage1 h1 0 tip1 0 Hwf Hmax) as Hrun1.
  pose proof (hash_chain_verify_spec hash garbage2 h2 0 tip2 0 Hwf Hmax) as Hrun2.
  cbv zeta in Hrun1, Hrun2. fold d in Hrun1, Hrun2.
  rewrite !slice_prefix in Hrun1, Hrun2.
  rewrite <- Hh, <- Ht in Hrun2.
  eexists _, _. split; [|split; [|split]].
  - apply Hrun1; apply in_bounds_true; lia.
  - apply Hrun2; apply in_bounds_true; lia.
  - reflexivity.
  - rewrite Z.eqb_eq. apply memcmp_bytes_zero.
    specialize (Hlen (firstn (Z.to_nat d) h1)). fold d in Hlen.
    rewrite length_firstn. lia.
Qed.

Lemma hash_chain_verify_reads_prefix_witness :
  exists t b,
    hash_chain_verify [] (Some (toy_digest 4 seed_hello ++ text "ab")) 0
      (Some (toy_digest 4 (toy_digest 4 seed_hello))) 0 (toy_md 4)
    = (t, Some b)
    /\ hash_chain_verify (text "junk") (Some (toy_digest 4 seed_hello)) 0
         (Some (toy_digest 4 (toy_digest 4 seed_hello) ++ text "xyz")) 0 (toy_md 4)
       = (t, Some b)
    /\ filter is_load t = [EvLoad 0 4; EvLoad 0 4; EvLoad 0 4].
Proof.
  destruct (hash_chain_verify_reads_prefix (toy_md 4) [] (text "junk")
              (toy_digest 4 seed_hello ++ text "ab") (toy_digest 4 seed_hello)
              (toy_digest 4 (toy_digest 4 seed_hello))
              (toy_digest 4 (toy_digest 4 seed_hello) ++ text "xyz"))
    as (t & b & Hrun1 & Hrun2 & Hloads & _).
  - apply toy_md_wf. lia.
  - vm_compute. discriminate.
  - vm_compute. discriminate.
  - vm_compute. discriminate.
  - vm_compute. discriminate.
  - vm_compute. discriminate.
  - reflexivity.
  - reflexivity.
  - exists t, b. auto.
Defined.

(** * The base64 codec *)

(** ** Bits as arithmetic *)

Lemma lor_add (x lo k : Z) :
  0 <= k -> 0 <= lo < 2 ^ k -> x mod 2 ^ k = 0 -> Z.lor x lo = x + lo.
Proof.
  intros Hk Hlo Hx.
  rewrite <- (Z.add_lor_land x lo).
  assert (Hland : Z.land x lo = 0).
  { apply Z.bits_inj'. intros n Hn.
    rewrite Z.land_spec, Z.bits_0.
    destruct (Z.lt_ge_cases n k) as [Hlt|Hge].
    - rewrite <- (Z.mod_pow2_bits_low x k n) by lia.
      rewrite Hx, Z.bits_0. reflexivity.
    - rewrite <- (Z.mod_small lo (2 ^ k)) by lia.
      rewrite Z.mod_pow2_bits_high by lia. apply andb_false_r. }
  rewrite Hland. lia.
Qed.

Lemma land_63 (x : Z) : Z.land x 63 = x mod 64.
Proof. change 63 with (Z.ones 6). now rewrite Z.land_ones by lia. Qed.

Lemma land_255 (x : Z) : Z.land x 255 = x mod 256.
Proof. change 255 with (Z.ones 8). now rewrite Z.land_ones by lia. Qed.

Lemma land_lnot_3 (i : Z) : Z.land i (Z.lnot 3) = 4 * (i / 4).
Proof.
  rewrite <- Z.ldiff_land. change 3 with (Z.ones 2).
  rewrite Z.ldiff_ones_r by lia.
  rewrite Z.shiftl_mul_pow2, Z.shiftr_div_pow2 by lia.
  change (2 ^ 2) with 4. lia.
Qed.

Lemma enc_l_add (a b c : Z) :
  0 <= a < 256 -> 0 <= b < 256 -> 0 <= c < 256 ->
  enc_l a b c = a * 65536 + b * 256 + c.
Proof.
  intros Ha Hb Hc. unfold enc_l.
  rewrite !Z.shiftl_mul_pow2 by lia.
  change (2 ^ 16) with 65536. change (2 ^ 8) with 256.
  rewrite (lor_add (a * 65536) (b * 256) 16); try lia.
  2:{ change (2 ^ 16) with (65536). rewrite Z.mod_mul; lia. }
  rewrite (lor_add (a * 65536 + b * 256) c 8); try lia.
  change (2 ^ 8) with 256.
  replace (a * 65536 + b * 256) with ((a * 256 + b) * 256) by lia.
  apply Z.mod_mul. lia.
Qed.

Lemma dec_l_add (a b c d : Z) :
  0 <= a < 64 -> 0 <= b < 64 -> 0 <= c < 64 -> 0 <= d < 64 ->
  dec_l a b c d = a * 262144 + b * 4096 + c * 64 + d.
Proof.
  intros Ha Hb Hc Hd. unfold dec_l.
  rewrite !Z.shiftl_mul_pow2 by lia.
  change (2 ^ 18) with 262144. change (2 ^ 12) with 4096. change (2 ^ 6) with 64.
  rewrite (lor_add (a * 262144) (b * 4096) 18); try lia.
  2:{ change (2 ^ 18) with 262144. apply Z.mod_mul; lia. }
  rewrite (lor_add (a * 262144 + b * 4096) (c * 64) 12); try lia.
  2:{ change (2 ^ 12) with 4096.
      replace (a * 262144 + b * 4096) with ((a * 64 + b) * 4096) by lia.
      apply Z.mod_mul. lia. }
  rewrite (lor_add (a * 262144 + b * 4096 + c * 64) d 6); try lia.
  change (2 ^ 6) with 64.
  replace (a * 262144 + b * 4096 + c * 64)
    with ((a * 4096 + b * 64 + c) * 64) by lia.
  apply Z.mod_mul. lia.
Qed.

(** The four 6-bit values cut from 24 bits give the 24 bits back. *)
Lemma dec_l_sextets (l : Z) :
  0 <= l < 16777216 ->
  dec_l (Z.land (Z.shiftr l 18) 63) (Z.land (Z.shiftr l 12) 63)
        (Z.land (Z.shiftr l 6) 63) (Z.land l 63) = l.
Proof.
  intros Hl. rewrite !land_63, !Z.shiftr_div_pow2 by lia.
  change (2 ^ 18) with 262144. change (2 ^ 12) with 4096. change (2 ^ 6) with 64.
  rewrite dec_l_add; try (apply Z.mod_pos_bound; lia).
  Z.to_euclidean_division_equations; lia.
Qed.

(** The three bytes cut from the 24 bits of three bytes. *)
Lemma enc_l_bytes (a b c : Z) :
  0 <= a < 256 -> 0 <= b < 256 -> 0 <= c < 256 ->
  0 <= enc_l a b c < 16777216
  /\ Z.land (Z.shiftr (enc_l a b c) 16) 255 = a
  /\ Z.land (Z.shiftr (enc_l a b c) 8) 255 = b
  /\ Z.land (enc_l a b c) 255 = c.
Proof.
  intros Ha Hb Hc. rewrite enc_l_add by assumption.
  rewrite !land_255, !Z.shiftr_div_pow2 by lia.
  change (2 ^ 16) with 65536. change (2 ^ 8) with 256.
  repeat split; Z.to_euclidean_division_equations; lia.
Qed.

(** ** The two tables *)

Lemma Z_range_forallb (P : Z -> bool) (n : nat) :
  forallb P (map Z.of_nat (seq 0 n)) = true ->
  forall z, 0 <= z < Z.of_nat n -> P z = true.
Proof.
  intros Hall z Hz. rewrite forallb_forall in Hall. apply Hall.
  rewrite in_map_iff. exists (Z.to_nat z). split; [lia|].
  apply in_seq. lia.
Qed.

Lemma conv_bin2ascii_spec (x : Z) :
  alphabet_char (conv_bin2ascii x) (Z.land x 63) = true.
Proof.
  unfold conv_bin2ascii.
  assert (Hs : 0 <= Z.land x 63 < Z.of_nat 64)
    by (rewrite land_63; apply Z.mod_pos_bound; lia).
  revert Hs. generalize (Z.land x 63) as s. intros s Hs. revert s Hs.
  apply (Z_range_forallb
           (fun s => alphabet_char
                       (nth (Z.to_nat s) data_bin2ascii "000"%byte) s)).
  vm_compute. reflexivity.
Qed.

Lemma sextet_range (x : Z) : 0 <= Z.land x 63 < 64.
Proof. rewrite land_63. apply Z.mod_pos_bound. lia. Qed.

Lemma sextet_high_bit (s : Z) : 0 <= s < 64 -> (Z.land s 128 =? 0) = true.
Proof.
  intros Hs. revert s Hs.
  apply (Z_range_forallb (fun s => Z.land s 128 =? 0) 64).
  vm_compute. reflexivity.
Qed.

Lemma alphabet_char_inv (c : byte) (s : Z) :
  alphabet_char c s = true ->
  conv_ascii2bin c = s /\ Z_of_byte c <> 0 /\ Z_of_byte c <> 61
  /\ Z_of_byte c <> 10.
Proof.
  unfold alphabet_char. rewrite !andb_true_iff, !negb_true_iff.
  rewrite Z.eqb_eq, !Z.eqb_neq. tauto.
Qed.

Lemma conv_ascii2bin_bin2ascii (x : Z) :
  conv_ascii2bin (conv_bin2ascii x) = Z.land x 63.
Proof. apply (alphabet_char_inv _ _ (conv_bin2ascii_spec x)). Qed.

Lemma conv_bin2ascii_not_pad (x : Z) : Z_of_byte (conv_bin2ascii x) <> 61.
Proof. apply (alphabet_char_inv _ _ (conv_bin2ascii_spec x)). Qed.

Lemma text_char_bin2ascii (x : Z) : text_char (conv_bin2ascii x) = true.
Proof.
  destruct (alphabet_char_inv _ _ (conv_bin2ascii_spec x)) as (Hv & Hz & _).
  unfold text_char. rewrite Hv.
  rewrite !andb_true_iff, !negb_true_iff. repeat split.
  - now apply Z.eqb_neq.
  - pose proof (sextet_range x). apply Z.eqb_neq. unfold B64_WS. lia.
  - pose proof (sextet_range x) as Hs. revert Hs.
    generalize (Z.land x 63). intros s Hs. apply negb_true_iff. revert s Hs.
    apply (Z_range_forallb (fun s => negb (B64_NOT_BASE64 s)) 64).
    vm_compute. reflexivity.
Qed.

Lemma text_char_pad : text_char PAD = true.
Proof. vm_compute. reflexivity. Qed.

(** ** Decoding an encoded block *)

(** Four characters with 6-bit values give the three bytes of their 24
    bits. *)
Lemma decode_quads_cons (c0 c1 c2 c3 : byte) (r : list byte) :
  0 <= conv_ascii2bin c0 < 64 -> 0 <= conv_ascii2bin c1 < 64 ->
  0 <= conv_ascii2bin c2 < 64 -> 0 <= conv_ascii2bin c3 < 64 ->
  decode_quads (c0 :: c1 :: c2 :: c3 :: r)
  = let l := dec_l (conv_ascii2bin c0) (conv_ascii2bin c1)
                   (conv_ascii2bin c2) (conv_ascii2bin c3) in
    match decode_quads r with
    | Some t => Some (byte_of_Z (Z.land (Z.shiftr l 16) 255)
                        :: byte_of_Z (Z.land (Z.shiftr l 8) 255)
                        :: byte_of_Z (Z.land l 255) :: t)
    | None => None
    end.
Proof.
  intros H0 H1 H2 H3. cbn [decode_quads].
  now rewrite !sextet_high_bit by assumption.
Qed.

Lemma enc_l_low (a b : Z) :
  0 <= a < 256 -> 0 <= b < 256 ->
  Z.land (enc_l a b 0) 63 = 0 /\ Z.land (Z.shiftr (enc_l a 0 0) 6) 63 = 0.
Proof.
  intros Ha Hb. rewrite !enc_l_add by lia.
  rewrite !land_63, Z.shiftr_div_pow2 by lia. change (2 ^ 6) with 64.
  split; Z.to_euclidean_division_equations; lia.
Qed.

Lemma shiftl_enc_l (a b : Z) :
  Z.shiftl a 16 = enc_l a 0 0
  /\ Z.lor (Z.shiftl a 16) (Z.shiftl b 8) = enc_l a b 0.
Proof.
  unfold enc_l. now rewrite Z.shiftl_0_l, !Z.lor_0_r.
Qed.

Lemma conv_ascii2bin_pad : conv_ascii2bin PAD = 0.
Proof. reflexivity. Qed.

(** The group of one, two or three bytes. *)
Lemma decode_group3 (a b c : byte) (r : list byte) :
  decode_quads (EVP_EncodeBlock (a :: b :: c :: r))
  = match decode_quads (EVP_EncodeBlock r) with
    | Some t => Some (a :: b :: c :: t)
    | None => None
    end.
Proof.
  cbn [EVP_EncodeBlock]. cbv zeta.
  pose proof (Z_of_byte_range a) as Ha. pose proof (Z_of_byte_range b) as Hb.
  pose proof (Z_of_byte_range c) as Hc.
  destruct (enc_l_bytes _ _ _ Ha Hb Hc) as (Hl & H16 & H8 & H0).
  rewrite decode_quads_cons
    by (rewrite conv_ascii2bin_bin2ascii; apply sextet_range).
  cbv zeta. rewrite !conv_ascii2bin_bin2ascii.
  rewrite dec_l_sextets by exact Hl.
  rewrite H16, H8, H0, !byte_of_Z_of_byte. reflexivity.
Qed.

Lemma decode_group2 (a b : byte) :
  decode_quads (EVP_EncodeBlock [a; b]) = Some [a; b; "000"%byte].
Proof.
  cbn [EVP_EncodeBlock]. cbv zeta.
  pose proof (Z_of_byte_range a) as Ha. pose proof (Z_of_byte_range b) as Hb.
  rewrite (proj2 (shiftl_enc_l (Z_of_byte a) (Z_of_byte b))).
  destruct (enc_l_bytes (Z_of_byte a) (Z_of_byte b) 0 Ha Hb)
    as (Hl & H16 & H8 & H0); [lia|].
  destruct (enc_l_low _ _ Ha Hb) as [Hlow _].
  rewrite decode_quads_cons; rewrite ?conv_ascii2bin_pad;
    try (rewrite conv_ascii2bin_bin2ascii; apply sextet_range); try lia.
  cbv zeta. rewrite !conv_ascii2bin_bin2ascii.
  pose proof (dec_l_sextets _ Hl) as Hd. rewrite Hlow in Hd. rewrite Hd.
  rewrite H16, H8, H0, !byte_of_Z_of_byte. reflexivity.
Qed.

Lemma decode_group1 (a : byte) :
  decode_quads (EVP_EncodeBlock [a]) = Some [a; "000"%byte; "000"%byte].
Proof.
  cbn [EVP_EncodeBlock]. cbv zeta.
  pose proof (Z_of_byte_range a) as Ha.
  rewrite (proj1 (shiftl_enc_l (Z_of_byte a) 0)).
  destruct (enc_l_bytes (Z_of_byte a) 0 0 Ha) as (Hl & H16 & H8 & H0); [lia|lia|].
  destruct (enc_l_low (Z_of_byte a) 0 Ha) as [Hlow Hlow6]; [lia|].
  rewrite decode_quads_cons; rewrite ?conv_ascii2bin_pad;
    try (rewrite conv_ascii2bin_bin2ascii; apply sextet_range); try lia.
  cbv zeta. rewrite !conv_ascii2bin_bin2ascii.
  pose proof (dec_l_sextets _ Hl) as Hd. rewrite Hlow, Hlow6 in Hd. rewrite Hd.
  rewrite H16, H8, H0, !byte_of_Z_of_byte. reflexivity.
Qed.

Lemma block_count_pads (tmp : list byte) (jj : Z) (dec : option (list byte)) :
  block_count tmp jj dec
  = match dec with Some t => Z.of_nat (length t) | None => -1 end - pads tmp jj.
Proof.
  unfold block_count, pads.
  destruct (2 <? jj); [|lia].
  destruct (Z_of_byte (char_at tmp (jj - 1)) =? 61); [|lia].
  destruct (Z_of_byte (char_at tmp (jj - 2)) =? 61); lia.
Qed.

Lemma list_ind3 {A : Type} (P : list A -> Prop) :
  P [] -> (forall a, P [a]) -> (forall a b, P [a; b]) ->
  (forall a b c r, P r -> P (a :: b :: c :: r)) ->
  forall l, P l.
Proof.
  intros H0 H1 H2 H3 l.
  assert (Hall : P l /\ (forall a, P (a :: l)) /\ (forall a b, P (a :: b :: l))).
  { induction l as [|x l (IH0 & IH1 & IH2)]; [auto|].
    split; [apply IH1|]. split; [intros a; apply IH2|].
    intros a b. apply H3. exact IH0. }
  apply Hall.
Qed.

Lemma char_at_cons4 (c0 c1 c2 c3 : byte) (e : list byte) (j : Z) :
  0 <= j -> char_at (c0 :: c1 :: c2 :: c3 :: e) (4 + j) = char_at e j.
Proof.
  intros Hj. unfold char_at.
  replace (Z.to_nat (4 + j)) with (S (S (S (S (Z.to_nat j))))) by lia.
  reflexivity.
Qed.

Lemma pads_cons4 (c0 c1 c2 c3 : byte) (e : list byte) :
  (4 <= length e)%nat ->
  pads (c0 :: c1 :: c2 :: c3 :: e) (Z.of_nat (length (c0 :: c1 :: c2 :: c3 :: e)))
  = pads e (Z.of_nat (length e)).
Proof.
  intros He. unfold pads. cbn [length].
  replace (2 <? Z.of_nat (S (S (S (S (length e)))))) with true
    by (symmetry; apply Z.ltb_lt; lia).
  replace (2 <? Z.of_nat (length e)) with true
    by (symmetry; apply Z.ltb_lt; lia).
  replace (Z.of_nat (S (S (S (S (length e))))) - 1)
    with (4 + (Z.of_nat (length e) - 1)) by lia.
  replace (Z.of_nat (S (S (S (S (length e))))) - 2)
    with (4 + (Z.of_nat (length e) - 2)) by lia.
  now rewrite !char_at_cons4 by lia.
Qed.

Lemma pads4 (c0 c1 c2 c3 : byte) :
  pads [c0; c1; c2; c3] (Z.of_nat (length [c0; c1; c2; c3]))
  = if Z_of_byte c3 =? 61
    then if Z_of_byte c2 =? 61 then 2 else 1
    else 0.
Proof. reflexivity. Qed.

Lemma npad_cons3 {a b c : byte} (r : list byte) :
  npad (a :: b :: c :: r) = npad r.
Proof.
  unfold npad. cbn [length].
  replace (S (S (S (length r)))) with (length r + 1 * 3)%nat by lia.
  now rewrite Nat.Div0.mod_add.
Qed.

(** What the decoder sees in an encoded block. *)
Lemma EVP_EncodeBlock_facts (bs : list byte) :
  decode_quads (EVP_EncodeBlock bs) = Some (bs ++ repeat "000"%byte (npad bs))
  /\ length (EVP_EncodeBlock bs) = (4 * ((length bs + 2) / 3))%nat
  /\ forallb text_char (EVP_EncodeBlock bs) = true
  /\ pads (EVP_EncodeBlock bs) (Z.of_nat (length (EVP_EncodeBlock bs)))
     = Z.of_nat (npad bs).
Proof.
  induction bs as [|a|a b|a b c r (IHd & IHl & IHt & IHp)] using list_ind3.
  - repeat split.
  - split; [apply decode_group1|]. split; [reflexivity|].
    cbn [EVP_EncodeBlock]. cbv zeta. split.
    + cbn [forallb]. now rewrite !text_char_bin2ascii, text_char_pad.
    + reflexivity.
  - split; [apply decode_group2|]. split; [reflexivity|].
    cbn [EVP_EncodeBlock]. cbv zeta. split.
    + cbn [forallb]. now rewrite !text_char_bin2ascii, text_char_pad.
    + rewrite pads4. change (Z_of_byte PAD =? 61) with true. cbv iota.
      pose proof (conv_bin2ascii_not_pad
                    (Z.shiftr (Z.lor (Z.shiftl (Z_of_byte a) 16)
                                 (Z.shiftl (Z_of_byte b) 8)) 6)) as Hne.
      apply Z.eqb_neq in Hne. rewrite Hne. reflexivity.
  - split; [|split; [|split]].
    + rewrite decode_group3, IHd. rewrite npad_cons3. reflexivity.
    + cbn [EVP_EncodeBlock]. cbv zeta. cbn [length]. rewrite IHl.
      replace (S (S (S (length r))) + 2)%nat with (length r + 2 + 1 * 3)%nat
        by lia.
      rewrite Nat.div_add by lia. lia.
    + cbn [EVP_EncodeBlock]. cbv zeta. cbn [forallb].
      now rewrite !text_char_bin2ascii, IHt.
    + rewrite npad_cons3, <- IHp. cbn [EVP_EncodeBlock]. cbv zeta.
      destruct r as [|x r].
      * cbn [EVP_EncodeBlock]. rewrite pads4.
        pose proof (conv_bin2ascii_not_pad
                      (enc_l (Z_of_byte a) (Z_of_byte b) (Z_of_byte c))) as Hne.
        apply Z.eqb_neq in Hne. rewrite Hne. reflexivity.
      * apply pads_cons4. rewrite IHl. cbn [length].
        assert (1 <= (S (length r) + 2) / 3)%nat
          by (apply Nat.div_le_lower_bound; lia).
        lia.
Qed.

Lemma forallb_last {A : Type} (P : A -> bool) (e : list A) (d : A) :
  forallb P e = true -> e <> [] -> P (last e d) = true.
Proof.
  induction e as [|x e IH]; intros Hall Hne; [contradiction|].
  cbn [forallb] in Hall. apply andb_true_iff in Hall. destruct Hall as [Hx He].
  destruct e as [|y e]; [exact Hx|].
  change (last (x :: y :: e) d) with (last (y :: e) d).
  apply IH; [exact He | discriminate].
Qed.

Lemma trim_start_text (e : list byte) :
  forallb text_char e = true -> trim_start e = e.
Proof.
  destruct e as [|c e]; [reflexivity|]. cbn [forallb trim_start].
  unfold text_char. rewrite !andb_true_iff, !negb_true_iff.
  intros [[[_ Hws] _] _]. now rewrite Hws.
Qed.

Lemma strip_end_text (fuel : nat) (e : list byte) :
  forallb text_char e = true -> strip_end fuel e = e.
Proof.
  intros Hall. destruct fuel as [|fuel]; [reflexivity|].
  cbn [strip_end]. destruct e as [|c e]; [reflexivity|].
  pose proof (forallb_last text_char (c :: e) "000"%byte Hall) as Hlast.
  unfold text_char in Hlast at 1.
  rewrite !andb_true_iff, !negb_true_iff in Hlast.
  destruct Hlast as [_ Hnb]; [discriminate|].
  rewrite Hnb. now rewrite andb_false_r.
Qed.

Lemma EVP_DecodeBlock_encoded (bs : list byte) :
  EVP_DecodeBlock (EVP_EncodeBlock bs)
  = Some (bs ++ repeat "000"%byte (npad bs)).
Proof.
  destruct (EVP_EncodeBlock_facts bs) as (Hd & Hl & Ht & _).
  unfold EVP_DecodeBlock.
  rewrite (trim_start_text _ Ht), (strip_end_text _ _ Ht), Hl.
  replace (Z.of_nat (4 * ((length bs + 2) / 3)) mod 4 =? 0) with true.
  - exact Hd.
  - symmetry. apply Z.eqb_eq. rewrite Nat2Z.inj_mul, Z.mul_comm.
    apply Z.mod_mul. lia.
Qed.

Lemma pads_app (e suffix : list byte) :
  pads (e ++ suffix) (Z.of_nat (length e)) = pads e (Z.of_nat (length e)).
Proof.
  unfold pads. destruct (2 <? Z.of_nat (length e)) eqn:Hlen; [|reflexivity].
  apply Z.ltb_lt in Hlen. unfold char_at.
  now rewrite !app_nth1 by lia.
Qed.

Lemma encoded_length_pos (bs : list byte) :
  bs <> [] -> (4 <= length (EVP_EncodeBlock bs))%nat.
Proof.
  intros Hne. destruct (EVP_EncodeBlock_facts bs) as (_ & Hl & _). rewrite Hl.
  destruct bs as [|x r]; [contradiction|]. cbn [length].
  assert (1 <= (S (length r) + 2) / 3)%nat
    by (apply Nat.div_le_lower_bound; lia).
  lia.
Qed.

Lemma encoded_jj (bs suffix : list byte) :
  (length suffix < 4)%nat ->
  Z.land (Z.of_nat (length (EVP_EncodeBlock bs ++ suffix))) (Z.lnot 3)
  = Z.of_nat (length (EVP_EncodeBlock bs)).
Proof.
  intros Hshort. destruct (EVP_EncodeBlock_facts bs) as (_ & Hl & _).
  rewrite land_lnot_3, length_app, Hl.
  rewrite Nat2Z.inj_add, Nat2Z.inj_mul.
  Z.to_euclidean_division_equations; lia.
Qed.

(** The round of [b64_read] that finds the encoded block, and at most
    three more characters, in the memory BIO. *)
Lemma b64_read_round_encoded (bs suffix : list byte) (outl : Z)
    (out : list byte) (ret_code : Z) :
  bs <> [] ->
  (length (EVP_EncodeBlock bs) + length suffix <= 1024)%nat ->
  (length suffix < 4)%nat ->
  b64_read_round (EVP_EncodeBlock bs ++ suffix) [] outl out ret_code
  = Next [] suffix (Z.of_nat (length bs))
      (outl - Z.min (Z.of_nat (length bs)) outl)
      (out ++ firstn (Z.to_nat (Z.min (Z.of_nat (length bs)) outl)) bs)
      ret_code.
Proof.
  intros Hne Hfits Hshort.
  pose proof (encoded_length_pos bs Hne) as Hpos.
  destruct (EVP_EncodeBlock_facts bs) as (_ & _ & _ & Hp).
  unfold b64_read_round. cbn [length Z.of_nat app].
  change (Z.to_nat (B64_BLOCK_SIZE - 0)) with 1024%nat.
  rewrite firstn_all2 by (rewrite length_app; lia).
  rewrite skipn_all2 by (rewrite length_app; lia).
  replace (Z.of_nat (length (EVP_EncodeBlock bs ++ suffix)) <=? 0) with false
    by (symmetry; apply Z.leb_gt; rewrite length_app; lia).
  cbn [andb]. rewrite encoded_jj, Nat2Z.id by assumption.
  rewrite firstn_length_app, skipn_length_app, EVP_DecodeBlock_encoded.
  rewrite block_count_pads, pads_app, Hp, length_app, repeat_length.
  replace (Z.of_nat (length bs + npad bs) - Z.of_nat (npad bs))
    with (Z.of_nat (length bs)) by lia.
  rewrite Nat2Z.id, firstn_length_app.
  replace (Z.of_nat (length bs) <? 0) with false
    by (symmetry; apply Z.ltb_ge; lia).
  f_equal. destruct suffix as [|c r]; [now destruct (_ =? _)|].
  replace (Z.of_nat (length (EVP_EncodeBlock bs))
           =? Z.of_nat (length (EVP_EncodeBlock bs ++ c :: r))) with false
    by (symmetry; apply Z.eqb_neq; rewrite length_app; cbn [length]; lia).
  reflexivity.
Qed.

Lemma c_string_nonzero (s : list byte) :
  forallb nonzero s = true -> c_string s = s.
Proof.
  induction s as [|c s IH]; [reflexivity|]. cbn [forallb c_string].
  rewrite andb_true_iff. unfold nonzero at 1. rewrite negb_true_iff.
  intros [Hc Hs]. rewrite Hc. now rewrite IH.
Qed.

Lemma nonzero_encoded (bs : list byte) :
  forallb nonzero (EVP_EncodeBlock bs) = true.
Proof.
  destruct (EVP_EncodeBlock_facts bs) as (_ & _ & Ht & _).
  rewrite forallb_forall in *. intros c Hc. specialize (Ht c Hc).
  unfold text_char in Ht. rewrite !andb_true_iff in Ht. apply Ht.
Qed.

Lemma encoded_length_bound (bs : list byte) :
  (length bs <= 768)%nat -> (length (EVP_EncodeBlock bs) <= 1024)%nat.
Proof.
  intros Hbs. destruct (EVP_EncodeBlock_facts bs) as (_ & Hl & _). rewrite Hl.
  assert ((length bs + 2) / 3 < 257)%nat
    by (apply Nat.Div0.div_lt_upper_bound; lia).
  lia.
Qed.

Lemma b64_read_round_eof (outl : Z) (out : list byte) (ret_code : Z) :
  b64_read_round [] [] outl out ret_code = Break out 0.
Proof. reflexivity. Qed.

(** Reading a one-line base64 text of at most one block: the filter
    delivers the first [outl] bytes of the data. *)
Lemma BIO_read_encoded (bs : list byte) (outl : Z) :
  (length bs <= 768)%nat -> 0 <= outl ->
  BIO_read (EVP_EncodeBlock bs) outl
  = (Z.min (Z.of_nat (length bs)) outl, firstn (Z.to_nat outl) bs).
Proof.
  intros Hbs Houtl. unfold BIO_read.
  rewrite (c_string_nonzero _ (nonzero_encoded bs)).
  destruct (Z.eq_dec outl 0) as [->|Hout].
  { cbn [b64_read_loop Z.leb Z.compare length Z.of_nat Z.eqb Z.to_nat firstn].
    f_equal. lia. }
  cbn [b64_read_loop].
  replace (outl <=? 0) with false by (symmetry; apply Z.leb_gt; lia).
  cbn [Z.leb Z.compare].
  destruct bs as [|x r] eqn:Hbs_eq.
  { cbn [EVP_EncodeBlock]. rewrite b64_read_round_eof. cbn [length Z.of_nat Z.eqb].
    rewrite firstn_nil. f_equal. lia. }
  rewrite <- Hbs_eq in *.
  assert (Hne : bs <> []) by (rewrite Hbs_eq; discriminate).
  pose proof (fun o u r => b64_read_round_encoded bs [] o u r Hne) as Hround.
  rewrite app_nil_r in Hround. rewrite Hround
    by (cbn [length]; pose proof (encoded_length_bound bs Hbs); lia).
  clear Hround. cbn [app].
  pose proof (encoded_length_pos bs Hne) as Hpos.
  destruct (Z.le_gt_cases outl (Z.of_nat (length bs))) as [Hle|Hgt].
  - rewrite Z.min_r by lia. rewrite Z.sub_diag.
    destruct (length (EVP_EncodeBlock bs)); cbn [b64_read_loop Z.leb Z.compare];
      (rewrite length_firstn;
       replace (Z.of_nat (Nat.min (Z.to_nat outl) (length bs)) =? 0) with false
         by (symmetry; apply Z.eqb_neq; lia);
       f_equal; lia).
  - rewrite Z.min_l by lia. rewrite Nat2Z.id, firstn_all.
    destruct (length (EVP_EncodeBlock bs)) as [|n]; [lia|].
    cbn [b64_read_loop].
    replace (outl - Z.of_nat (length bs) <=? 0) with false
      by (symmetry; apply Z.leb_gt; lia).
    replace (Z.of_nat (length bs) <=? 0) with false
      by (symmetry; apply Z.leb_gt; rewrite Hbs_eq; cbn [length]; lia).
    rewrite b64_read_round_eof.
    replace (Z.of_nat (length bs) =? 0) with false
      by (symmetry; apply Z.eqb_neq; rewrite Hbs_eq; cbn [length]; lia).
    rewrite firstn_all2 by lia. reflexivity.
Qed.

(** The same text followed by up to three more characters, a newline
    for one: the first [outl <= length bs] bytes are delivered. *)
Lemma BIO_read_encoded_line (bs suffix : list byte) (outl : Z) :
  forallb nonzero suffix = true ->
  (length (EVP_EncodeBlock bs) + length suffix <= 1024)%nat ->
  (length suffix < 4)%nat ->
  0 < outl <= Z.of_nat (length bs) ->
  BIO_read (EVP_EncodeBlock bs ++ suffix) outl
  = (outl, firstn (Z.to_nat outl) bs).
Proof.
  intros Hnz Hfits Hshort Houtl. unfold BIO_read.
  rewrite c_string_nonzero
    by (rewrite forallb_app, nonzero_encoded, Hnz; reflexivity).
  assert (Hne : bs <> []) by (destruct bs; [cbn in Houtl; lia | discriminate]).
  cbn [b64_read_loop].
  replace (outl <=? 0) with false by (symmetry; apply Z.leb_gt; lia).
  cbn [Z.leb Z.compare].
  rewrite (b64_read_round_encoded bs suffix _ _ _ Hne Hfits Hshort).
  rewrite Z.min_r by lia. rewrite Z.sub_diag. cbn [app].
  destruct (length (EVP_EncodeBlock bs ++ suffix));
    cbn [b64_read_loop Z.leb Z.compare];
    (rewrite length_firstn;
     replace (Z.of_nat (Nat.min (Z.to_nat outl) (length bs)) =? 0) with false
       by (symmetry; apply Z.eqb_neq; lia);
     f_equal; lia).
Qed.

(** ** The rounds of [b64_read] end

    A round takes characters from the memory BIO as long as it holds
    any; at its end one more round gives nothing and the loop stops.
    The fuel [BIO_read] gives the loop is therefore never used up. *)

Lemma b64_read_round_next (src tmp : list byte) (outl : Z) (out : list byte)
    (ret_code : Z) src' tmp' cont' outl' out' ret_code' :
  (length tmp < 4)%nat ->
  b64_read_round src tmp outl out ret_code
  = Next src' tmp' cont' outl' out' ret_code' ->
  (length tmp' < 4)%nat
  /\ (src <> [] -> (length src' < length src)%nat)
  /\ (src = [] -> src' = [] /\ cont' <= 0).
Proof.
  intros Htmp. unfold b64_read_round. cbv zeta.
  set (want := Z.to_nat (B64_BLOCK_SIZE - Z.of_nat (length tmp))).
  assert (Hwant : (1021 <= want)%nat) by (unfold want, B64_BLOCK_SIZE; lia).
  set (tmp2 := tmp ++ firstn want src).
  set (jj := Z.land (Z.of_nat (length tmp2)) (Z.lnot 3)).
  assert (Hjj : jj = 4 * (Z.of_nat (length tmp2) / 4))
    by (unfold jj; apply land_lnot_3).
  destruct (_ && _) eqn:Heof; [discriminate|].
  destruct (block_count tmp2 jj _ <? 0) eqn:Hz; [discriminate|].
  intros [= <- <- <- _ _ _].
  split; [|split].
  - destruct (jj =? Z.of_nat (length tmp2)); [cbn [length]; lia|].
    rewrite length_skipn.
    assert (Z.of_nat (length tmp2) < jj + 4)
      by (rewrite Hjj; Z.to_euclidean_division_equations; lia).
    lia.
  - intros Hne. rewrite length_skipn.
    assert (0 < length src)%nat
      by (destruct src; [contradiction | cbn [length]; lia]).
    lia.
  - intros ->. rewrite skipn_nil. split; [reflexivity|].
    assert (Htmp2 : tmp2 = tmp)
      by (unfold tmp2; rewrite firstn_nil; apply app_nil_r).
    assert (Hjj0 : jj = 0)
      by (rewrite Hjj, Htmp2; Z.to_euclidean_division_equations; lia).
    rewrite Hjj0. change (Z.to_nat 0) with 0%nat. cbn [firstn].
    change (EVP_DecodeBlock []) with (Some (@nil byte)).
    unfold block_count. change (2 <? 0) with false.
    cbn [length Z.of_nat]. lia.
Qed.

Lemma b64_read_loop_stopped (fuel fuel' : nat) (src tmp : list byte)
    (cont outl : Z) (out : list byte) (ret_code : Z) :
  cont <= 0 ->
  b64_read_loop fuel src tmp cont outl out ret_code
  = b64_read_loop fuel' src tmp cont outl out ret_code.
Proof.
  intros Hcont.
  destruct fuel, fuel'; cbn [b64_read_loop]; destruct (outl <=? 0);
    try reflexivity;
    (replace (cont <=? 0) with true by (symmetry; apply Z.leb_le; lia));
    reflexivity.
Qed.

Lemma b64_read_loop_fuel (fuel : nat) :
  forall src tmp cont outl out ret_code,
    (length tmp < 4)%nat -> (length src < fuel)%nat ->
    b64_read_loop (S fuel) src tmp cont outl out ret_code
    = b64_read_loop fuel src tmp cont outl out ret_code.
Proof.
  induction fuel as [|fuel IH]; intros src tmp cont outl out ret_code Htmp Hfuel;
    [lia|].
  cbn [b64_read_loop].
  destruct (outl <=? 0); [reflexivity|].
  destruct (cont <=? 0); [reflexivity|].
  destruct (b64_read_round src tmp outl out ret_code)
    as [o r|src' tmp' cont' outl' out' rc'] eqn:Hround; [reflexivity|].
  destruct (b64_read_round_next _ _ _ _ _ _ _ _ _ _ _ Htmp Hround)
    as (Htmp' & Hsrc & Hend).
  destruct src as [|c src].
  - destruct (Hend eq_refl) as [-> Hcont].
    apply (b64_read_loop_stopped (S fuel) fuel). exact Hcont.
  - apply IH; [exact Htmp'|].
    assert (length src' < length (c :: src))%nat by (apply Hsrc; discriminate).
    lia.
Qed.

(** More fuel than [BIO_read] gives does not change what is read. *)
Lemma BIO_read_fuel (str : list byte) (outl : Z) (extra : nat) :
  b64_read_loop (extra + S (S (length (c_string str)))) (c_string str) [] 1
    outl [] 0
  = b64_read_loop (S (S (length (c_string str)))) (c_string str) [] 1 outl [] 0.
Proof.
  induction extra as [|extra IH]; [reflexivity|].
  cbn [Nat.add]. rewrite b64_read_loop_fuel; [exact IH | cbn; lia | lia].
Qed.

(** Whatever the text, the filter delivers at most [outl] bytes. *)
Lemma b64_read_loop_length (fuel : nat) :
  forall src tmp cont outl out ret_code,
    Z.of_nat (length (fst (b64_read_loop fuel src tmp cont outl out ret_code)))
    <= Z.of_nat (length out) + Z.max outl 0.
Proof.
  induction fuel as [|fuel IH]; intros src tmp cont outl out ret_code;
    cbn [b64_read_loop];
    destruct (outl <=? 0) eqn:Houtl; cbn [fst]; try lia;
    destruct (cont <=? 0); cbn [fst]; try lia.
  apply Z.leb_gt in Houtl.
  unfold b64_read_round. cbv zeta.
  destruct (_ && _); cbn [fst]; [lia|].
  destruct (_ <? 0); cbn [fst]; [lia|].
  match goal with
  | |- context [b64_read_loop fuel ?s ?t ?c ?o ?u ?r] =>
      specialize (IH s t c o u r); revert IH;
      generalize (b64_read_loop fuel s t c o u r)
  end.
  intros res IH. rewrite length_app, length_firstn in IH. lia.
Qed.

Lemma BIO_read_length (s : list byte) (outl : Z) :
  0 <= outl -> Z.of_nat (length (snd (BIO_read s outl))) <= outl.
Proof.
  intros Houtl. unfold BIO_read.
  pose proof (b64_read_loop_length (S (S (length (c_string s)))) (c_string s)
                [] 1 outl [] 0) as Hlen.
  destruct (b64_read_loop _ _ _ _ _ _ _) as [out rc].
  cbn [fst length Z.of_nat] in Hlen. cbn [snd]. lia.
Qed.

(** ** [base64_decode] *)

(** A round does not look at the bytes delivered before it: it leaves
    them as they are or puts its own behind them. *)
Lemma b64_read_round_out (src tmp : list byte) (outl : Z) (out : list byte)
    (ret_code : Z) :
  match b64_read_round src tmp outl out ret_code,
        b64_read_round src tmp outl [] 0 with
  | Break o _, Break _ _ => o = out
  | Next s t c u o _, Next s' t' c' u' copied _ =>
      s = s' /\ t = t' /\ c = c' /\ u = u' /\ o = out ++ copied
  | _, _ => False
  end.
Proof.
  unfold b64_read_round. cbv zeta.
  destruct (_ && _); [reflexivity|].
  destruct (_ <? 0); [reflexivity|].
  repeat split.
Qed.

(** The bytes the loop delivers are the copies of its rounds, in
    order. *)
Lemma b64_read_copies_concat (fuel : nat) :
  forall src tmp cont outl out ret_code,
    fst (b64_read_loop fuel src tmp cont outl out ret_code)
    = out ++ concat (b64_read_copies fuel src tmp cont outl).
Proof.
  induction fuel as [|fuel IH]; intros src tmp cont outl out ret_code;
    cbn [b64_read_loop b64_read_copies];
    destruct (outl <=? 0); cbn [fst concat]; try (now rewrite app_nil_r);
    destruct (cont <=? 0); cbn [fst concat]; try (now rewrite app_nil_r).
  pose proof (b64_read_round_out src tmp outl out ret_code) as Hround.
  destruct (b64_read_round src tmp outl out ret_code) as [o r|s t c u o r];
    destruct (b64_read_round src tmp outl [] 0) as [o' r'|s' t' c' u' o' r'];
    try contradiction.
  - subst o. cbn [fst concat]. now rewrite app_nil_r.
  - destruct Hround as (-> & -> & -> & -> & ->).
    rewrite IH. cbn [concat]. now rewrite app_assoc.
Qed.

Lemma BIO_read_copies_concat (str : list byte) (outl : Z) :
  concat (BIO_read_copies str outl) = snd (BIO_read str outl).
Proof.
  unfold BIO_read, BIO_read_copies. cbv zeta.
  pose proof (b64_read_copies_concat (S (S (length (c_string str))))
                (c_string str) [] 1 outl [] 0) as Hc.
  destruct (b64_read_loop _ _ _ _ _ _ _) as [out rc].
  cbn [fst app snd] in *. now symmetry.
Qed.

(** Copies that fit the buffer are stored one behind the other. *)
Lemma copy_out_ok (copies : list (list byte)) :
  forall (buf : block) (off : nat),
    (off + length (concat copies) <= length buf)%nat ->
    copy_out (Some buf) (Z.of_nat off) copies
    = (copy_events (Z.of_nat off) copies,
       Some (Some (firstn off buf ++ concat copies
                     ++ skipn (off + length (concat copies)) buf))).
Proof.
  induction copies as [|c rest IH]; intros buf off Hfit.
  - cbn [copy_out copy_events concat app length ret].
    rewrite Nat.add_0_r. now rewrite firstn_skipn.
  - cbn [concat] in Hfit. rewrite length_app in Hfit.
    cbn [copy_out copy_events concat].
    destruct c as [|x c].
    + cbn [bind ret length Z.of_nat app]. rewrite Z.add_0_r.
      rewrite IH by (cbn [length app] in *; lia). reflexivity.
    + rewrite store_ok by (apply in_bounds_true; lia).
      cbn [bind]. rewrite Nat2Z.id.
      replace (Z.to_nat (Z.of_nat off + Z.of_nat (length (x :: c))))
        with (off + length (x :: c))%nat by lia.
      replace (Z.of_nat off + Z.of_nat (length (x :: c)))
        with (Z.of_nat (off + length (x :: c))) by lia.
      set (new := firstn off buf ++ (x :: c)
                    ++ skipn (off + length (x :: c)) buf).
      assert (Hnew : length new = length buf).
      { unfold new. rewrite !length_app, length_firstn, length_skipn. lia. }
      rewrite (IH new) by lia.
      f_equal. f_equal. f_equal.
      assert (Hpre : firstn (off + length (x :: c)) new
                     = firstn off buf ++ (x :: c)).
      { unfold new. rewrite app_assoc.
        rewrite firstn_app.
        replace (off + length (x :: c)
                 - length (firstn off buf ++ x :: c))%nat with 0%nat
          by (rewrite length_app, length_firstn; lia).
        rewrite firstn_all2 by (rewrite length_app, length_firstn; lia).
        cbn [firstn]. now rewrite app_nil_r. }
      assert (Hpost : skipn (off + length (x :: c) + length (concat rest)) new
                      = skipn (off + length ((x :: c) ++ concat rest)) buf).
      { unfold new. rewrite app_assoc, skipn_app.
        rewrite skipn_all2 by (rewrite length_app, length_firstn; lia).
        rewrite length_app, length_firstn, Nat.min_l by lia.
        cbn [app]. rewrite skipn_skipn. f_equal.
        change (x :: c ++ concat rest) with ((x :: c) ++ concat rest).
        rewrite length_app. lia. }
      rewrite Hpre, Hpost. now rewrite <- !app_assoc.
Qed.

Lemma printed_copy_events (f : stream) (copies : list (list byte)) :
  forall off, printed f (copy_events off copies) = [].
Proof.
  induction copies as [|c rest IH]; intros off; [reflexivity|].
  cbn [copy_events]. destruct c; cbn [app printed]; apply IH.
Qed.

(** The run of [base64_decode]: the block is allocated and the bytes the
    filter delivers are stored in it, round by round, from its start. *)
Lemma base64_decode_run (garbage str : list byte) (explen : Z) :
  0 <= explen <= PTRDIFF_MAX ->
  base64_decode garbage str explen
  = (decode_trace str explen, Some (Some (decoded garbage str explen))).
Proof.
  intros Hexp. unfold PTRDIFF_MAX in Hexp.
  pose proof (BIO_read_length str explen (proj1 Hexp)) as Hlen.
  rewrite <- BIO_read_copies_concat in Hlen.
  unfold base64_decode, malloc, decoded, decode_trace.
  rewrite <- BIO_read_copies_concat.
  rewrite to_size_t_small by (unfold INT_MAX; lia).
  replace (explen <=? PTRDIFF_MAX) with true
    by (symmetry; apply Z.leb_le; unfold PTRDIFF_MAX; lia).
  cbn [bind emit ret app].
  change 0 with (Z.of_nat 0).
  rewrite copy_out_ok by (rewrite length_resize; lia).
  cbn [firstn app Nat.add]. reflexivity.
Qed.

Lemma base64_decode_spec (garbage str : list byte) (explen : Z) :
  0 <= explen <= PTRDIFF_MAX ->
  exists t,
    base64_decode garbage str explen
    = (t, Some (Some (decoded garbage str explen)))
    /\ Z.of_nat (length (decoded garbage str explen)) = explen
    /\ (forall f, printed f t = []).
Proof.
  intros Hexp. exists (decode_trace str explen).
  split; [now apply base64_decode_run|].
  pose proof (BIO_read_length str explen (proj1 Hexp)) as Hlen.
  split.
  - unfold decoded. rewrite length_app, length_skipn, length_resize.
    unfold PTRDIFF_MAX in Hexp. lia.
  - intros f. unfold decode_trace. cbn [printed]. apply printed_copy_events.
Qed.

(** Decoding the one-line base64 text of [bs]. *)
Lemma decoded_encoded (garbage bs : list byte) (explen : Z) :
  (length bs <= 768)%nat -> 0 <= explen ->
  decoded garbage (EVP_EncodeBlock bs) explen
  = firstn (Z.to_nat explen) bs
      ++ skipn (length bs) (resize (Z.to_nat explen) garbage).
Proof.
  intros Hbs Hexp. unfold decoded. rewrite BIO_read_encoded by assumption.
  cbn [snd]. f_equal. rewrite length_firstn.
  destruct (Nat.le_gt_cases (Z.to_nat explen) (length bs)) as [Hle|Hgt].
  - rewrite Nat.min_l by lia.
    rewrite !skipn_all2 by (rewrite length_resize; lia). reflexivity.
  - rewrite Nat.min_r by lia. reflexivity.
Qed.

(** * The claims on the codec *)

(** C3 (as amended).  [base64_decode] has no failure: for every text and
    every expected length it returns a buffer of exactly [explen] bytes,
    which holds the bytes the base64 filter delivered, at most [explen]
    of them, followed by what the block held before.  For the one-line
    base64 text of [bs] the buffer holds the first [explen] bytes of
    [bs], and behind them, when [bs] is shorter, the old content of the
    block: a text that decodes to fewer bytes than expected is accepted,
    not rejected. *)
Theorem base64_decode_never_fails (garbage str : list byte) (explen : Z) :
  0 <= explen <= PTRDIFF_MAX ->
  exists t buf,
    base64_decode garbage str explen = (t, Some (Some buf))
    /\ Z.of_nat (length buf) = explen
    /\ buf = decoded garbage str explen
    /\ Z.of_nat (length (snd (BIO_read str explen))) <= explen
    /\ (forall bs, (length bs <= 768)%nat -> str = EVP_EncodeBlock bs ->
          buf = firstn (Z.to_nat explen) bs
                  ++ skipn (length bs) (resize (Z.to_nat explen) garbage)).
Proof.
  intros Hexp.
  destruct (base64_decode_spec garbage str explen Hexp) as (t & Hrun & Hlen & _).
  exists t, (decoded garbage str explen).
  split; [exact Hrun|]. split; [exact Hlen|]. split; [reflexivity|].
  split; [apply BIO_read_length; lia|].
  intros bs Hbs ->. apply decoded_encoded; lia.
Qed.

Lemma base64_decode_never_fails_witness :
  exists t,
    base64_decode (junk 32) (EVP_EncodeBlock digest16) 32
    = (t, Some (Some (digest16 ++ junk 16))).
Proof.
  destruct (base64_decode_never_fails (junk 32) (EVP_EncodeBlock digest16) 32)
    as (t & buf & Hrun & _ & _ & _ & Hbuf).
  - vm_compute. split; discriminate.
  - exists t. rewrite Hrun. rewrite (Hbuf digest16); [reflexivity | | reflexivity].
    vm_compute. lia.
Defined.

(** C3, the claim as stated, fails: a text that decodes to 16 bytes is
    decoded at expected length 32 into a buffer, without any failure,
    and so is a text with a character outside the alphabet. *)
Lemma base64_decode_accepts_bad_input :
  fst (BIO_read (EVP_EncodeBlock digest16) 32) = 16
  /\ snd (base64_decode (junk 32) (EVP_EncodeBlock digest16) 32)
     = Some (Some (digest16 ++ junk 16))
  /\ existsb (fun c => conv_ascii2bin c =? B64_ERROR) (text "A*AA") = true
  /\ snd (base64_decode (junk 3) (text "A*AA") 3) = Some (Some (junk 3)).
Proof. vm_compute. repeat split. Qed.

(** * Printing *)

Lemma printed_app (f : stream) (t1 t2 : list event) :
  printed f (t1 ++ t2) = printed f t1 ++ printed f t2.
Proof.
  induction t1 as [|e t1 IH]; [reflexivity|].
  destruct e; cbn [app printed]; try exact IH.
  destruct (same_stream f f0); [|exact IH].
  now rewrite IH, app_assoc.
Qed.

Lemma same_stream_refl (f : stream) : same_stream f f = true.
Proof. now destruct f. Qed.

Lemma printed_BIO_write_next (f : stream) (buf : list byte) :
  BIO_write_next f buf
  = (fst (BIO_write_next f buf), Some tt)
  /\ printed f (fst (BIO_write_next f buf)) = buf
  /\ (forall g, same_stream g f = false ->
                printed g (fst (BIO_write_next f buf)) = []).
Proof.
  destruct buf as [|c buf]; [repeat split|].
  cbn [BIO_write_next emit fst printed]. rewrite same_stream_refl.
  split; [reflexivity|]. split; [apply app_nil_r|].
  intros g Hg. now rewrite Hg.
Qed.

Lemma EVP_EncodeUpdate_init (e : list byte) :
  e <> [] ->
  EVP_EncodeUpdate EVP_EncodeInit e
  = ({| enc_data := snd (encode_lines (length e) e) |},
     fst (encode_lines (length e) e)).
Proof.
  intros Hne. unfold EVP_EncodeUpdate, EVP_EncodeInit, EVP_ENCODE_CTX_num.
  cbn [enc_data length Z.of_nat app].
  replace (Z.of_nat (length e) <=? 0) with false
    by (symmetry; apply Z.leb_gt; destruct e; [contradiction | cbn [length]; lia]).
  rewrite Z.sub_0_r.
  destruct (Z.of_nat (length e) <? EVP_ENCODE_LENGTH) eqn:Hlt.
  - apply Z.ltb_lt in Hlt.
    destruct (length e) as [|n] eqn:Hlen; cbn [encode_lines];
      rewrite <- ?Hlen;
      (replace (EVP_ENCODE_LENGTH <=? Z.of_nat (length e)) with false
         by (symmetry; apply Z.leb_gt; lia));
      reflexivity.
  - cbn [Z.eqb]. destruct (encode_lines (length e) e). reflexivity.
Qed.

Lemma b64_write_nil (fuel : nat) (b : BIO) : b64_write fuel b [] = ret b.
Proof. now destruct fuel. Qed.

Lemma b64_write_block (fuel : nat) (b : BIO) (inp : list byte) :
  inp <> [] -> Z.of_nat (length inp) <= B64_BLOCK_SIZE ->
  b64_write (S fuel) b inp
  = let (ctx, buf) := EVP_EncodeUpdate (base64 b) inp in
    BIO_write_next (next_fp b) buf ;;;
    ret {| base64 := ctx; next_fp := next_fp b |}.
Proof.
  intros Hne Hlen. destruct inp as [|c r]; [contradiction|].
  cbn [b64_write]. rewrite Z.min_l by lia.
  rewrite Nat2Z.id, firstn_all, skipn_all.
  destruct (EVP_EncodeUpdate (base64 b) (c :: r)) as [ctx buf].
  now rewrite b64_write_nil.
Qed.

(** One digest written through the filter and flushed: the filter is
    empty again and the stream has received the wrapped text. *)
Lemma BIO_write_flush (f : stream) (blk : block) (off d : Z) :
  in_bounds blk off d = true -> 1 <= d <= B64_BLOCK_SIZE ->
  exists t,
    bind (BIO_write (BIO_new_b64_fp f) (Some blk) off d) BIO_flush
    = (t, Some (BIO_new_b64_fp f))
    /\ printed f t = wrap64 (slice blk off d)
    /\ (forall g, same_stream g f = false -> printed g t = []).
Proof.
  intros Hb Hd. unfold BIO_write.
  replace (d <=? 0) with false by (symmetry; apply Z.leb_gt; lia).
  rewrite (load_ok blk off d Hb). cbn [bind ret app].
  pose proof (length_slice blk off d Hb) as Hlen.
  set (e := slice blk off d) in *.
  assert (Hne : e <> []) by (destruct e; [cbn in Hlen; lia | discriminate]).
  assert (Hfuel : exists n, length e = S n)
    by (destruct e; [contradiction | eexists; reflexivity]).
  destruct Hfuel as [n Hn]. rewrite Hn.
  rewrite (b64_write_block n _ e Hne) by lia.
  cbn [base64 next_fp BIO_new_b64_fp]. rewrite (EVP_EncodeUpdate_init e Hne).
  unfold wrap64.
  destruct (encode_lines (length e) e) as [lines rest]. cbn [fst snd].
  destruct (printed_BIO_write_next f lines) as (Hw & Hp & Hq). rewrite Hw.
  cbn [bind ret].
  unfold BIO_flush, EVP_EncodeFinal, EVP_ENCODE_CTX_num.
  cbn [base64 next_fp enc_data].
  destruct rest as [|x rest].
  - cbn [length Z.of_nat Z.eqb ret]. eexists. split; [reflexivity|].
    rewrite !app_nil_r. split; [exact Hp|].
    intros g Hg. cbn [printed]. now apply Hq.
  - replace (Z.of_nat (length (x :: rest)) =? 0) with false
      by (symmetry; apply Z.eqb_neq; cbn [length]; lia).
    remember (EVP_EncodeBlock (x :: rest) ++ [NL]) as last_line eqn:Hlast.
    destruct last_line as [|y l];
      [destruct (EVP_EncodeBlock (x :: rest)); discriminate|].
    cbn [BIO_write_next app emit bind ret].
    eexists. split; [reflexivity|].
    cbn [printed]. rewrite !app_nil_r. split.
    + rewrite printed_app, Hp.
      cbn [printed]. now rewrite same_stream_refl, app_nil_r.
    + intros g Hg. rewrite printed_app, (Hq g Hg).
      cbn [printed]. now rewrite Hg.
Qed.

Lemma bind_assoc {A B C : Type} (m : M A) (f : A -> M B) (g : B -> M C) :
  bind (bind m f) g = bind m (fun x => bind (f x) g).
Proof.
  destruct m as [t [a|]]; [|reflexivity]. cbn [bind].
  destruct (f a) as [t' [b|]]; cbn [bind]; [|reflexivity].
  destruct (g b) as [t'' r]. now rewrite app_assoc.
Qed.

Lemma skipn_nth_cons {A : Type} (l : list A) (i : nat) (d : A) :
  (i < length l)%nat -> skipn i l = nth i l d :: skipn (S i) l.
Proof.
  revert i. induction l as [|x l IH]; intros i Hi; [cbn in Hi; lia|].
  destruct i as [|i]; [reflexivity|].
  cbn [skipn nth]. apply IH. cbn in Hi. lia.
Qed.

Lemma length_concat_uniform {A : Type} (l : list (list A)) (dn : nat) :
  Forall (fun e => length e = dn) l -> length (concat l) = (length l * dn)%nat.
Proof.
  induction 1 as [|e l He Hall IH]; [reflexivity|].
  cbn [concat length]. rewrite length_app, IH, He. lia.
Qed.

(** The loop of [hash_chain_print] over a chain of digests of at most
    [B64_BLOCK_SIZE] bytes: from element [i] on, each digest is printed
    as its wrapped text. *)
Lemma hash_chain_print_loop_spec (f : stream) (elems : list (list byte))
    (d : Z) (m : nat) :
  forall (fuel : nat) (i : Z),
    (m <= fuel)%nat ->
    Forall (fun e => length e = Z.to_nat d) elems ->
    1 <= d <= B64_BLOCK_SIZE ->
    0 <= i -> i + Z.of_nat m = Z.of_nat (length elems) ->
    Z.of_nat (length elems) * d <= INT_MAX ->
    exists t,
      hash_chain_print_loop fuel (BIO_new_b64_fp f)
        {| digest_size := d; chain_length := Z.of_nat (length elems);
           data := Some (concat elems) |} i
      = (t, Some (BIO_new_b64_fp f))
      /\ printed f t = concat (map wrap64 (skipn (Z.to_nat i) elems))
      /\ (forall g, same_stream g f = false -> printed g t = []).
Proof.
  induction m as [|m IH]; intros fuel i Hfuel Hall Hd Hi Hm Hmax.
  - exists []. split; [|split].
    + destruct fuel; cbn [hash_chain_print_loop chain_length];
        (replace (i <? Z.of_nat (length elems)) with false
           by (symmetry; apply Z.ltb_ge; lia)); reflexivity.
    + rewrite skipn_all2 by lia. reflexivity.
    + reflexivity.
  - destruct fuel as [|fuel]; [lia|].
    cbn [hash_chain_print_loop chain_length digest_size data].
    replace (i <? Z.of_nat (length elems)) with true
      by (symmetry; apply Z.ltb_lt; lia).
    unfold int_mul, int_add.
    rewrite (wrap_int_small (i * d)) by (unfold INT_MAX in *; nia).
    rewrite (wrap_int_small (i + 1)) by (unfold INT_MAX in *; nia).
    rewrite <- bind_assoc.
    assert (Hlen : length (concat elems) = (length elems * Z.to_nat d)%nat)
      by (apply length_concat_uniform, Hall).
    assert (Hb : in_bounds (concat elems) (i * d) d = true)
      by (apply in_bounds_true; rewrite ?Hlen; nia).
    destruct (BIO_write_flush f (concat elems) (i * d) d Hb Hd)
      as (t1 & Hrun1 & Hp1 & Hq1).
    destruct (IH fuel (i + 1)) as (t2 & Hrun2 & Hp2 & Hq2);
      try assumption; try lia.
    exists (t1 ++ t2). split;
      [rewrite Hrun1; cbn [bind]; rewrite Hrun2; reflexivity|].
    split; [|intros g Hg; now rewrite printed_app, Hq1, Hq2].
    rewrite printed_app, Hp1, Hp2.
    rewrite (skipn_nth_cons elems (Z.to_nat i) []) by lia.
    cbn [map concat]. f_equal.
    + f_equal. unfold slice.
      replace (Z.to_nat (i * d)) with (Z.to_nat i * Z.to_nat d)%nat by nia.
      apply slice_concat; [exact Hall | lia].
    + replace (Z.to_nat (i + 1)) with (S (Z.to_nat i)) by lia. reflexivity.
Qed.

Lemma hash_chain_print_spec (f : stream) (elems : list (list byte)) (d : Z) :
  Forall (fun e => length e = Z.to_nat d) elems ->
  1 <= d <= B64_BLOCK_SIZE ->
  Z.of_nat (length elems) * d <= INT_MAX ->
  exists t,
    hash_chain_print
      {| digest_size := d; chain_length := Z.of_nat (length elems);
         data := Some (concat elems) |} f
    = (t, Some tt)
    /\ printed f t = concat (map wrap64 elems)
    /\ (forall g, same_stream g f = false -> printed g t = []).
Proof.
  intros Hall Hd Hmax. unfold hash_chain_print. cbn [chain_length].
  destruct (hash_chain_print_loop_spec f elems d (length elems)
              (Z.to_nat (Z.of_nat (length elems))) 0)
    as (t & Hrun & Hp & Hq); try assumption; try lia.
  exists (t ++ []). split; [rewrite Hrun; reflexivity|].
  now rewrite app_nil_r.
Qed.

Lemma encode_lines_S (fuel : nat) (inp : list byte) :
  encode_lines (S fuel) inp
  = if EVP_ENCODE_LENGTH <=? Z.of_nat (length inp) then
      let (out, rest) := encode_lines fuel (skipn 48 inp) in
      (EVP_EncodeBlock (firstn 48 inp) ++ NL :: out, rest)
    else ([], inp).
Proof. reflexivity. Qed.

Lemma encode_lines_short (fuel : nat) (inp : list byte) :
  (length inp < 48)%nat -> encode_lines fuel inp = ([], inp).
Proof.
  intros Hlen.
  destruct fuel; cbn [encode_lines];
    (replace (EVP_ENCODE_LENGTH <=? Z.of_nat (length inp)) with false
       by (symmetry; apply Z.leb_gt; unfold EVP_ENCODE_LENGTH; lia));
    reflexivity.
Qed.

(** A digest of at most 48 bytes is one line. *)
Lemma wrap64_short (e : list byte) :
  e <> [] -> (length e <= 48)%nat -> wrap64 e = EVP_EncodeBlock e ++ [NL].
Proof.
  intros Hne Hlen. unfold wrap64.
  destruct (Nat.eq_dec (length e) 48) as [H48|H48].
  - rewrite H48 at 1. rewrite encode_lines_S, H48.
    replace (EVP_ENCODE_LENGTH <=? Z.of_nat 48) with true by reflexivity.
    rewrite firstn_all2, skipn_all2 by lia.
    rewrite encode_lines_short by (cbn [length]; lia).
    now rewrite app_nil_r.
  - rewrite encode_lines_short by lia.
    cbn [app]. destruct e; [contradiction | reflexivity].
Qed.

(** ** Counting lines *)

Lemma count_lines_app (a b : list byte) :
  count_lines (a ++ b) = (count_lines a + count_lines b)%nat.
Proof.
  induction a as [|c a IH]; [reflexivity|]. cbn [app count_lines].
  destruct (Z_of_byte c =? 10); rewrite IH; reflexivity.
Qed.

Lemma count_lines_bin2ascii (x : Z) (r : list byte) :
  count_lines (conv_bin2ascii x :: r) = count_lines r.
Proof.
  cbn [count_lines].
  destruct (alphabet_char_inv _ _ (conv_bin2ascii_spec x)) as (_ & _ & _ & Hnl).
  apply Z.eqb_neq in Hnl. now rewrite Hnl.
Qed.

Lemma count_lines_encoded (e : list byte) : count_lines (EVP_EncodeBlock e) = O.
Proof.
  induction e as [|a|a b|a b c r IH] using list_ind3;
    cbn [EVP_EncodeBlock]; cbv zeta; rewrite ?count_lines_bin2ascii;
    try reflexivity.
  exact IH.
Qed.

Lemma count_lines_line (e : list byte) :
  count_lines (EVP_EncodeBlock e ++ [NL]) = 1%nat.
Proof. rewrite count_lines_app, count_lines_encoded. reflexivity. Qed.

(** The full lines [encode_lines] cuts and the bytes it leaves. *)
Lemma encode_lines_count (fuel : nat) :
  forall inp,
    (length inp / 48 <= fuel)%nat ->
    count_lines (fst (encode_lines fuel inp)) = (length inp / 48)%nat
    /\ length (snd (encode_lines fuel inp)) = (length inp mod 48)%nat.
Proof.
  induction fuel as [|fuel IH]; intros inp Hfuel.
  - assert (Hlt : (length inp < 48)%nat).
    { destruct (Nat.lt_ge_cases (length inp) 48) as [|Hge]; [assumption|].
      assert (1 <= length inp / 48)%nat
        by (apply Nat.div_le_lower_bound; lia).
      lia. }
    rewrite encode_lines_short by assumption. cbn [fst snd count_lines].
    rewrite Nat.div_small, Nat.mod_small by assumption. auto.
  - destruct (Nat.lt_ge_cases (length inp) 48) as [Hlt|Hge].
    + rewrite encode_lines_short by assumption. cbn [fst snd count_lines].
      rewrite Nat.div_small, Nat.mod_small by assumption. auto.
    + rewrite encode_lines_S.
      replace (EVP_ENCODE_LENGTH <=? Z.of_nat (length inp)) with true
        by (symmetry; apply Z.leb_le; unfold EVP_ENCODE_LENGTH; lia).
      assert (Hdiv : (length inp / 48 = S (length (skipn 48 inp) / 48))%nat
                     /\ (length inp mod 48 = length (skipn 48 inp) mod 48)%nat).
      { rewrite length_skipn.
        replace (length inp) with ((length inp - 48) + 1 * 48)%nat at 1 3 by lia.
        rewrite Nat.div_add, Nat.Div0.mod_add by lia. lia. }
      destruct Hdiv as [Hq Hr].
      destruct (IH (skipn 48 inp)) as [IHc IHl]; [lia|].
      destruct (encode_lines fuel (skipn 48 inp)) as [out rest].
      cbn [fst snd] in *.
      change (EVP_EncodeBlock (firstn 48 inp) ++ NL :: out)
        with (EVP_EncodeBlock (firstn 48 inp) ++ [NL] ++ out).
      rewrite app_assoc, count_lines_app, count_lines_line, IHc.
      split; lia.
Qed.

Lemma count_lines_wrap64 (e : list byte) :
  count_lines (wrap64 e) = ((length e + 47) / 48)%nat.
Proof.
  unfold wrap64.
  destruct (encode_lines_count (length e) e) as [Hc Hl].
  { apply Nat.Div0.div_le_upper_bound. lia. }
  destruct (encode_lines (length e) e) as [lines rest]. cbn [fst snd] in *.
  rewrite count_lines_app, Hc.
  pose proof (Nat.div_mod_eq (length e) 48) as Hdm.
  assert (Hub : (length e mod 48 < 48)%nat)
    by (apply Nat.mod_upper_bound; lia).
  destruct rest as [|x rest].
  - cbn [length] in Hl. cbn [count_lines].
    apply Nat.div_unique with (r := 47%nat); lia.
  - rewrite count_lines_line. cbn [length] in Hl.
    apply Nat.div_unique with (r := (length e mod 48 - 1)%nat); lia.
Qed.

Lemma count_lines_concat (f : list byte -> list byte) (k : nat)
    (elems : list (list byte)) :
  Forall (fun e => count_lines (f e) = k) elems ->
  count_lines (concat (map f elems)) = (length elems * k)%nat.
Proof.
  induction 1 as [|e l He Hall IH]; [reflexivity|].
  cbn [map concat length]. rewrite count_lines_app, He, IH. lia.
Qed.

(** * The claims on printing and on the round trip *)

(** A buffer of [n] digests is the concatenation of its elements. *)
Lemma concat_slices (dn n : nat) :
  forall b : list byte,
    length b = (n * dn)%nat ->
    concat (map (fun i => firstn dn (skipn (i * dn) b)) (seq 0 n)) = b
    /\ Forall (fun e => length e = dn)
         (map (fun i => firstn dn (skipn (i * dn) b)) (seq 0 n)).
Proof.
  induction n as [|n IH]; intros b Hlen.
  - destruct b; [split; [reflexivity | constructor] | discriminate].
  - cbn [seq map concat]. rewrite <- seq_shift, map_map.
    destruct (IH (skipn dn b)) as [Hcat Hall];
      [rewrite length_skipn; lia|].
    assert (Hext : map (fun i => firstn dn (skipn (S i * dn) b)) (seq 0 n)
                   = map (fun i => firstn dn (skipn (i * dn) (skipn dn b)))
                       (seq 0 n)).
    { apply map_ext. intros i. rewrite skipn_skipn. do 2 f_equal. lia. }
    rewrite Hext, Hcat. cbn [Nat.mul skipn]. split.
    + apply firstn_skipn.
    + constructor; [rewrite length_firstn; lia | exact Hall].
Qed.

Lemma chain_elems_spec (c : hash_chain) (b : list byte) :
  data c = Some b ->
  0 <= digest_size c -> 0 <= chain_length c ->
  Z.of_nat (length b) = chain_length c * digest_size c ->
  concat (chain_elems c) = b
  /\ Forall (fun e => length e = Z.to_nat (digest_size c)) (chain_elems c)
  /\ Z.of_nat (length (chain_elems c)) = chain_length c.
Proof.
  intros Hb Hd Hn Hlen. unfold chain_elems. rewrite Hb.
  destruct (concat_slices (Z.to_nat (digest_size c))
              (Z.to_nat (chain_length c)) b) as [Hcat Hall]; [nia|].
  assert (Hext : map (fun i => slice b (Z.of_nat i * digest_size c)
                                 (digest_size c))
                   (seq 0 (Z.to_nat (chain_length c)))
                 = map (fun i => firstn (Z.to_nat (digest_size c))
                                   (skipn (i * Z.to_nat (digest_size c)) b))
                     (seq 0 (Z.to_nat (chain_length c)))).
  { apply map_ext. intros i. unfold slice. do 2 f_equal. nia. }
  rewrite Hext. split; [exact Hcat|]. split; [exact Hall|].
  rewrite length_map, length_seq. lia.
Qed.

(** C7, on the code.  [hash_chain_print] does not write one line for
    each element when the digest has more than 48 bytes.  For every
    chain of [N] digests of [d] bytes each, [1 <= d <= 1024], it
    writes, in chain order, the base64 text of each element as the
    filter wraps it, in lines of at most 64 characters, each line
    followed by a newline: [N * ceil (d / 48)] lines in all.  When
    [d <= 48] these are exactly [N] lines, the base64 text of each
    element followed by a newline; when [d > 48] (SHA-512 has 64) and
    the chain is not empty, they are more than [N] lines, at least two
    for each element. *)
Theorem hash_chain_print_lines (c : hash_chain) (b : list byte) :
  data c = Some b ->
  1 <= digest_size c <= B64_BLOCK_SIZE ->
  0 <= chain_length c ->
  Z.of_nat (length b) = chain_length c * digest_size c ->
  chain_length c * digest_size c <= INT_MAX ->
  exists t,
    hash_chain_print c Stdout = (t, Some tt)
    /\ printed Stdout t = concat (map wrap64 (chain_elems c))
    /\ count_lines (printed Stdout t)
       = (Z.to_nat (chain_length c)
          * ((Z.to_nat (digest_size c) + 47) / 48))%nat
    /\ (digest_size c <= 48 ->
        printed Stdout t
        = concat (map (fun e => EVP_EncodeBlock e ++ [NL]) (chain_elems c))
        /\ count_lines (printed Stdout t) = Z.to_nat (chain_length c))
    /\ (48 < digest_size c -> 1 <= chain_length c ->
        (2 * Z.to_nat (chain_length c) <= count_lines (printed Stdout t))%nat
        /\ (Z.to_nat (chain_length c) < count_lines (printed Stdout t))%nat).
Proof.
  intros Hb Hd Hn Hlen Hmax.
  destruct (chain_elems_spec c b Hb) as (Hcat & Hall & Hcount);
    try assumption; try lia.
  set (elems := chain_elems c) in *.
  assert (Hc : c = {| digest_size := digest_size c;
                      chain_length := Z.of_nat (length elems);
                      data := Some (concat elems) |})
    by (destruct c; cbn [digest_size chain_length data] in *; congruence).
  destruct (hash_chain_print_spec Stdout elems (digest_size c) Hall Hd)
    as (t & Hrun & Hp & _); [lia|].
  rewrite <- Hc in Hrun.
  exists t. split; [exact Hrun|]. split; [exact Hp|].
  assert (Hlines : count_lines (printed Stdout t)
                   = (length elems
                      * ((Z.to_nat (digest_size c) + 47) / 48))%nat).
  { rewrite Hp. apply count_lines_concat.
    apply Forall_impl with (2 := Hall). intros e He.
    now rewrite count_lines_wrap64, He. }
  split; [rewrite Hlines; f_equal; lia|].
  split.
  - intros H48. split.
    + rewrite Hp. f_equal. apply map_ext_Forall.
      apply Forall_impl with (2 := Hall). intros e He.
      apply wrap64_short; [|lia].
      intros ->. cbn [length] in He. lia.
    + rewrite Hlines.
      replace ((Z.to_nat (digest_size c) + 47) / 48)%nat with 1%nat; [lia|].
      apply Nat.div_unique with (r := (Z.to_nat (digest_size c) - 1)%nat); lia.
  - intros H48 H1. rewrite Hlines.
    assert (Hq : (2 <= (Z.to_nat (digest_size c) + 47) / 48)%nat)
      by (apply Nat.div_le_lower_bound; lia).
    nia.
Qed.

Lemma hash_chain_print_lines_witness :
  (exists t,
      hash_chain_print
        {| digest_size := 4; chain_length := 2;
           data := Some (concat two_digests) |} Stdout
      = (t, Some tt)
      /\ count_lines (printed Stdout t) = 2%nat)
  /\ (exists t,
         hash_chain_print
           {| digest_size := 64; chain_length := 1; data := Some digest64 |}
           Stdout
         = (t, Some tt)
         /\ (1 < count_lines (printed Stdout t))%nat).
Proof.
  split.
  - destruct (hash_chain_print_lines
                {| digest_size := 4; chain_length := 2;
                   data := Some (concat two_digests) |} (concat two_digests))
      as (t & Hrun & _ & _ & Hshort & _).
    + reflexivity.
    + vm_compute. split; discriminate.
    + vm_compute. discriminate.
    + reflexivity.
    + vm_compute. discriminate.
    + exists t. split; [exact Hrun|]. apply Hshort. vm_compute. discriminate.
  - destruct (hash_chain_print_lines
                {| digest_size := 64; chain_length := 1;
                   data := Some digest64 |} digest64)
      as (t & Hrun & _ & _ & _ & Hlong).
    + reflexivity.
    + vm_compute. split; discriminate.
    + vm_compute. discriminate.
    + reflexivity.
    + vm_compute. discriminate.
    + exists t. split; [exact Hrun|].
      apply Hlong; [reflexivity | vm_compute; discriminate].
Defined.

(** C7, the claim as stated, fails: the chain of one digest of 64 bytes
    that [hash_chain_create] builds is printed as two lines. *)
Lemma hash_chain_print_wraps_long_digest :
  exists c t,
    snd (hash_chain_create (Some seed_hello) 5 (toy_md 64) 1) = Some c
    /\ chain_length c = 1
    /\ hash_chain_print c Stdout = (t, Some tt)
    /\ count_lines (printed Stdout t) = 2%nat.
Proof.
  eexists _, _. split; [vm_compute; reflexivity|].
  split; [reflexivity|]. split; [vm_compute; reflexivity|].
  vm_compute. reflexivity.
Qed.

Lemma print_digest_wrap64 (d : list byte) :
  1 <= Z.of_nat (length d) <= B64_BLOCK_SIZE -> print_digest d = wrap64 d.
Proof.
  intros Hd. unfold print_digest.
  destruct (hash_chain_print_spec Stdout [d] (Z.of_nat (length d)))
    as (t & Hrun & Hp & _).
  - constructor; [now rewrite Nat2Z.id | constructor].
  - exact Hd.
  - cbn [length]. unfold B64_BLOCK_SIZE, INT_MAX in *. lia.
  - cbn [concat length Z.of_nat Pos.of_succ_nat map] in Hrun, Hp.
    rewrite !app_nil_r in *. rewrite Hrun. exact Hp.
Qed.

(** A digest of more than 48 and less than 96 bytes takes two lines. *)
Lemma wrap64_two_lines (e : list byte) :
  (48 < length e < 96)%nat ->
  wrap64 e
  = (EVP_EncodeBlock (firstn 48 e) ++ [NL])
      ++ (EVP_EncodeBlock (skipn 48 e) ++ [NL]).
Proof.
  intros Hlen. unfold wrap64.
  destruct (length e) as [|k] eqn:Hk; [lia|].
  rewrite encode_lines_S, Hk.
  replace (EVP_ENCODE_LENGTH <=? Z.of_nat (S k)) with true
    by (symmetry; apply Z.leb_le; unfold EVP_ENCODE_LENGTH; lia).
  rewrite encode_lines_short by (rewrite length_skipn; lia).
  destruct (skipn 48 e) as [|x r] eqn:Hs.
  - apply (f_equal (@length _)) in Hs. rewrite length_skipn in Hs.
    cbn [length] in Hs. lia.
  - rewrite <- app_assoc. reflexivity.
Qed.

(** ** A line break inside the text

    The filter of [base64_decode] takes the text for one line: a
    newline between two base64 texts fails the block. *)

(** Whole groups of three bytes decode, and what follows them goes on. *)
Lemma decode_quads_groups (a : list byte) :
  forall r, (length a mod 3 = 0)%nat ->
    decode_quads (EVP_EncodeBlock a ++ r)
    = match decode_quads r with
      | Some t => Some (a ++ t)
      | None => None
      end.
Proof.
  induction a as [|x|x y|x y z a IH] using list_ind3; intros r Hlen;
    try discriminate.
  - cbn [EVP_EncodeBlock app]. now destruct (decode_quads r).
  - assert (Ha : (length a mod 3 = 0)%nat).
    { cbn [length] in Hlen.
      replace (S (S (S (length a)))) with (length a + 1 * 3)%nat in Hlen by lia.
      now rewrite Nat.Div0.mod_add in Hlen. }
    cbn [EVP_EncodeBlock app]. cbv zeta.
    pose proof (Z_of_byte_range x) as Hx. pose proof (Z_of_byte_range y) as Hy.
    pose proof (Z_of_byte_range z) as Hz.
    destruct (enc_l_bytes _ _ _ Hx Hy Hz) as (Hl & H16 & H8 & H0).
    rewrite decode_quads_cons
      by (rewrite conv_ascii2bin_bin2ascii; apply sextet_range).
    cbv zeta. rewrite !conv_ascii2bin_bin2ascii.
    rewrite dec_l_sextets by exact Hl.
    rewrite H16, H8, H0, !byte_of_Z_of_byte.
    rewrite (IH r Ha). now destruct (decode_quads r).
Qed.

Lemma decode_quads_newline (c1 c2 c3 : byte) (r : list byte) :
  decode_quads (NL :: c1 :: c2 :: c3 :: r) = None.
Proof. reflexivity. Qed.

Lemma forallb_firstn {A : Type} (P : A -> bool) (n : nat) (l : list A) :
  forallb P l = true -> forallb P (firstn n l) = true.
Proof.
  revert n. induction l as [|x l IH]; intros n; [now rewrite firstn_nil|].
  destruct n; [reflexivity|]. cbn [forallb firstn]. rewrite !andb_true_iff.
  intros [Hx Hl]. split; [exact Hx | now apply IH].
Qed.

Lemma last_app_cons {A : Type} (l : list A) (x : A) (r : list A) (d : A) :
  last (l ++ x :: r) d = last (x :: r) d.
Proof.
  induction l as [|y l IH]; [reflexivity|].
  cbn [app]. rewrite <- IH. cbn [last].
  destruct (l ++ x :: r) eqn:He; [destruct l; discriminate | reflexivity].
Qed.

(** The block of a text whose first line ends inside it is refused. *)
Lemma EVP_DecodeBlock_line_break (a r : list byte) :
  a <> [] -> (length a mod 3 = 0)%nat ->
  (3 <= length r)%nat -> forallb text_char r = true ->
  EVP_DecodeBlock (EVP_EncodeBlock a ++ NL :: r) = None.
Proof.
  intros Ha Hmod Hr Htext. unfold EVP_DecodeBlock.
  set (f := EVP_EncodeBlock a ++ NL :: r).
  assert (Htrim : trim_start f = f).
  { unfold f. destruct (EVP_EncodeBlock a) as [|c e] eqn:He.
    - pose proof (encoded_length_pos a Ha) as Hp. rewrite He in Hp.
      cbn in Hp. lia.
    - destruct (EVP_EncodeBlock_facts a) as (_ & _ & Ht & _).
      rewrite He in Ht. cbn [forallb] in Ht.
      apply andb_true_iff in Ht. destruct Ht as [Hc _].
      unfold text_char in Hc. rewrite !andb_true_iff, !negb_true_iff in Hc.
      destruct Hc as [[_ Hws] _].
      cbn [app trim_start]. now rewrite Hws. }
  rewrite Htrim.
  assert (Hstrip : strip_end (length f) f = f).
  { destruct (length f) as [|n]; [reflexivity|]. cbn [strip_end].
    assert (Hlast : last f "000"%byte = last r "000"%byte).
    { unfold f. rewrite last_app_cons.
      destruct r; [cbn in Hr; lia | reflexivity]. }
    rewrite Hlast.
    assert (Hne : r <> []) by (destruct r; [cbn in Hr; lia | discriminate]).
    pose proof (forallb_last text_char r "000"%byte Htext Hne) as Hl.
    unfold text_char in Hl. rewrite !andb_true_iff, !negb_true_iff in Hl.
    destruct Hl as [_ Hnb]. rewrite Hnb. now rewrite andb_false_r. }
  rewrite Hstrip.
  destruct (Z.of_nat (length f) mod 4 =? 0); [|reflexivity].
  unfold f. rewrite decode_quads_groups by exact Hmod.
  destruct r as [|c1 [|c2 [|c3 r]]]; try (cbn in Hr; lia).
  now rewrite decode_quads_newline.
Qed.

Lemma b64_read_loop_S (fuel : nat) (src tmp : list byte) (cont outl : Z)
    (out : list byte) (ret_code : Z) :
  b64_read_loop (S fuel) src tmp cont outl out ret_code
  = if outl <=? 0 then (out, ret_code)
    else if cont <=? 0 then (out, ret_code)
    else match b64_read_round src tmp outl out ret_code with
         | Break out ret_code => (out, ret_code)
         | Next src tmp cont outl out ret_code =>
             b64_read_loop fuel src tmp cont outl out ret_code
         end.
Proof. reflexivity. Qed.

(** The round that reads a text of two lines breaks the loop: nothing
    is delivered. *)
Lemma b64_read_round_two_lines (a b : list byte) (outl : Z) (out : list byte)
    (ret_code : Z) :
  length a = 48%nat -> (1 <= length b <= 47)%nat ->
  b64_read_round (EVP_EncodeBlock a ++ [NL] ++ EVP_EncodeBlock b ++ [NL]) []
    outl out ret_code
  = Break out 0.
Proof.
  intros Ha Hb.
  destruct (EVP_EncodeBlock_facts a) as (_ & Hla & _).
  destruct (EVP_EncodeBlock_facts b) as (_ & Hlb & Htb & _).
  rewrite Ha in Hla. change (4 * ((48 + 2) / 3))%nat with 64%nat in Hla.
  set (k := ((length b + 2) / 3)%nat) in *.
  assert (Hk : (1 <= k <= 16)%nat).
  { unfold k. split.
    - apply Nat.div_le_lower_bound; lia.
    - assert ((length b + 2) / 3 < 17)%nat
        by (apply Nat.Div0.div_lt_upper_bound; lia).
      lia. }
  set (text := EVP_EncodeBlock a ++ [NL] ++ EVP_EncodeBlock b ++ [NL]).
  assert (Hlen : length text = (66 + 4 * k)%nat).
  { unfold text. rewrite !length_app, Hla, Hlb. cbn [length]. lia. }
  assert (Hjj : Z.land (Z.of_nat (length text)) (Z.lnot 3)
                = Z.of_nat (64 + 4 * k)).
  { rewrite land_lnot_3, Hlen. Z.to_euclidean_division_equations; lia. }
  assert (Hfirst : firstn (64 + 4 * k) text
                   = EVP_EncodeBlock a
                       ++ NL :: firstn (4 * k - 1) (EVP_EncodeBlock b)).
  { unfold text. rewrite firstn_app, Hla.
    rewrite firstn_all2 by lia. f_equal.
    replace (64 + 4 * k - 64)%nat with (S (4 * k - 1)) by lia.
    cbn [app firstn]. f_equal.
    rewrite firstn_app, Hlb.
    replace (4 * k - 1 - 4 * k)%nat with 0%nat by lia.
    cbn [firstn]. now rewrite app_nil_r. }
  assert (Hdec : EVP_DecodeBlock (firstn (64 + 4 * k) text) = None).
  { rewrite Hfirst. apply EVP_DecodeBlock_line_break.
    - intros ->. discriminate.
    - now rewrite Ha.
    - rewrite length_firstn, Hlb. lia.
    - now apply forallb_firstn. }
  unfold b64_read_round. fold text. cbn [length Z.of_nat app].
  change (Z.to_nat (B64_BLOCK_SIZE - 0)) with 1024%nat.
  rewrite firstn_all2 by lia.
  replace (Z.of_nat (length text) <=? 0) with false
    by (symmetry; apply Z.leb_gt; lia).
  cbn [andb]. rewrite Hjj, Nat2Z.id, Hdec, block_count_pads.
  replace (-1 - pads text (Z.of_nat (64 + 4 * k)) <? 0) with true;
    [reflexivity|].
  symmetry. apply Z.ltb_lt. unfold pads.
  destruct (2 <? _); [|lia].
  destruct (_ =? 61); [|lia]. destruct (_ =? 61); lia.
Qed.

Lemma BIO_read_two_lines (a b : list byte) (outl : Z) :
  length a = 48%nat -> (1 <= length b <= 47)%nat ->
  snd (BIO_read (EVP_EncodeBlock a ++ [NL] ++ EVP_EncodeBlock b ++ [NL]) outl)
  = [].
Proof.
  intros Ha Hb. unfold BIO_read.
  rewrite c_string_nonzero
    by (rewrite !forallb_app, !nonzero_encoded; reflexivity).
  rewrite b64_read_loop_S.
  destruct (outl <=? 0); [reflexivity|]. cbn [Z.leb Z.compare].
  now rewrite b64_read_round_two_lines.
Qed.

(** C6, on the code.  The text [hash_chain_print] writes for a digest
    is read back by [base64_decode] only when it is one line.  The
    base64 text of a digest [d] of at most 768 bytes, written on one
    line, decodes at the length of [d] to [d] exactly; for [d] of 1 to
    48 bytes the text [hash_chain_print] writes is that line and its
    newline, and decoding it, as printed, returns [d] exactly.  A
    digest of more than 48 and less than 96 bytes (SHA-512 has 64) is
    printed in two lines, and the filter of [base64_decode], which
    takes its input for one line, delivers nothing of them: the buffer
    is returned as [malloc] gave it, not as [d]. *)
Theorem base64_round_trip (garbage d : list byte) :
  (length d <= 768)%nat ->
  snd (base64_decode garbage (EVP_EncodeBlock d) (Z.of_nat (length d)))
  = Some (Some d)
  /\ ((1 <= length d <= 48)%nat ->
      print_digest d = EVP_EncodeBlock d ++ [NL]
      /\ snd (base64_decode garbage (print_digest d) (Z.of_nat (length d)))
         = Some (Some d))
  /\ ((48 < length d < 96)%nat ->
      print_digest d
      = EVP_EncodeBlock (firstn 48 d) ++ [NL]
          ++ EVP_EncodeBlock (skipn 48 d) ++ [NL]
      /\ snd (BIO_read (print_digest d) (Z.of_nat (length d))) = []
      /\ snd (base64_decode garbage (print_digest d) (Z.of_nat (length d)))
         = Some (Some (resize (length d) garbage))).
Proof.
  intros Hlen.
  assert (Hexp : 0 <= Z.of_nat (length d) <= PTRDIFF_MAX)
    by (unfold PTRDIFF_MAX; lia).
  split; [|split].
  - destruct (base64_decode_spec garbage (EVP_EncodeBlock d) _ Hexp)
      as (t & Hrun & _).
    rewrite Hrun. cbn [snd]. rewrite decoded_encoded by lia.
    rewrite Nat2Z.id, firstn_all, skipn_all2
      by (rewrite length_resize; lia).
    now rewrite app_nil_r.
  - intros Hshort.
    assert (Hne : d <> []) by (intros ->; cbn [length] in Hshort; lia).
    assert (Hpr : print_digest d = EVP_EncodeBlock d ++ [NL]).
    { rewrite print_digest_wrap64 by (unfold B64_BLOCK_SIZE; lia).
      apply wrap64_short; [exact Hne | lia]. }
    split; [exact Hpr|]. rewrite Hpr.
    destruct (base64_decode_spec garbage (EVP_EncodeBlock d ++ [NL]) _ Hexp)
      as (t & Hrun & _).
    rewrite Hrun. cbn [snd]. unfold decoded.
    rewrite BIO_read_encoded_line; try reflexivity; try lia.
    + cbn [snd]. rewrite Nat2Z.id, firstn_all, skipn_all2
        by (rewrite length_resize; lia).
      now rewrite app_nil_r.
    + destruct (EVP_EncodeBlock_facts d) as (_ & Hl & _). rewrite Hl.
      assert ((length d + 2) / 3 < 17)%nat
        by (apply Nat.Div0.div_lt_upper_bound; lia).
      cbn [length]. lia.
    + cbn [length]. lia.
  - intros Hlong.
    assert (Hpr : print_digest d
                  = EVP_EncodeBlock (firstn 48 d) ++ [NL]
                      ++ EVP_EncodeBlock (skipn 48 d) ++ [NL]).
    { rewrite print_digest_wrap64 by (unfold B64_BLOCK_SIZE; lia).
      rewrite wrap64_two_lines by exact Hlong.
      now rewrite <- app_assoc. }
    assert (Hread : snd (BIO_read (print_digest d) (Z.of_nat (length d))) = []).
    { rewrite Hpr. apply BIO_read_two_lines.
      - rewrite length_firstn. lia.
      - rewrite length_skipn. lia. }
    split; [exact Hpr|]. split; [exact Hread|].
    destruct (base64_decode_spec garbage (print_digest d) _ Hexp)
      as (t & Hrun & _).
    rewrite Hrun. cbn [snd]. unfold decoded. rewrite Hread.
    cbn [app length skipn]. now rewrite Nat2Z.id.
Qed.

Lemma base64_round_trip_witness :
  snd (base64_decode (junk 16) (print_digest digest16) 16) = Some (Some digest16)
  /\ snd (base64_decode (junk 64) (print_digest digest64) 64)
     = Some (Some (junk 64)).
Proof.
  split.
  - destruct (base64_round_trip (junk 16) digest16) as (_ & Hprinted & _).
    + vm_compute. lia.
    + destruct Hprinted as [_ Hdec]; [vm_compute; lia|]. exact Hdec.
  - destruct (base64_round_trip (junk 64) digest64) as (_ & _ & Hlong).
    + vm_compute. lia.
    + destruct Hlong as (_ & _ & Hdec); [vm_compute; lia|]. exact Hdec.
Defined.

(** C6, the claim as stated, fails: the text printed for a digest of 64
    bytes has a line break after 64 characters, and [base64_decode],
    which expects one line, leaves the buffer as it was; with the last
    newline taken off the text it does the same. *)
Lemma base64_round_trip_fails_on_long_digest :
  length digest64 = 64%nat
  /\ snd (base64_decode (junk 64) (print_digest digest64) 64)
     = Some (Some (junk 64))
  /\ snd (base64_decode (junk 64) (removelast (print_digest digest64)) 64)
     = Some (Some (junk 64))
  /\ junk 64 <> digest64.
Proof.
  split; [reflexivity|]. split; [vm_compute; reflexivity|].
  split; [vm_compute; reflexivity|]. vm_compute. discriminate.
Qed.

(** * The commands *)

Lemma c_string_prefix (s : list byte) : exists tail, s = c_string s ++ tail.
Proof.
  induction s as [|c s [tail IH]]; [exists []; reflexivity|].
  cbn [c_string]. destruct (Z_of_byte c =? 0).
  - exists (c :: s). reflexivity.
  - exists tail. cbn [app]. now rewrite <- IH.
Qed.

Lemma wrap_int_range (z : Z) : -2147483648 <= wrap_int z <= INT_MAX.
Proof.
  unfold wrap_int, INT_MAX.
  pose proof (Z.mod_pos_bound (z + 2147483648) 4294967296). lia.
Qed.

Lemma sscanf_d_range (s : list byte) (n : Z) :
  sscanf_d s = Some n -> -2147483648 <= n <= INT_MAX.
Proof.
  unfold sscanf_d.
  match goal with
  | |- (let (_, _) := ?p in _) = _ -> _ => destruct p as [neg rest]
  end.
  destruct rest as [|c r]; [discriminate|].
  destruct (isdigit c); [|discriminate].
  intros [= <-]. apply wrap_int_range.
Qed.

(** What [cmd_create] does right: a length argument that does not start
    with an integer ends the command with an error message and
    [EXIT_FAILURE], and no chain is built. *)
Lemma cmd_create_not_a_number (digests : list byte -> option EVP_MD)
    (argc : Z) (argv : list (list byte)) (hash : EVP_MD) :
  4 <= argc ->
  digests (c_string (nth 1 argv [])) = Some hash ->
  sscanf_d (nth 2 argv []) = None ->
  cmd_create digests argc argv
  = ([EvPrint Stderr
        (text "error: can't convert " ++ c_string (nth 2 argv [])
           ++ text " to integer" ++ [NL])],
     Some EXIT_FAILURE).
Proof.
  intros Hargc Hhash Hscan. unfold cmd_create.
  replace (argc <? 4) with false by (symmetry; apply Z.ltb_ge; lia).
  now rewrite Hhash, Hscan.
Qed.

(** A length argument that converts to [n >= 1] builds the chain of [n]
    digests over the seed argument, prints it and ends with
    [EXIT_SUCCESS]. *)
Lemma cmd_create_positive_length (digests : list byte -> option EVP_MD)
    (argc : Z) (argv : list (list byte)) (hash : EVP_MD) (n : Z) :
  4 <= argc ->
  digests (c_string (nth 1 argv [])) = Some hash ->
  md_wf hash -> EVP_MD_size hash <= B64_BLOCK_SIZE ->
  strlen (nth 3 argv []) <= INT_MAX ->
  sscanf_d (nth 2 argv []) = Some n ->
  1 <= n -> n * EVP_MD_size hash <= PTRDIFF_MAX ->
  exists t,
    cmd_create digests argc argv = (t, Some EXIT_SUCCESS)
    /\ printed Stdout t
       = concat (map wrap64
                   (iter_hash (md_digest hash) (Z.to_nat n)
                      (c_string (nth 3 argv []))))
    /\ printed Stderr t = [].
Proof.
  intros Hargc Hhash Hwf Hd Hstr Hscan Hn Hmax. destruct (Hwf) as [Hpos Hlen].
  unfold cmd_create.
  replace (argc <? 4) with false by (symmetry; apply Z.ltb_ge; lia).
  rewrite Hhash, Hscan.
  destruct (c_string_prefix (nth 3 argv [])) as [tail Htail].
  unfold strlen in *.
  rewrite wrap_int_small by (unfold INT_MAX in *; lia).
  replace (Some (nth 3 argv []))
    with (Some (c_string (nth 3 argv []) ++ tail)) by (now rewrite <- Htail).
  rewrite (hash_chain_create_spec hash Hwf) by assumption.
  cbn [bind].
  set (elems := iter_hash (md_digest hash) (Z.to_nat n)
                  (c_string (nth 3 argv []))).
  assert (Hall : Forall (fun e => length e = Z.to_nat (EVP_MD_size hash)) elems)
    by (apply Forall_length_iter_hash; intros y; specialize (Hlen y); lia).
  assert (Hcount : n = Z.of_nat (length elems))
    by (unfold elems; rewrite length_iter_hash; lia).
  destruct (hash_chain_print_spec Stdout elems (EVP_MD_size hash) Hall)
    as (t & Hrun & Hp & Hq); [lia | unfold PTRDIFF_MAX, INT_MAX in *; lia |].
  rewrite <- Hcount in Hrun. rewrite Hrun.
  cbn [bind free data emit ret].
  eexists. split; [reflexivity|].
  rewrite !app_nil_r. unfold create_trace.
  cbn [app printed]. rewrite !printed_app, !printed_loop_trace, Hp.
  rewrite (Hq Stderr eq_refl).
  cbn [printed app]. rewrite app_nil_r. split; reflexivity.
Qed.

(** C4, on the code.  [cmd_create] checks that the length argument
    converts to an integer and nothing more: for every length argument
    that converts to an integer [n <= 0], with a known digest, the
    command prints no error and returns no status; it calls
    [hash_chain_create], whose first write, of the digest of the seed at
    offset 0, is outside the buffer. *)
Theorem cmd_create_nonpositive_length
    (digests : list byte -> option EVP_MD) (argc : Z)
    (argv : list (list byte)) (hash : EVP_MD) (n : Z) :
  4 <= argc ->
  digests (c_string (nth 1 argv [])) = Some hash ->
  md_wf hash ->
  strlen (nth 3 argv []) <= INT_MAX ->
  sscanf_d (nth 2 argv []) = Some n ->
  n <= 0 ->
  exists t,
    cmd_create digests argc argv = (t ++ [EvStore 0 (EVP_MD_size hash)], None)
    /\ filter is_store t = []
    /\ printed Stdout t = [] /\ printed Stderr t = [].
Proof.
  intros Hargc Hhash Hwf Hstr Hscan Hn.
  pose proof (sscanf_d_range _ _ Hscan) as Hrange.
  unfold cmd_create.
  replace (argc <? 4) with false by (symmetry; apply Z.ltb_ge; lia).
  rewrite Hhash, Hscan.
  destruct (c_string_prefix (nth 3 argv [])) as [tail Htail].
  unfold strlen in *.
  rewrite wrap_int_small by (unfold INT_MAX in *; lia).
  replace (Some (nth 3 argv []))
    with (Some (c_string (nth 3 argv []) ++ tail)) by (now rewrite <- Htail).
  destruct (hash_chain_create_nonpositive hash (c_string (nth 3 argv [])) tail n)
    as (t & Hrun & Hst & Hout & Herr); try assumption; try lia.
  rewrite Hrun. exists t. cbn [bind]. auto.
Qed.

Lemma cmd_create_nonpositive_length_witness :
  exists t,
    cmd_create toy_digests 4 (argv_create "0") = (t ++ [EvStore 0 4], None)
    /\ printed Stderr t = [].
Proof.
  destruct (cmd_create_nonpositive_length toy_digests 4 (argv_create "0")
              (toy_md 4) 0)
    as (t & Hrun & _ & _ & Herr).
  - lia.
  - reflexivity.
  - apply toy_md_wf. lia.
  - vm_compute. discriminate.
  - reflexivity.
  - lia.
  - exists t. split; [exact Hrun | exact Herr].
Defined.

(** The run of [cmd_verify] with enough arguments and a known digest. *)
Lemma cmd_verify_known (digests : list byte -> option EVP_MD)
    (gq gt gd : list byte) (argc : Z) (argv : list (list byte)) (hash : EVP_MD) :
  4 <= argc ->
  digests (c_string (nth 1 argv [])) = Some hash ->
  md_wf hash -> EVP_MD_size hash <= PTRDIFF_MAX ->
  let d := EVP_MD_size hash in
  let ok := memcmp_bytes (md_digest hash (decoded gq (nth 2 argv []) d))
              (decoded gt (nth 3 argv []) d) =? 0 in
  exists t,
    cmd_verify digests gq gt gd argc argv
    = (t, Some (if ok then EXIT_SUCCESS else EXIT_FAILURE))
    /\ printed Stdout t
       = (if ok then text "success" else text "failure") ++ [NL]
    /\ printed Stderr t = [].
Proof.
  intros Hargc Hhash Hwf Hmax d ok. destruct (Hwf) as [Hpos _]. fold d in Hpos.
  unfold cmd_verify.
  replace (argc <? 4) with false by (symmetry; apply Z.ltb_ge; lia).
  rewrite Hhash. cbv zeta. fold d.
  destruct (base64_decode_spec gq (nth 2 argv []) d)
    as (t1 & Hrun1 & Hlen1 & Hp1); [fold d in Hmax; lia|].
  destruct (base64_decode_spec gt (nth 3 argv []) d)
    as (t2 & Hrun2 & Hlen2 & Hp2); [fold d in Hmax; lia|].
  pose proof (hash_chain_verify_spec hash gd
                (decoded gq (nth 2 argv []) d) 0
                (decoded gt (nth 3 argv []) d) 0 Hwf Hmax) as Hrun3.
  cbv zeta in Hrun3. fold d in Hrun3.
  rewrite (slice_all _ _ Hlen1), (slice_all _ _ Hlen2) in Hrun3.
  fold ok in Hrun3.
  rewrite Hrun1. cbn [bind]. rewrite Hrun2. cbn [bind].
  rewrite Hrun3 by (apply in_bounds_true; lia).
  cbn [bind free emit app].
  destruct ok; cbn [fprintf emit bind ret app]; eexists;
    (split; [reflexivity|]);
    rewrite !printed_app, !Hp1, !Hp2; cbn [printed same_stream app];
    rewrite ?app_nil_r; split; reflexivity.
Qed.

(** C5 (as amended).  [cmd_verify] has two exit statuses, not three.  It
    exits with [EXIT_SUCCESS] exactly when there are enough arguments,
    the digest name is known and the hash of the bytes decoded for the
    candidate equals the bytes decoded for the tip; every other run,
    a candidate that does not match, an unknown digest name or too few
    arguments, exits with [EXIT_FAILURE].  A digest that does not decode
    at the expected length is not detected: the buffer is compared as it
    is. *)
Theorem cmd_verify_exit_status (digests : list byte -> option EVP_MD)
    (gq gt gd : list byte) (argc : Z) (argv : list (list byte)) :
  (forall name hash, digests name = Some hash ->
                     md_wf hash /\ EVP_MD_size hash <= PTRDIFF_MAX) ->
  exists t r,
    cmd_verify digests gq gt gd argc argv = (t, Some r)
    /\ (r = EXIT_SUCCESS \/ r = EXIT_FAILURE)
    /\ (r = EXIT_SUCCESS <->
        4 <= argc
        /\ exists hash,
             digests (c_string (nth 1 argv [])) = Some hash
             /\ md_digest hash
                  (decoded gq (nth 2 argv []) (EVP_MD_size hash))
                = decoded gt (nth 3 argv []) (EVP_MD_size hash))
    /\ (argc < 4 \/ digests (c_string (nth 1 argv [])) = None ->
        r = EXIT_FAILURE /\ printed Stdout t = []).
Proof.
  intros Hdigests.
  destruct (Z.lt_ge_cases argc 4) as [Hlt|Hge].
  { unfold cmd_verify.
    replace (argc <? 4) with true by (symmetry; apply Z.ltb_lt; lia).
    eexists _, _. split; [reflexivity|]. split; [now right|].
    split; [|intros _; split; reflexivity].
    split; [discriminate | lia]. }
  destruct (digests (c_string (nth 1 argv []))) as [hash|] eqn:Hhash.
  - destruct (Hdigests _ _ Hhash) as [Hwf Hmax].
    destruct (cmd_verify_known digests gq gt gd argc argv hash Hge Hhash Hwf Hmax)
      as (t & Hrun & _).
    cbv zeta in Hrun. rewrite Hrun. eexists _, _. split; [reflexivity|].
    destruct (base64_decode_spec gq (nth 2 argv []) (EVP_MD_size hash))
      as (_ & _ & Hlen1 & _); [destruct Hwf; lia|].
    destruct (base64_decode_spec gt (nth 3 argv []) (EVP_MD_size hash))
      as (_ & _ & Hlen2 & _); [destruct Hwf; lia|].
    assert (Hcmp : memcmp_bytes
                     (md_digest hash
                        (decoded gq (nth 2 argv []) (EVP_MD_size hash)))
                     (decoded gt (nth 3 argv []) (EVP_MD_size hash)) = 0
                   <-> md_digest hash
                         (decoded gq (nth 2 argv []) (EVP_MD_size hash))
                       = decoded gt (nth 3 argv []) (EVP_MD_size hash)).
    { apply memcmp_bytes_zero. destruct Hwf as [_ Hlen].
      specialize (Hlen (decoded gq (nth 2 argv []) (EVP_MD_size hash))). lia. }
    destruct (memcmp_bytes _ _ =? 0) eqn:Hok.
    + apply Z.eqb_eq in Hok. split; [now left|]. split.
      * split; [|reflexivity]. intros _. split; [lia|].
        exists hash. split; [reflexivity | now apply Hcmp].
      * intros [Hc|Hc]; [lia | discriminate].
    + apply Z.eqb_neq in Hok. split; [now right|]. split.
      * split; [discriminate|]. intros (_ & hash' & [= <-] & Heq).
        now apply Hcmp in Heq.
      * intros [Hc|Hc]; [lia | discriminate].
  - unfold cmd_verify.
    replace (argc <? 4) with false by (symmetry; apply Z.ltb_ge; lia).
    rewrite Hhash. eexists _, _. split; [reflexivity|]. split; [now right|].
    split; [|intros _; split; reflexivity].
    split; [discriminate|]. intros (_ & hash & Hc & _). discriminate.
Qed.

Lemma cmd_verify_exit_status_witness :
  exists t,
    cmd_verify toy_digests [] [] [] 4
      (argv_verify "toy4" "GSAnLg==" "kpmgpw==")
    = (t, Some EXIT_SUCCESS).
Proof.
  destruct (cmd_verify_exit_status toy_digests [] [] [] 4
              (argv_verify "toy4" "GSAnLg==" "kpmgpw=="))
    as (t & r & Hrun & _ & Hiff & _).
  - intros name hash. unfold toy_digests.
    destruct (bytes_eqb name (text "toy4"));
      [|destruct (bytes_eqb name (text "toy64")); [|discriminate]];
      intros [= <-]; (split; [apply toy_md_wf; lia | vm_compute; discriminate]).
  - assert (Hr : r = EXIT_SUCCESS).
    { apply Hiff. split; [lia|]. exists (toy_md 4).
      split; vm_compute; reflexivity. }
    subst r. exists t. exact Hrun.
Defined.

(** C5, the claim as stated, fails: a candidate that does not match, an
    unknown digest name and a digest that does not decode all end with
    the same exit status. *)
Lemma cmd_verify_failures_share_status :
  snd (cmd_verify toy_digests [] [] [] 4
         (argv_verify "toy4" "GSAnLg==" "dn2Eiw=="))
  = Some EXIT_FAILURE
  /\ snd (cmd_verify toy_digests [] [] [] 4
            (argv_verify "toy9" "GSAnLg==" "kpmgpw=="))
     = Some EXIT_FAILURE
  /\ snd (cmd_verify toy_digests [] [] [] 4
            (argv_verify "toy4" "**" "kpmgpw=="))
     = Some EXIT_FAILURE.
Proof. vm_compute. repeat split. Qed.

(** * More on the builder *)

(** The digests after the first [n] are a chain over the [n]-th. *)
Lemma iter_hash_app (H : list byte -> list byte) (n m : nat) (x : list byte) :
  iter_hash H (n + m) x = iter_hash H n x ++ iter_hash H m (Nat.iter n H x).
Proof.
  revert x. induction n as [|n IH]; intros x; [reflexivity|].
  cbn [Nat.add iter_hash app]. rewrite IH. do 2 f_equal.
  now rewrite Nat.iter_succ_r.
Qed.

(** X1.  A chain can be taken up where it ends: the buffer of the chain
    of [n + m] digests over a seed is the buffer of the chain of [n]
    digests over that seed, followed by the buffer of the chain of [m]
    digests built with the last digest of the first as its seed.  So a
    shorter chain is the beginning of every longer one. *)
Theorem hash_chain_create_extend (type : EVP_MD) (seed : list byte) (n m : Z) :
  md_wf type ->
  Z.of_nat (length seed) <= INT_MAX ->
  1 <= n -> 1 <= m -> (n + m) * EVP_MD_size type <= PTRDIFF_MAX ->
  exists t1 c1 last t2 c2 t c b1 b2,
    hash_chain_create (Some seed) (Z.of_nat (length seed)) type n = (t1, Some c1)
    /\ chain_elem c1 (n - 1) = Some last
    /\ hash_chain_create (Some last) (EVP_MD_size type) type m = (t2, Some c2)
    /\ hash_chain_create (Some seed) (Z.of_nat (length seed)) type (n + m)
       = (t, Some c)
    /\ data c1 = Some b1 /\ data c2 = Some b2
    /\ data c = Some (b1 ++ b2).
Proof.
  intros Hwf Hseed Hn Hm Hmax. destruct (Hwf) as [Hpos Hlen].
  set (d := EVP_MD_size type) in *.
  set (last := Nat.iter (S (Z.to_nat (n - 1))) (md_digest type) seed).
  assert (Hlast : Z.of_nat (length last) = d) by apply Hlen.
  pose proof (hash_chain_create_spec type Hwf seed [] n Hseed Hn) as H1.
  pose proof (hash_chain_create_spec type Hwf last [] m) as H2.
  pose proof (hash_chain_create_spec type Hwf seed [] (n + m) Hseed) as H3.
  rewrite app_nil_r in H1, H2, H3. fold d in H1, H2, H3.
  rewrite Hlast in H2.
  do 9 eexists.
  split; [apply H1; unfold PTRDIFF_MAX in *; nia|].
  split; [apply (chain_elem_built type Hwf); lia|].
  split; [apply H2; unfold PTRDIFF_MAX, INT_MAX in *; nia|].
  split; [apply H3; unfold PTRDIFF_MAX in *; nia|].
  cbn [data]. split; [reflexivity|]. split; [reflexivity|].
  f_equal. rewrite <- concat_app. f_equal.
  replace (Z.to_nat (n + m)) with (Z.to_nat n + Z.to_nat m)%nat by lia.
  rewrite iter_hash_app. f_equal. unfold last.
  replace (S (Z.to_nat (n - 1))) with (Z.to_nat n) by lia. reflexivity.
Qed.

Lemma hash_chain_create_extend_witness :
  exists t1 c1 last t2 c2 t c b1 b2,
    hash_chain_create (Some seed_hello) (Z.of_nat (length seed_hello))
      (toy_md 4) 2 = (t1, Some c1)
    /\ chain_elem c1 (2 - 1) = Some last
    /\ hash_chain_create (Some last) (EVP_MD_size (toy_md 4)) (toy_md 4) 1
       = (t2, Some c2)
    /\ hash_chain_create (Some seed_hello) (Z.of_nat (length seed_hello))
         (toy_md 4) (2 + 1) = (t, Some c)
    /\ data c1 = Some b1 /\ data c2 = Some b2
    /\ data c = Some (b1 ++ b2).
Proof.
  apply (hash_chain_create_extend (toy_md 4) seed_hello 2 1);
    [apply toy_md_wf; lia | vm_compute; discriminate | lia | lia
    | vm_compute; discriminate].
Defined.

(** X2.  The result of [calloc] is not checked: for a length whose
    buffer of [n * d] bytes cannot be allocated, the seed is read and
    the first digest is written through the null pointer, where the run
    stops. *)
Theorem hash_chain_create_unchecked_allocation (type : EVP_MD)
    (seed : list byte) (n : Z) :
  md_wf type -> EVP_MD_size type <= INT_MAX ->
  Z.of_nat (length seed) <= INT_MAX ->
  1 <= n <= INT_MAX -> PTRDIFF_MAX < n * EVP_MD_size type ->
  hash_chain_create (Some seed) (Z.of_nat (length seed)) type n
  = ([EvLoad 0 (Z.of_nat (length seed)); EvStore 0 (EVP_MD_size type)], None).
Proof.
  intros [Hpos Hlen] Hd Hseed Hn Hbig.
  unfold hash_chain_create, calloc.
  rewrite (to_size_t_small n), (to_size_t_small (EVP_MD_size type)) by lia.
  replace (n * EVP_MD_size type <=? PTRDIFF_MAX) with false
    by (symmetry; apply Z.leb_gt; lia).
  unfold EVP_DigestUpdate, EVP_DigestInit_ex, EVP_DigestFinal_ex.
  cbn [ctx_type ctx_input app bind ret data].
  rewrite (to_size_t_small (Z.of_nat (length seed))) by lia.
  rewrite load_whole. cbn [bind ret app ctx_type ctx_input].
  unfold store. cbn [bind emit fault app]. now rewrite Hlen.
Qed.

Lemma hash_chain_create_unchecked_allocation_witness :
  hash_chain_create (Some seed_hello) 5 (toy_md 64) 40000000
  = ([EvLoad 0 5; EvStore 0 64], None).
Proof.
  apply (hash_chain_create_unchecked_allocation (toy_md 64) seed_hello 40000000);
    try (apply toy_md_wf; lia); vm_compute; try discriminate;
    split; discriminate.
Defined.

(** * More on the verifier *)

(** X3.  [hash_chain_verify] on pointers into any two objects: when
    [d] bytes lie behind each pointer, it returns [true] exactly when
    the hash of the [d] bytes at [h] is the [d] bytes at [tip]; it
    allocates one block of [d] bytes, frees it before it returns and
    prints nothing.  When fewer than [d] bytes lie behind [h], the run
    stops at the read of [h], after the allocation and with no block
    freed. *)
Theorem hash_chain_verify_anywhere (hash : EVP_MD) (garbage : list byte)
    (h : block) (h_off : Z) (tip : block) (tip_off : Z) :
  md_wf hash -> EVP_MD_size hash <= PTRDIFF_MAX ->
  let d := EVP_MD_size hash in
  in_bounds tip tip_off d = true ->
  (in_bounds h h_off d = true ->
   exists t b,
     hash_chain_verify garbage (Some h) h_off (Some tip) tip_off hash
     = (t, Some b)
     /\ (b = true <-> md_digest hash (slice h h_off d) = slice tip tip_off d)
     /\ filter is_heap_event t = [EvAlloc d; EvFree]
     /\ printed Stdout t = [] /\ printed Stderr t = [])
  /\ (in_bounds h h_off d = false ->
      hash_chain_verify garbage (Some h) h_off (Some tip) tip_off hash
      = ([EvAlloc d; EvLoad h_off d], None)).
Proof.
  intros Hwf Hmax d Htip. split; intros Hh.
  - pose proof (hash_chain_verify_spec hash garbage h h_off tip tip_off
                  Hwf Hmax Hh Htip) as Hrun.
    cbv zeta in Hrun. fold d in Hrun.
    eexists. eexists. split; [exact Hrun|].
    split; [|repeat split].
    rewrite Z.eqb_eq. apply memcmp_bytes_zero.
    destruct Hwf as [_ Hlen]. apply Nat2Z.inj.
    rewrite Hlen. symmetry. now apply length_slice.
  - destruct Hwf as [Hpos Hlen]. fold d in Hpos.
    assert (Hd : to_size_t d = d)
      by (apply to_size_t_small; unfold PTRDIFF_MAX, INT_MAX in *; subst d; lia).
    unfold hash_chain_verify, malloc. fold d. rewrite Hd.
    replace (d <=? PTRDIFF_MAX) with true by (symmetry; now apply Z.leb_le).
    cbn [bind emit ret app].
    unfold EVP_DigestUpdate, EVP_DigestInit_ex.
    cbn [ctx_type ctx_input app]. rewrite Hd.
    unfold load. rewrite Hh. reflexivity.
Qed.

Lemma hash_chain_verify_anywhere_witness :
  (exists t b,
      hash_chain_verify (junk 4) (Some (concat two_digests)) 0
        (Some (concat two_digests)) 4 (toy_md 4) = (t, Some b)
      /\ (b = true <->
          md_digest (toy_md 4) (slice (concat two_digests) 0 4)
          = slice (concat two_digests) 4 4)
      /\ filter is_heap_event t = [EvAlloc 4; EvFree]
      /\ printed Stdout t = [] /\ printed Stderr t = [])
  /\ hash_chain_verify (junk 4) (Some (concat two_digests)) 6
       (Some (concat two_digests)) 4 (toy_md 4)
     = ([EvAlloc 4; EvLoad 6 4], None).
Proof.
  split.
  - apply (hash_chain_verify_anywhere (toy_md 4) (junk 4)
             (concat two_digests) 0 (concat two_digests) 4);
      [apply toy_md_wf; lia | vm_compute; discriminate | reflexivity
      | reflexivity].
  - apply (hash_chain_verify_anywhere (toy_md 4) (junk 4)
             (concat two_digests) 6 (concat two_digests) 4);
      [apply toy_md_wf; lia | vm_compute; discriminate | reflexivity
      | reflexivity].
Defined.

(** * What printing does to memory *)

Lemma memory_events_app (t1 t2 : list event) :
  memory_events (t1 ++ t2) = memory_events t1 ++ memory_events t2.
Proof. apply filter_app. Qed.

Lemma memory_events_BIO_write_next (f : stream) (buf : list byte) :
  exists t, BIO_write_next f buf = (t, Some tt) /\ memory_events t = [].
Proof. destruct buf; eexists; split; reflexivity. Qed.

(** Writing through the filter only prints, whatever the filter holds
    and however long the input is. *)
Lemma memory_events_b64_write (fuel : nat) :
  forall (b : BIO) (inp : list byte),
    exists t b', b64_write fuel b inp = (t, Some b') /\ memory_events t = [].
Proof.
  induction fuel as [|fuel IH]; intros b inp.
  - destruct inp; exists [], b; split; reflexivity.
  - destruct inp as [|c r]; [exists [], b; split; reflexivity|].
    cbn [b64_write].
    destruct (EVP_EncodeUpdate _ _) as [ctx buf].
    destruct (memory_events_BIO_write_next (next_fp b) buf) as (t1 & H1 & M1).
    rewrite H1. cbn [bind].
    match goal with
    | |- context [b64_write fuel ?b' ?i] =>
        destruct (IH b' i) as (t2 & b2 & H2 & M2); rewrite H2
    end.
    exists (t1 ++ t2), b2. split; [reflexivity|].
    now rewrite memory_events_app, M1, M2.
Qed.

Lemma memory_events_BIO_flush (b : BIO) :
  exists t b', BIO_flush b = (t, Some b') /\ memory_events t = [].
Proof.
  unfold BIO_flush.
  destruct (EVP_ENCODE_CTX_num (base64 b) =? 0);
    [exists [], b; split; reflexivity|].
  destruct (EVP_EncodeFinal (base64 b)) as [ctx buf].
  destruct (memory_events_BIO_write_next (next_fp b) buf) as (t1 & H1 & M1).
  rewrite H1. cbn [bind ret]. eexists. eexists. split; [reflexivity|].
  now rewrite app_nil_r.
Qed.

Lemma memory_events_BIO_write (b : BIO) (blk : block) (off d : Z) :
  in_bounds blk off d = true -> 1 <= d ->
  exists t b',
    BIO_write b (Some blk) off d = (t, Some b')
    /\ memory_events t = [EvLoad off d].
Proof.
  intros Hb Hd. unfold BIO_write.
  replace (d <=? 0) with false by (symmetry; apply Z.leb_gt; lia).
  rewrite (load_ok blk off d Hb). cbn [bind].
  destruct (memory_events_b64_write (length (slice blk off d)) b (slice blk off d))
    as (t & b' & Hrun & Hm).
  rewrite Hrun. exists ([EvLoad off d] ++ t), b'. split; [reflexivity|].
  rewrite memory_events_app, Hm. reflexivity.
Qed.

(** The loop of [hash_chain_print] reads the elements from [i] on, one
    after the other, and does nothing else to memory. *)
Lemma hash_chain_print_loop_reads (c : hash_chain) (blk : block) (m : nat) :
  forall (fuel : nat) (bio : BIO) (i : Z),
    (m <= fuel)%nat ->
    data c = Some blk -> 1 <= digest_size c ->
    0 <= i -> i + Z.of_nat m = chain_length c ->
    Z.of_nat (length blk) = chain_length c * digest_size c ->
    chain_length c * digest_size c <= INT_MAX ->
    exists t bio',
      hash_chain_print_loop fuel bio c i = (t, Some bio')
      /\ memory_events t
         = map (fun k => EvLoad (Z.of_nat k * digest_size c) (digest_size c))
             (seq (Z.to_nat i) m).
Proof.
  induction m as [|m IH]; intros fuel bio i Hfuel Hdata Hd Hi Hm Hlen Hmax.
  - exists [], bio. split; [|reflexivity].
    destruct fuel; cbn [hash_chain_print_loop];
      (replace (i <? chain_length c) with false
         by (symmetry; apply Z.ltb_ge; lia)); reflexivity.
  - destruct fuel as [|fuel]; [lia|].
    cbn [hash_chain_print_loop].
    replace (i <? chain_length c) with true by (symmetry; apply Z.ltb_lt; lia).
    unfold int_mul, int_add.
    rewrite (wrap_int_small (i * digest_size c)) by (unfold INT_MAX in *; nia).
    rewrite (wrap_int_small (i + 1)) by (unfold INT_MAX in *; nia).
    rewrite Hdata.
    assert (Hb : in_bounds blk (i * digest_size c) (digest_size c) = true)
      by (apply in_bounds_true; nia).
    destruct (memory_events_BIO_write bio blk _ _ Hb Hd) as (t1 & b1 & H1 & M1).
    rewrite H1. cbn [bind].
    destruct (memory_events_BIO_flush b1) as (t2 & b2 & H2 & M2).
    rewrite H2. cbn [bind].
    destruct (IH fuel b2 (i + 1)) as (t3 & b3 & H3 & M3);
      try assumption; try lia.
    rewrite H3. exists (t1 ++ t2 ++ t3), b3. split; [reflexivity|].
    rewrite !memory_events_app, M1, M2, M3. cbn [app seq map].
    rewrite Z2Nat.id by lia.
    replace (Z.to_nat (i + 1)) with (S (Z.to_nat i)) by lia. reflexivity.
Qed.

(** X4.  [hash_chain_print] on a chain of [N] digests of [d >= 1]
    bytes, to any stream and for digests of any size: the run ends, it
    reads element [0], element [1], ..., element [N - 1] of the buffer,
    each once and in this order, and does nothing else to memory; for
    the empty chain it does nothing at all. *)
Theorem hash_chain_print_reads_elements (c : hash_chain) (b : block) (f : stream) :
  data c = Some b ->
  1 <= digest_size c ->
  0 <= chain_length c ->
  Z.of_nat (length b) = chain_length c * digest_size c ->
  chain_length c * digest_size c <= INT_MAX ->
  exists t,
    hash_chain_print c f = (t, Some tt)
    /\ memory_events t
       = map (fun k => EvLoad (Z.of_nat k * digest_size c) (digest_size c))
           (seq 0 (Z.to_nat (chain_length c)))
    /\ (chain_length c = 0 -> t = []).
Proof.
  intros Hdata Hd Hn Hlen Hmax. unfold hash_chain_print.
  destruct (hash_chain_print_loop_reads c b (Z.to_nat (chain_length c))
              (Z.to_nat (chain_length c)) (BIO_new_b64_fp f) 0)
    as (t & bio' & Hrun & Hm); try assumption; try lia.
  rewrite Hrun. cbn [bind ret]. exists (t ++ []). split; [reflexivity|].
  rewrite app_nil_r. split; [exact Hm|].
  intros H0. rewrite H0 in Hrun. cbn in Hrun. rewrite H0 in Hrun.
  cbn in Hrun. now injection Hrun as <- _.
Qed.

Lemma hash_chain_print_reads_elements_witness :
  exists t,
    hash_chain_print
      {| digest_size := 4; chain_length := 2;
         data := Some (concat two_digests) |} Stderr
    = (t, Some tt)
    /\ memory_events t = [EvLoad 0 4; EvLoad 4 4].
Proof.
  destruct (hash_chain_print_reads_elements
              {| digest_size := 4; chain_length := 2;
                 data := Some (concat two_digests) |}
              (concat two_digests) Stderr)
    as (t & Hrun & Hm & _);
    [reflexivity | vm_compute; discriminate | vm_compute; discriminate
    | reflexivity | vm_compute; discriminate |].
  exists t. split; [exact Hrun | exact Hm].
Defined.

(** * The accesses of [base64_decode] *)

Lemma heap_events_copy_events (copies : list (list byte)) :
  forall off, filter is_heap_event (copy_events off copies) = [].
Proof.
  induction copies as [|c rest IH]; intros off; [reflexivity|].
  cbn [copy_events]. destruct c; cbn [app filter is_heap_event]; apply IH.
Qed.

Lemma loads_copy_events (copies : list (list byte)) :
  forall off, filter is_load (copy_events off copies) = [].
Proof.
  induction copies as [|c rest IH]; intros off; [reflexivity|].
  cbn [copy_events]. destruct c; cbn [app filter is_load]; apply IH.
Qed.

(** Copies that fit behind [off] in a block of [size] bytes are stored
    inside it. *)
Lemma copy_events_within (size : Z) (copies : list (list byte)) :
  forall off,
    0 <= off -> off + Z.of_nat (length (concat copies)) <= size ->
    Forall (access_within size) (copy_events off copies).
Proof.
  induction copies as [|c rest IH]; intros off Hoff Hfit; [constructor|].
  cbn [concat] in Hfit. rewrite length_app in Hfit.
  cbn [copy_events]. apply Forall_app. split.
  - destruct c; repeat constructor; cbn [access_within]; lia.
  - apply IH; lia.
Qed.

(** X5.  [base64_decode] allocates one block of [explen] bytes, which
    it does not free (the caller has to), and reads no memory block.
    What the filter delivers is stored as its rounds deliver it, each
    piece behind the one before from the start of the block; the
    pieces are the bytes delivered, at most [explen] together, so
    every store is inside the block. *)
Theorem base64_decode_writes_in_bounds (garbage str : list byte) (explen : Z) :
  0 <= explen <= PTRDIFF_MAX ->
  exists t buf copies,
    base64_decode garbage str explen = (t, Some (Some buf))
    /\ t = EvAlloc explen :: copy_events 0 copies
    /\ concat copies = snd (BIO_read str explen)
    /\ Z.of_nat (length (concat copies)) <= explen
    /\ Forall (access_within explen) t
    /\ filter is_heap_event t = [EvAlloc explen]
    /\ filter is_load t = [].
Proof.
  intros Hexp. rewrite (base64_decode_run garbage str explen Hexp).
  pose proof (BIO_read_length str explen (proj1 Hexp)) as Hlen.
  rewrite <- BIO_read_copies_concat in Hlen.
  exists (decode_trace str explen), (decoded garbage str explen),
    (BIO_read_copies str explen).
  split; [reflexivity|]. split; [reflexivity|].
  split; [apply BIO_read_copies_concat|]. split; [exact Hlen|].
  unfold decode_trace. split; [|split].
  - constructor; [exact I|]. apply copy_events_within; lia.
  - cbn [filter is_heap_event]. now rewrite heap_events_copy_events.
  - cbn [filter is_load]. apply loads_copy_events.
Qed.

Lemma base64_decode_writes_in_bounds_witness :
  exists buf,
    base64_decode (junk 32) padded_text 32
    = ([EvAlloc 32; EvStore 0 18; EvStore 18 14], Some (Some buf))
    /\ Forall (access_within 32) [EvAlloc 32; EvStore 0 18; EvStore 18 14].
Proof.
  destruct (base64_decode_writes_in_bounds (junk 32) padded_text 32)
    as (t & buf & copies & Hrun & _ & _ & _ & Hacc & _);
    [vm_compute; split; discriminate|].
  assert (Ht : t = [EvAlloc 32; EvStore 0 18; EvStore 18 14])
    by (apply (f_equal fst) in Hrun; vm_compute in Hrun; now symmetry).
  subst t. exists buf. split; [exact Hrun | exact Hacc].
Defined.

(** * The runs of [cmd_create] *)

Lemma heap_events_memory_events (t : list event) :
  filter is_heap_event t = filter is_heap_event (memory_events t).
Proof.
  induction t as [|e t IH]; [reflexivity|].
  unfold memory_events in *. destruct e; cbn [filter is_print negb is_heap_event];
    now rewrite IH.
Qed.

Lemma heap_events_loads (g : nat -> Z) (d : Z) (l : list nat) :
  filter is_heap_event (map (fun k => EvLoad (g k) d) l) = [].
Proof. induction l as [|k l IH]; [reflexivity | exact IH]. Qed.

Lemma heap_events_app (t1 t2 : list event) :
  filter is_heap_event (t1 ++ t2)
  = filter is_heap_event t1 ++ filter is_heap_event t2.
Proof. apply filter_app. Qed.

(** The run of [cmd_create] on a length argument that converts to
    [n >= 1]: the chain is built, printed and freed. *)
Lemma cmd_create_run (digests : list byte -> option EVP_MD)
    (argc : Z) (argv : list (list byte)) (hash : EVP_MD) (n : Z) :
  4 <= argc ->
  digests (c_string (nth 1 argv [])) = Some hash ->
  md_wf hash ->
  strlen (nth 3 argv []) <= INT_MAX ->
  sscanf_d (nth 2 argv []) = Some n ->
  1 <= n -> n * EVP_MD_size hash <= PTRDIFF_MAX ->
  exists tp,
    hash_chain_print
      {| digest_size := EVP_MD_size hash; chain_length := n;
         data := Some (concat (iter_hash (md_digest hash) (Z.to_nat n)
                                 (c_string (nth 3 argv [])))) |} Stdout
    = (tp, Some tt)
    /\ filter is_heap_event tp = []
    /\ cmd_create digests argc argv
       = (create_trace (strlen (nth 3 argv [])) (EVP_MD_size hash) n
            ++ tp ++ [EvFree],
          Some EXIT_SUCCESS).
Proof.
  intros Hargc Hhash Hwf Hstr Hscan Hn Hmax. destruct (Hwf) as [Hpos Hlen].
  unfold cmd_create.
  replace (argc <? 4) with false by (symmetry; apply Z.ltb_ge; lia).
  rewrite Hhash, Hscan.
  destruct (c_string_prefix (nth 3 argv [])) as [tail Htail].
  unfold strlen in *.
  rewrite wrap_int_small by (unfold INT_MAX in *; lia).
  replace (Some (nth 3 argv []))
    with (Some (c_string (nth 3 argv []) ++ tail)) by (now rewrite <- Htail).
  rewrite (hash_chain_create_spec hash Hwf) by assumption.
  cbn [bind].
  set (elems := iter_hash (md_digest hash) (Z.to_nat n)
                  (c_string (nth 3 argv []))).
  set (c := {| digest_size := EVP_MD_size hash; chain_length := n;
               data := Some (concat elems) |}).
  assert (Hall : Forall (fun e => length e = Z.to_nat (EVP_MD_size hash)) elems)
    by (apply Forall_length_iter_hash; intros y; specialize (Hlen y); lia).
  assert (Hcat : Z.of_nat (length (concat elems)) = n * EVP_MD_size hash).
  { rewrite (length_concat_uniform elems _ Hall). unfold elems.
    rewrite length_iter_hash. nia. }
  destruct (hash_chain_print_loop_reads c (concat elems) (Z.to_nat n)
              (Z.to_nat n) (BIO_new_b64_fp Stdout) 0)
    as (tp & bio' & Hrun & Hm); try reflexivity;
    cbn [c digest_size chain_length];
    try (unfold PTRDIFF_MAX, INT_MAX in *; lia).
  unfold hash_chain_print. cbn [c chain_length] in *. rewrite Hrun.
  cbn [bind free data emit ret].
  exists (tp ++ []). split; [reflexivity|]. split.
  - rewrite app_nil_r, heap_events_memory_events, Hm.
    apply heap_events_loads.
  - now rewrite !app_nil_r.
Qed.

(** Digests of at most 48 bytes take one line each. *)
Lemma map_wrap64_short (elems : list (list byte)) (dn : nat) :
  Forall (fun e => length e = dn) elems -> (1 <= dn <= 48)%nat ->
  map wrap64 elems = map (fun e => EVP_EncodeBlock e ++ [NL]) elems.
Proof.
  intros Hall Hd. induction Hall as [|e l He Hall IH]; [reflexivity|].
  cbn [map]. rewrite IH. f_equal. apply wrap64_short; [|lia].
  destruct e; [cbn in He; lia | discriminate].
Qed.

(** X6.  [cmd_create] with a known digest of at most 1024 bytes and a
    length argument that converts to [n >= 1]: it returns
    [EXIT_SUCCESS], writes nothing to [stderr] and writes to [stdout]
    the chain [H seed, H (H seed), ...] of [n] digests over the bytes of
    the seed argument, each as base64 in lines of 64 characters; for a
    digest of at most 48 bytes that is one line for each element.  The
    buffer of the chain is the only block allocated, and it is freed. *)
Theorem cmd_create_prints_chain (digests : list byte -> option EVP_MD)
    (argc : Z) (argv : list (list byte)) (hash : EVP_MD) (n : Z) :
  4 <= argc ->
  digests (c_string (nth 1 argv [])) = Some hash ->
  md_wf hash -> EVP_MD_size hash <= B64_BLOCK_SIZE ->
  strlen (nth 3 argv []) <= INT_MAX ->
  sscanf_d (nth 2 argv []) = Some n ->
  1 <= n -> n * EVP_MD_size hash <= PTRDIFF_MAX ->
  let elems := iter_hash (md_digest hash) (Z.to_nat n)
                 (c_string (nth 3 argv [])) in
  exists t,
    cmd_create digests argc argv = (t, Some EXIT_SUCCESS)
    /\ printed Stdout t = concat (map wrap64 elems)
    /\ (EVP_MD_size hash <= 48 ->
        printed Stdout t
        = concat (map (fun e => EVP_EncodeBlock e ++ [NL]) elems))
    /\ printed Stderr t = []
    /\ filter is_heap_event t = [EvAlloc (n * EVP_MD_size hash); EvFree].
Proof.
  intros Hargc Hhash Hwf Hd Hstr Hscan Hn Hmax elems.
  destruct (Hwf) as [Hpos Hlen].
  destruct (cmd_create_run digests argc argv hash n)
    as (tp & Hprint & Hheap & Hrun); try assumption.
  fold elems in Hprint.
  assert (Hall : Forall (fun e => length e = Z.to_nat (EVP_MD_size hash)) elems)
    by (apply Forall_length_iter_hash; intros y; specialize (Hlen y); lia).
  assert (Hcount : n = Z.of_nat (length elems))
    by (unfold elems; rewrite length_iter_hash; lia).
  destruct (hash_chain_print_spec Stdout elems (EVP_MD_size hash) Hall)
    as (t & Hrun' & Hp & Hq); [lia | unfold PTRDIFF_MAX, INT_MAX in *; lia |].
  rewrite <- Hcount, Hprint in Hrun'. injection Hrun' as <-.
  assert (Hout : printed Stdout
                   (create_trace (strlen (nth 3 argv [])) (EVP_MD_size hash) n
                      ++ tp ++ [EvFree])
                 = concat (map wrap64 elems)).
  { unfold create_trace. cbn [app printed].
    rewrite !printed_app, !printed_loop_trace, Hp. cbn [printed app].
    now rewrite app_nil_r. }
  eexists. split; [exact Hrun|]. split; [exact Hout|].
  split; [|split].
  - intros H48. rewrite Hout. f_equal.
    apply (map_wrap64_short elems _ Hall). lia.
  - unfold create_trace. cbn [app printed].
    rewrite !printed_app, !printed_loop_trace, (Hq Stderr eq_refl).
    reflexivity.
  - unfold create_trace. cbn [app filter is_heap_event].
    rewrite !heap_events_app, filter_heap_loop_trace, Hheap. reflexivity.
Qed.

Lemma cmd_create_prints_chain_witness :
  exists t,
    cmd_create toy_digests 4 (argv_create "2") = (t, Some EXIT_SUCCESS)
    /\ printed Stdout t = text "GSAnLg==" ++ [NL] ++ text "kpmgpw==" ++ [NL]
    /\ filter is_heap_event t = [EvAlloc 8; EvFree].
Proof.
  destruct (cmd_create_prints_chain toy_digests 4 (argv_create "2") (toy_md 4) 2)
    as (t & Hrun & Hout & _ & _ & Hheap);
    [lia | reflexivity | apply toy_md_wf; lia | vm_compute; discriminate
    | vm_compute; discriminate | reflexivity | lia | vm_compute; discriminate |].
  exists t. split; [exact Hrun|]. split; [exact Hout | exact Hheap].
Defined.

(** A run whose last step can only return [v] returns [v] or stops
    early. *)
Lemma snd_bind_const {A B : Type} (m : M A) (k : A -> M B) (v : B) :
  (forall a, snd (k a) = None \/ snd (k a) = Some v) ->
  snd (bind m k) = None \/ snd (bind m k) = Some v.
Proof.
  intros Hk. destruct m as [t [a|]]; [|now left]. cbn [bind].
  specialize (Hk a). destruct (k a) as [t' r]. exact Hk.
Qed.

(** X7.  [cmd_create] returns [EXIT_FAILURE] exactly when it has
    fewer than four arguments, the digest name is unknown or the length
    argument does not start with an integer.  In these runs it writes
    nothing to [stdout], touches no memory, and what it writes to
    [stderr] starts with [error: ]. *)
Theorem cmd_create_failure (digests : list byte -> option EVP_MD)
    (argc : Z) (argv : list (list byte)) :
  (snd (cmd_create digests argc argv) = Some EXIT_FAILURE <->
   argc < 4 \/ digests (c_string (nth 1 argv [])) = None
   \/ sscanf_d (nth 2 argv []) = None)
  /\ (snd (cmd_create digests argc argv) = Some EXIT_FAILURE ->
      printed Stdout (fst (cmd_create digests argc argv)) = []
      /\ memory_events (fst (cmd_create digests argc argv)) = []
      /\ firstn 7 (printed Stderr (fst (cmd_create digests argc argv)))
         = text "error: ").
Proof.
  unfold cmd_create.
  destruct (argc <? 4) eqn:Hargc.
  { apply Z.ltb_lt in Hargc. split; [split; [now left | reflexivity]|].
    intros _. repeat split. }
  apply Z.ltb_ge in Hargc.
  destruct (digests (c_string (nth 1 argv []))) as [hash|] eqn:Hhash.
  2:{ split; [split; [now right; left | reflexivity]|]. intros _. repeat split. }
  destruct (sscanf_d (nth 2 argv [])) as [n|] eqn:Hscan.
  2:{ split; [split; [now right; right | reflexivity]|]. intros _. repeat split. }
  match goal with
  | |- context [snd (bind ?m ?k)] =>
      assert (Hs : snd (bind m k) = None \/ snd (bind m k) = Some EXIT_SUCCESS)
  end.
  { apply snd_bind_const. intros c. apply snd_bind_const. intros _.
    apply snd_bind_const. intros _. now right. }
  assert (Hne : snd
    (chain <-
     hash_chain_create (Some (nth 3 argv [])) (wrap_int (strlen (nth 3 argv [])))
       hash n;; hash_chain_print chain Stdout;;; free (data chain);;; ret EXIT_SUCCESS)
    <> Some EXIT_FAILURE)
    by (destruct Hs as [-> | ->]; discriminate).
  split; [|intros Hf; contradiction].
  split; [intros Hf; contradiction|].
  intros [Hc | [Hc | Hc]]; [lia | discriminate | discriminate].
Qed.

Lemma cmd_create_failure_witness :
  snd (cmd_create toy_digests 4 (argv_create "many")) = Some EXIT_FAILURE
  /\ printed Stdout (fst (cmd_create toy_digests 4 (argv_create "many"))) = []
  /\ memory_events (fst (cmd_create toy_digests 4 (argv_create "many"))) = [].
Proof.
  destruct (cmd_create_failure toy_digests 4 (argv_create "many"))
    as [Hiff Hquiet].
  assert (Hf : snd (cmd_create toy_digests 4 (argv_create "many"))
               = Some EXIT_FAILURE)
    by (apply Hiff; right; right; reflexivity).
  split; [exact Hf|]. destruct (Hquiet Hf) as (Hout & Hmem & _).
  split; [exact Hout | exact Hmem].
Defined.

Lemma isdigit_inv (c : byte) :
  isdigit c = true -> 48 <= Z_of_byte c <= 57.
Proof. unfold isdigit. cbv zeta. rewrite andb_true_iff, !Z.leb_le. tauto. Qed.

Lemma c_string_digits (ds rest : list byte) :
  forallb isdigit ds = true -> c_string (ds ++ rest) = ds ++ c_string rest.
Proof.
  induction ds as [|c ds IH]; [reflexivity|].
  cbn [forallb app c_string]. rewrite andb_true_iff. intros [Hc Hds].
  apply isdigit_inv in Hc.
  replace (Z_of_byte c =? 0) with false by (symmetry; apply Z.eqb_neq; lia).
  now rewrite IH.
Qed.

Lemma scan_digits_app (ds rest : list byte) (acc : Z) :
  forallb isdigit ds = true ->
  scan_digits (ds ++ rest) acc = scan_digits rest (scan_digits ds acc).
Proof.
  revert acc. induction ds as [|c ds IH]; intros acc; [reflexivity|].
  cbn [forallb app scan_digits]. rewrite andb_true_iff. intros [Hc Hds].
  rewrite Hc. now apply IH.
Qed.

(** [sscanf] stops at the first character that is not a digit: what
    follows the number is not looked at. *)
Lemma sscanf_d_number (ds tail : list byte) :
  ds <> [] -> forallb isdigit ds = true ->
  match tail with [] => True | c :: _ => isdigit c = false end ->
  sscanf_d (ds ++ tail) = Some (wrap_int (scan_digits ds 0)).
Proof.
  intros Hne Hds Htail. unfold sscanf_d.
  rewrite (c_string_digits ds tail Hds).
  destruct ds as [|x ds]; [contradiction|].
  pose proof Hds as Hall.
  cbn [forallb] in Hds. apply andb_true_iff in Hds. destruct Hds as [Hx Hds].
  pose proof (isdigit_inv x Hx) as Hr.
  assert (Hsp : isspace x = false).
  { unfold isspace. cbv zeta. apply orb_false_iff. split.
    - apply Z.eqb_neq. lia.
    - apply andb_false_iff. right. apply Z.leb_gt. lia. }
  cbn [app skip_space]. rewrite Hsp.
  replace (Z_of_byte x =? 45) with false by (symmetry; apply Z.eqb_neq; lia).
  replace (Z_of_byte x =? 43) with false by (symmetry; apply Z.eqb_neq; lia).
  rewrite Hx. do 2 f_equal.
  change (x :: ds ++ c_string tail) with ((x :: ds) ++ c_string tail).
  rewrite (scan_digits_app (x :: ds) (c_string tail) 0 Hall).
  destruct tail as [|c r]; [reflexivity|].
  cbn [c_string]. destruct (Z_of_byte c =? 0); [reflexivity|].
  cbn [scan_digits]. now rewrite Htail.
Qed.

(** X8.  The length argument is read as far as it is a number: a
    length of digits followed by other characters runs the command as
    the digits alone do. *)
Theorem cmd_create_length_prefix (digests : list byte -> option EVP_MD)
    (argc : Z) (prog name ds rest seed : list byte) (c : byte) :
  ds <> [] -> forallb isdigit ds = true -> isdigit c = false ->
  cmd_create digests argc [prog; name; ds ++ c :: rest; seed]
  = cmd_create digests argc [prog; name; ds; seed].
Proof.
  intros Hne Hds Hc. unfold cmd_create. cbn [nth].
  rewrite (sscanf_d_number ds (c :: rest) Hne Hds Hc).
  pose proof (sscanf_d_number ds [] Hne Hds I) as Hscan.
  rewrite app_nil_r in Hscan. rewrite Hscan. reflexivity.
Qed.

Lemma cmd_create_length_prefix_witness :
  cmd_create toy_digests 4 [text "create"; text "toy4"; text "3abc"; text "hello"]
  = cmd_create toy_digests 4 [text "create"; text "toy4"; text "3"; text "hello"].
Proof.
  apply (cmd_create_length_prefix toy_digests 4 (text "create") (text "toy4")
           (text "3") (text "bc") (text "hello") "a"%byte);
    [discriminate | reflexivity | reflexivity].
Defined.

(** X9.  The output of [cmd_create] for the length [n] is the
    beginning of its output for the length [n + m], same digest (of at
    most 1024 bytes) and seed, when the buffer of the longer chain can
    be allocated; what follows is the text of the [m] digests that
    continue the chain. *)
Theorem cmd_create_output_prefix (digests : list byte -> option EVP_MD)
    (argc : Z) (prog name len1 len2 seed : list byte) (hash : EVP_MD)
    (n m : Z) :
  4 <= argc ->
  digests (c_string name) = Some hash ->
  md_wf hash -> EVP_MD_size hash <= B64_BLOCK_SIZE ->
  strlen seed <= INT_MAX ->
  sscanf_d len1 = Some n -> sscanf_d len2 = Some (n + m) ->
  1 <= n -> 0 <= m -> (n + m) * EVP_MD_size hash <= PTRDIFF_MAX ->
  exists t1 t2,
    cmd_create digests argc [prog; name; len1; seed] = (t1, Some EXIT_SUCCESS)
    /\ cmd_create digests argc [prog; name; len2; seed] = (t2, Some EXIT_SUCCESS)
    /\ printed Stdout t2
       = printed Stdout t1
           ++ concat (map wrap64
                        (iter_hash (md_digest hash) (Z.to_nat m)
                           (Nat.iter (Z.to_nat n) (md_digest hash)
                              (c_string seed)))).
Proof.
  intros Hargc Hhash Hwf Hd Hstr Hs1 Hs2 Hn Hm Hmax.
  destruct (Hwf) as [Hpos _].
  destruct (cmd_create_positive_length digests argc [prog; name; len1; seed]
              hash n) as (t1 & Hrun1 & Hp1 & _);
    try assumption; try (unfold PTRDIFF_MAX in *; nia).
  destruct (cmd_create_positive_length digests argc [prog; name; len2; seed]
              hash (n + m)) as (t2 & Hrun2 & Hp2 & _);
    try assumption; try lia.
  cbn [nth] in Hp1, Hp2.
  exists t1, t2. split; [exact Hrun1|]. split; [exact Hrun2|].
  rewrite Hp1, Hp2.
  replace (Z.to_nat (n + m)) with (Z.to_nat n + Z.to_nat m)%nat by lia.
  now rewrite iter_hash_app, map_app, concat_app.
Qed.

Lemma cmd_create_output_prefix_witness :
  exists t1 t2,
    cmd_create toy_digests 4 (argv_create "1") = (t1, Some EXIT_SUCCESS)
    /\ cmd_create toy_digests 4 (argv_create "2") = (t2, Some EXIT_SUCCESS)
    /\ printed Stdout t2 = printed Stdout t1 ++ text "kpmgpw==" ++ [NL].
Proof.
  destruct (cmd_create_output_prefix toy_digests 4 (text "create") (text "toy4")
              (text "1") (text "2") (text "hello") (toy_md 4) 1 1)
    as (t1 & t2 & H1 & H2 & Hp);
    [lia | reflexivity | apply toy_md_wf; lia | vm_compute; discriminate
    | vm_compute; discriminate | reflexivity | reflexivity | lia | lia
    | vm_compute; discriminate |].
  exists t1, t2. split; [exact H1|]. split; [exact H2 | exact Hp].
Defined.

(** * The runs of [cmd_verify] *)

Lemma heap_events_decode_trace (str : list byte) (explen : Z) :
  filter is_heap_event (decode_trace str explen) = [EvAlloc explen].
Proof.
  unfold decode_trace. cbn [filter is_heap_event].
  now rewrite heap_events_copy_events.
Qed.

Lemma printed_decode_trace (f : stream) (str : list byte) (explen : Z) :
  printed f (decode_trace str explen) = [].
Proof. unfold decode_trace. cbn [printed]. apply printed_copy_events. Qed.

(** The run of [cmd_verify] with a known digest: two blocks are decoded
    into, the candidate is hashed and compared, the three blocks are
    freed and the verdict is printed. *)
Lemma cmd_verify_run (digests : list byte -> option EVP_MD)
    (gq gt gd : list byte) (argc : Z) (argv : list (list byte)) (hash : EVP_MD) :
  4 <= argc ->
  digests (c_string (nth 1 argv [])) = Some hash ->
  md_wf hash -> EVP_MD_size hash <= PTRDIFF_MAX ->
  let d := EVP_MD_size hash in
  let ok := memcmp_bytes (md_digest hash (decoded gq (nth 2 argv []) d))
              (decoded gt (nth 3 argv []) d) =? 0 in
  cmd_verify digests gq gt gd argc argv
  = (decode_trace (nth 2 argv []) d ++ decode_trace (nth 3 argv []) d
       ++ [EvAlloc d; EvLoad 0 d; EvStore 0 d; EvLoad 0 d; EvLoad 0 d; EvFree;
           EvFree; EvFree;
           EvPrint Stdout
             ((if ok then text "success" else text "failure") ++ [NL])],
     Some (if ok then EXIT_SUCCESS else EXIT_FAILURE)).
Proof.
  intros Hargc Hhash Hwf Hmax d ok. destruct (Hwf) as [Hpos _]. fold d in Hpos.
  unfold cmd_verify.
  replace (argc <? 4) with false by (symmetry; apply Z.ltb_ge; lia).
  rewrite Hhash. cbv zeta. fold d.
  assert (Hexp : 0 <= d <= PTRDIFF_MAX) by (fold d in Hmax; lia).
  destruct (base64_decode_spec gq (nth 2 argv []) d Hexp) as (t1 & _ & Hlen1 & _).
  destruct (base64_decode_spec gt (nth 3 argv []) d Hexp) as (t2 & _ & Hlen2 & _).
  rewrite !base64_decode_run by exact Hexp.
  pose proof (hash_chain_verify_spec hash gd
                (decoded gq (nth 2 argv []) d) 0
                (decoded gt (nth 3 argv []) d) 0 Hwf Hmax) as Hrun3.
  cbv zeta in Hrun3. fold d in Hrun3.
  rewrite (slice_all _ _ Hlen1), (slice_all _ _ Hlen2) in Hrun3.
  fold ok in Hrun3.
  cbn [bind].
  rewrite Hrun3 by (apply in_bounds_true; lia).
  cbn [bind free emit app]. fold (decode_trace (nth 2 argv []) d).
  fold (decode_trace (nth 3 argv []) d).
  destruct ok; cbn [fprintf emit bind ret app]; rewrite ?app_nil_r;
    rewrite <- ?app_assoc; reflexivity.
Qed.

(** The one-line base64 text of a digest decodes to the digest. *)
Lemma decoded_digest (garbage bs : list byte) (d : Z) :
  (length bs <= 768)%nat -> Z.of_nat (length bs) = d ->
  decoded garbage (EVP_EncodeBlock bs) d = bs.
Proof.
  intros Hbs Hd. rewrite decoded_encoded by lia.
  replace (Z.to_nat d) with (length bs) by lia.
  rewrite firstn_all, skipn_all2 by (rewrite length_resize; lia).
  apply app_nil_r.
Qed.

(** X10.  [cmd_verify] on the one-line base64 texts of two digests
    [q] and [a] of the digest's size (at most 768 bytes): it returns
    [EXIT_SUCCESS] exactly when [H q = a]; it writes [success] or
    [failure], accordingly, and a newline to [stdout] and nothing to
    [stderr]; it allocates three blocks of [d] bytes and frees the
    three. *)
Theorem cmd_verify_checks_link (digests : list byte -> option EVP_MD)
    (gq gt gd : list byte) (argc : Z) (prog name : list byte)
    (hash : EVP_MD) (q a : list byte) :
  4 <= argc ->
  digests (c_string name) = Some hash ->
  md_wf hash -> EVP_MD_size hash <= 768 ->
  Z.of_nat (length q) = EVP_MD_size hash ->
  Z.of_nat (length a) = EVP_MD_size hash ->
  exists t r,
    cmd_verify digests gq gt gd argc
      [prog; name; EVP_EncodeBlock q; EVP_EncodeBlock a]
    = (t, Some r)
    /\ (r = EXIT_SUCCESS <-> md_digest hash q = a)
    /\ printed Stdout t
       = (if r =? EXIT_SUCCESS then text "success" else text "failure") ++ [NL]
    /\ printed Stderr t = []
    /\ filter is_heap_event t
       = [EvAlloc (EVP_MD_size hash); EvAlloc (EVP_MD_size hash);
          EvAlloc (EVP_MD_size hash); EvFree; EvFree; EvFree].
Proof.
  intros Hargc Hhash Hwf Hd Hq Ha. destruct (Hwf) as [Hpos Hlen].
  pose proof (cmd_verify_run digests gq gt gd argc
                [prog; name; EVP_EncodeBlock q; EVP_EncodeBlock a] hash
                Hargc Hhash Hwf) as Hrun.
  cbv zeta in Hrun. cbn [nth] in Hrun.
  rewrite Hrun by (unfold PTRDIFF_MAX; lia). clear Hrun.
  rewrite !decoded_digest by lia.
  assert (Hok : memcmp_bytes (md_digest hash q) a = 0 <-> md_digest hash q = a)
    by (apply memcmp_bytes_zero, Nat2Z.inj; rewrite Hlen; lia).
  eexists. eexists. split; [reflexivity|].
  split; [|split; [|split]].
  - destruct (memcmp_bytes (md_digest hash q) a =? 0) eqn:Hc.
    + apply Z.eqb_eq in Hc. split; [intros _; now apply Hok | reflexivity].
    + apply Z.eqb_neq in Hc. split; [discriminate|].
      intros He. elim Hc. now apply Hok.
  - rewrite !printed_app, !printed_decode_trace.
    cbn [printed app same_stream]. rewrite app_nil_r.
    now destruct (memcmp_bytes (md_digest hash q) a =? 0).
  - rewrite !printed_app, !printed_decode_trace. reflexivity.
  - rewrite !heap_events_app, !heap_events_decode_trace. reflexivity.
Qed.

Lemma cmd_verify_checks_link_witness :
  exists t,
    cmd_verify toy_digests (junk 4) (junk 4) (junk 4) 4
      [text "verify"; text "toy4";
       EVP_EncodeBlock (toy_digest 4 seed_hello);
       EVP_EncodeBlock (toy_digest 4 (toy_digest 4 seed_hello))]
    = (t, Some EXIT_SUCCESS)
    /\ filter is_heap_event t
       = [EvAlloc 4; EvAlloc 4; EvAlloc 4; EvFree; EvFree; EvFree].
Proof.
  destruct (cmd_verify_checks_link toy_digests (junk 4) (junk 4) (junk 4) 4
              (text "verify") (text "toy4") (toy_md 4)
              (toy_digest 4 seed_hello)
              (toy_digest 4 (toy_digest 4 seed_hello)))
    as (t & r & Hrun & Hiff & _ & _ & Hheap);
    [lia | reflexivity | apply toy_md_wf; lia | vm_compute; discriminate
    | reflexivity | reflexivity |].
  assert (Hr : r = EXIT_SUCCESS) by (apply Hiff; reflexivity).
  subst r. exists t. split; [exact Hrun | exact Hheap].
Defined.

(** X11.  When the base64 filter delivers no byte for the query
    argument (an empty argument, say), the candidate [cmd_verify]
    hashes is the block as [malloc] returned it: the command returns
    [EXIT_SUCCESS] exactly when the hash of the old content of that
    block is the anchor. *)
Theorem cmd_verify_undecoded_query (digests : list byte -> option EVP_MD)
    (gq gt gd : list byte) (argc : Z) (prog name query : list byte)
    (hash : EVP_MD) (a : list byte) :
  4 <= argc ->
  digests (c_string name) = Some hash ->
  md_wf hash -> EVP_MD_size hash <= 768 ->
  Z.of_nat (length a) = EVP_MD_size hash ->
  snd (BIO_read query (EVP_MD_size hash)) = [] ->
  exists t r,
    cmd_verify digests gq gt gd argc [prog; name; query; EVP_EncodeBlock a]
    = (t, Some r)
    /\ (r = EXIT_SUCCESS <->
        md_digest hash (resize (Z.to_nat (EVP_MD_size hash)) gq) = a).
Proof.
  intros Hargc Hhash Hwf Hd Ha Hq. destruct (Hwf) as [Hpos Hlen].
  pose proof (cmd_verify_run digests gq gt gd argc
                [prog; name; query; EVP_EncodeBlock a] hash
                Hargc Hhash Hwf) as Hrun.
  cbv zeta in Hrun. cbn [nth] in Hrun.
  rewrite Hrun by (unfold PTRDIFF_MAX; lia). clear Hrun.
  rewrite (decoded_digest gt a) by lia.
  unfold decoded at 1 2. rewrite Hq. cbn [app length skipn].
  assert (Hok : forall x, memcmp_bytes (md_digest hash x) a = 0
                          <-> md_digest hash x = a)
    by (intros x; apply memcmp_bytes_zero, Nat2Z.inj; rewrite Hlen; lia).
  eexists. eexists. split; [reflexivity|].
  match goal with |- context [?m =? 0] => destruct (m =? 0) eqn:Hc end.
  - apply Z.eqb_eq in Hc. split; [intros _; now apply Hok | reflexivity].
  - apply Z.eqb_neq in Hc. split; [discriminate|].
    intros He. elim Hc. now apply Hok.
Qed.

Lemma cmd_verify_undecoded_query_witness :
  exists t,
    cmd_verify toy_digests (toy_digest 4 seed_hello) [] [] 4
      [text "verify"; text "toy4"; [];
       EVP_EncodeBlock (toy_digest 4 (toy_digest 4 seed_hello))]
    = (t, Some EXIT_SUCCESS).
Proof.
  destruct (cmd_verify_undecoded_query toy_digests (toy_digest 4 seed_hello)
              [] [] 4 (text "verify") (text "toy4") [] (toy_md 4)
              (toy_digest 4 (toy_digest 4 seed_hello)))
    as (t & r & Hrun & Hiff);
    [lia | reflexivity | apply toy_md_wf; lia | vm_compute; discriminate
    | reflexivity | reflexivity |].
  assert (Hr : r = EXIT_SUCCESS) by (apply Hiff; reflexivity).
  subst r. exists t. exact Hrun.
Defined.

(** Up to three characters behind the base64 text of a digest do not
    change what is read at the digest's length. *)
Lemma BIO_read_suffix (bs suffix : list byte) :
  forallb nonzero suffix = true -> (length suffix < 4)%nat ->
  (1 <= length bs <= 765)%nat ->
  BIO_read (EVP_EncodeBlock bs ++ suffix) (Z.of_nat (length bs))
  = BIO_read (EVP_EncodeBlock bs) (Z.of_nat (length bs)).
Proof.
  intros Hnz Hshort Hbs.
  rewrite BIO_read_encoded by lia.
  rewrite BIO_read_encoded_line; try assumption; try lia.
  - f_equal. lia.
  - destruct (EVP_EncodeBlock_facts bs) as (_ & Hl & _). rewrite Hl.
    assert ((length bs + 2) / 3 < 256)%nat
      by (apply Nat.Div0.div_lt_upper_bound; lia).
    lia.
Qed.

Lemma b64_read_copies_S (fuel : nat) (src tmp : list byte) (cont outl : Z) :
  b64_read_copies (S fuel) src tmp cont outl
  = if outl <=? 0 then []
    else if cont <=? 0 then []
    else match b64_read_round src tmp outl [] 0 with
         | Break _ _ => []
         | Next src tmp cont outl copied _ =>
             copied :: b64_read_copies fuel src tmp cont outl
         end.
Proof. reflexivity. Qed.

(** The copy of the one round that reads such a text. *)
Lemma BIO_read_copies_suffix (bs suffix : list byte) :
  forallb nonzero suffix = true -> (length suffix < 4)%nat ->
  (1 <= length bs <= 765)%nat ->
  BIO_read_copies (EVP_EncodeBlock bs ++ suffix) (Z.of_nat (length bs))
  = [bs].
Proof.
  intros Hnz Hshort Hbs. unfold BIO_read_copies. cbv zeta.
  rewrite c_string_nonzero
    by (rewrite forallb_app, nonzero_encoded, Hnz; reflexivity).
  assert (Hne : bs <> []) by (destruct bs; [cbn in Hbs; lia | discriminate]).
  assert (Hfits : (length (EVP_EncodeBlock bs) + length suffix <= 1024)%nat).
  { destruct (EVP_EncodeBlock_facts bs) as (_ & Hl & _). rewrite Hl.
    assert ((length bs + 2) / 3 < 256)%nat
      by (apply Nat.Div0.div_lt_upper_bound; lia).
    lia. }
  rewrite b64_read_copies_S.
  replace (Z.of_nat (length bs) <=? 0) with false
    by (symmetry; apply Z.leb_gt; lia).
  cbn [Z.leb Z.compare].
  rewrite (b64_read_round_encoded bs suffix _ _ _ Hne Hfits Hshort).
  rewrite Z.min_l by lia. rewrite Z.sub_diag, Nat2Z.id, firstn_all.
  reflexivity.
Qed.

(** X12.  [cmd_verify] reads the base64 text of a digest and no
    further: up to three characters behind the text of the query or of
    the anchor, a newline or any others, leave the run as it is without
    them.  So a line can be passed with its end of line. *)
Theorem cmd_verify_ignores_suffix (digests : list byte -> option EVP_MD)
    (gq gt gd : list byte) (argc : Z) (prog name : list byte)
    (hash : EVP_MD) (q a sq sa : list byte) :
  4 <= argc ->
  digests (c_string name) = Some hash ->
  md_wf hash -> EVP_MD_size hash <= 765 ->
  Z.of_nat (length q) = EVP_MD_size hash ->
  Z.of_nat (length a) = EVP_MD_size hash ->
  forallb nonzero sq = true -> (length sq < 4)%nat ->
  forallb nonzero sa = true -> (length sa < 4)%nat ->
  cmd_verify digests gq gt gd argc
    [prog; name; EVP_EncodeBlock q ++ sq; EVP_EncodeBlock a ++ sa]
  = cmd_verify digests gq gt gd argc
      [prog; name; EVP_EncodeBlock q; EVP_EncodeBlock a].
Proof.
  intros Hargc Hhash Hwf Hd Hq Ha Hsq Hlq Hsa Hla. destruct (Hwf) as [Hpos _].
  assert (Eq : BIO_read (EVP_EncodeBlock q ++ sq) (EVP_MD_size hash)
               = BIO_read (EVP_EncodeBlock q) (EVP_MD_size hash))
    by (rewrite <- Hq; apply BIO_read_suffix; assumption || lia).
  assert (Ea : BIO_read (EVP_EncodeBlock a ++ sa) (EVP_MD_size hash)
               = BIO_read (EVP_EncodeBlock a) (EVP_MD_size hash))
    by (rewrite <- Ha; apply BIO_read_suffix; assumption || lia).
  pose proof (cmd_verify_run digests gq gt gd argc
                [prog; name; EVP_EncodeBlock q ++ sq; EVP_EncodeBlock a ++ sa]
                hash Hargc Hhash Hwf) as Hrun1.
  pose proof (cmd_verify_run digests gq gt gd argc
                [prog; name; EVP_EncodeBlock q; EVP_EncodeBlock a]
                hash Hargc Hhash Hwf) as Hrun2.
  cbv zeta in Hrun1, Hrun2. cbn [nth] in Hrun1, Hrun2.
  rewrite Hrun1, Hrun2 by (unfold PTRDIFF_MAX; lia).
  assert (Cq : BIO_read_copies (EVP_EncodeBlock q ++ sq) (EVP_MD_size hash)
               = BIO_read_copies (EVP_EncodeBlock q) (EVP_MD_size hash)).
  { rewrite <- Hq. rewrite <- (app_nil_r (EVP_EncodeBlock q)) at 2.
    rewrite !BIO_read_copies_suffix;
      try assumption; try reflexivity; cbn [length]; lia. }
  assert (Ca : BIO_read_copies (EVP_EncodeBlock a ++ sa) (EVP_MD_size hash)
               = BIO_read_copies (EVP_EncodeBlock a) (EVP_MD_size hash)).
  { rewrite <- Ha. rewrite <- (app_nil_r (EVP_EncodeBlock a)) at 2.
    rewrite !BIO_read_copies_suffix;
      try assumption; try reflexivity; cbn [length]; lia. }
  unfold decode_trace, decoded. now rewrite Eq, Ea, Cq, Ca.
Qed.

Lemma cmd_verify_ignores_suffix_witness :
  cmd_verify toy_digests (junk 4) (junk 4) (junk 4) 4
    [text "verify"; text "toy4";
     EVP_EncodeBlock (toy_digest 4 seed_hello) ++ [NL];
     EVP_EncodeBlock (toy_digest 4 (toy_digest 4 seed_hello)) ++ text "=??"]
  = cmd_verify toy_digests (junk 4) (junk 4) (junk 4) 4
      [text "verify"; text "toy4";
       EVP_EncodeBlock (toy_digest 4 seed_hello);
       EVP_EncodeBlock (toy_digest 4 (toy_digest 4 seed_hello))].
Proof.
  apply (cmd_verify_ignores_suffix toy_digests (junk 4) (junk 4) (junk 4) 4
           (text "verify") (text "toy4") (toy_md 4));
    [lia | reflexivity | apply toy_md_wf; lia | vm_compute; discriminate
    | reflexivity | reflexivity | reflexivity | cbn; lia | reflexivity
    | cbn; lia].
Defined.

(** * The program *)

Lemma bytes_eqb_eq (a b : list byte) : bytes_eqb a b = true -> a = b.
Proof.
  revert b. induction a as [|x a IH]; intros [|y b]; try discriminate;
    [reflexivity|].
  cbn [bytes_eqb]. rewrite andb_true_iff. intros [Hxy Hab].
  apply Byte.byte_dec_bl in Hxy. subst y. f_equal. now apply IH.
Qed.

(** X13.  [main] with fewer than four arguments after the program
    name, or with a subcommand that is neither [create] nor [verify],
    returns [EXIT_FAILURE], writes nothing to [stdout], touches no
    memory and writes to [stderr] a text that starts with [error: ].
    The usage line of a subcommand names the subcommand, not the
    program: for [create] with too few arguments it is
    [usage: create HASH LENGTH BASE]. *)
Theorem main_usage_errors (digests : list byte -> option EVP_MD)
    (gq gt gd : list byte) (argc : Z) (argv : list (list byte)) :
  0 <= argc <= INT_MAX ->
  argc < 5
  \/ (strcmp_eq (nth 1 argv []) (text "create") = false
      /\ strcmp_eq (nth 1 argv []) (text "verify") = false) ->
  exists t,
    main digests gq gt gd argc argv = (t, Some EXIT_FAILURE)
    /\ printed Stdout t = [] /\ memory_events t = []
    /\ firstn 7 (printed Stderr t) = text "error: "
    /\ (2 <= argc -> strcmp_eq (nth 1 argv []) (text "create") = true ->
        printed Stderr t
        = text "error: too few args" ++ [NL]
            ++ text "usage: create HASH LENGTH BASE" ++ [NL]).
Proof.
  intros Hargc Hcase. unfold main.
  destruct (argc <? 2) eqn:H2.
  { apply Z.ltb_lt in H2. eexists. split; [reflexivity|].
    repeat split. intros; lia. }
  apply Z.ltb_ge in H2.
  unfold int_sub. rewrite wrap_int_small by (unfold INT_MAX in *; lia).
  destruct (strcmp_eq (nth 1 argv []) (text "create")) eqn:Hc.
  { destruct Hcase as [Hlt | [Hf _]]; [|discriminate].
    unfold cmd_create.
    replace (argc - 1 <? 4) with true by (symmetry; apply Z.ltb_lt; lia).
    eexists. split; [reflexivity|]. repeat split.
    intros _ _. cbn [fprintf emit bind ret app printed same_stream].
    apply bytes_eqb_eq in Hc.
    replace (nth 0 (tl argv) []) with (nth 1 argv [])
      by (destruct argv; reflexivity).
    rewrite Hc. reflexivity. }
  destruct (strcmp_eq (nth 1 argv []) (text "verify")) eqn:Hv.
  { destruct Hcase as [Hlt | [_ Hf]]; [|discriminate].
    unfold cmd_verify.
    replace (argc - 1 <? 4) with true by (symmetry; apply Z.ltb_lt; lia).
    eexists. split; [reflexivity|]. repeat split. discriminate. }
  eexists. split; [reflexivity|]. repeat split. discriminate.
Qed.

Lemma main_usage_errors_witness :
  exists t,
    main toy_digests [] [] [] 4
      [text "hashchain"; text "create"; text "toy4"; text "3"]
    = (t, Some EXIT_FAILURE)
    /\ printed Stdout t = []
    /\ printed Stderr t
       = text "error: too few args" ++ [NL]
           ++ text "usage: create HASH LENGTH BASE" ++ [NL].
Proof.
  destruct (main_usage_errors toy_digests [] [] [] 4
              [text "hashchain"; text "create"; text "toy4"; text "3"])
    as (t & Hrun & Hout & _ & _ & Husage);
    [vm_compute; split; discriminate | left; lia |].
  exists t. split; [exact Hrun|]. split; [exact Hout|].
  apply Husage; [lia | reflexivity].
Defined.

(** X14.  The two subcommands fit together.  For a known digest of at
    most 48 bytes and a length [n >= 1] whose buffer can be allocated,
    [hashchain create] writes one line for each digest of the chain,
    and [hashchain verify], given line [i] as the query and line
    [i + 1] as the anchor, writes [success] and returns
    [EXIT_SUCCESS], for every [i + 1 < n]. *)
Theorem main_create_then_verify (digests : list byte -> option EVP_MD)
    (gq gt gd : list byte) (prog name len seed : list byte)
    (hash : EVP_MD) (n : Z) :
  digests (c_string name) = Some hash ->
  md_wf hash -> EVP_MD_size hash <= 48 ->
  strlen seed <= INT_MAX ->
  sscanf_d len = Some n ->
  1 <= n -> n * EVP_MD_size hash <= PTRDIFF_MAX ->
  let elems := iter_hash (md_digest hash) (Z.to_nat n) (c_string seed) in
  (exists t,
      main digests gq gt gd 5 [prog; text "create"; name; len; seed]
      = (t, Some EXIT_SUCCESS)
      /\ printed Stdout t
         = concat (map (fun e => EVP_EncodeBlock e ++ [NL]) elems))
  /\ (forall i, (S i < Z.to_nat n)%nat ->
        exists t,
          main digests gq gt gd 5
            [prog; text "verify"; name;
             EVP_EncodeBlock (nth i elems []);
             EVP_EncodeBlock (nth (S i) elems [])]
          = (t, Some EXIT_SUCCESS)
          /\ printed Stdout t = text "success" ++ [NL]).
Proof.
  intros Hhash Hwf Hd Hstr Hscan Hn Hmax elems. destruct (Hwf) as [Hpos Hlen].
  split.
  - destruct (cmd_create_run digests 4 [text "create"; name; len; seed] hash n)
      as (tp & Hprint & _ & Hrun); try assumption; [lia|].
    cbn [nth] in Hprint, Hrun. fold elems in Hprint.
    assert (Hall : Forall (fun e => length e = Z.to_nat (EVP_MD_size hash)) elems)
      by (apply Forall_length_iter_hash; intros y; specialize (Hlen y); lia).
    assert (Hcount : n = Z.of_nat (length elems))
      by (unfold elems; rewrite length_iter_hash; lia).
    destruct (hash_chain_print_spec Stdout elems (EVP_MD_size hash) Hall)
      as (t & Hrun' & Hp & _);
      [unfold B64_BLOCK_SIZE; lia | unfold PTRDIFF_MAX, INT_MAX in *; lia |].
    rewrite <- Hcount, Hprint in Hrun'. injection Hrun' as <-.
    eexists. split; [exact Hrun|].
    unfold create_trace. cbn [app printed].
    rewrite !printed_app, !printed_loop_trace, Hp. cbn [printed app].
    rewrite app_nil_r. f_equal.
    apply (map_wrap64_short elems _ Hall). lia.
  - intros i Hi.
    set (q := nth i elems []). set (a := nth (S i) elems []).
    assert (Hq : q = Nat.iter (S i) (md_digest hash) (c_string seed))
      by (apply nth_iter_hash; lia).
    assert (Ha : a = md_digest hash q)
      by (unfold a, elems; rewrite nth_iter_hash by lia; now rewrite Hq).
    assert (Hlq : Z.of_nat (length q) = EVP_MD_size hash)
      by (rewrite Hq; apply Hlen).
    assert (Hla : Z.of_nat (length a) = EVP_MD_size hash)
      by (rewrite Ha; apply Hlen).
    pose proof (cmd_verify_run digests gq gt gd 4
                  [text "verify"; name; EVP_EncodeBlock q; EVP_EncodeBlock a]
                  hash) as Hrun.
    cbv zeta in Hrun. cbn [nth] in Hrun.
    rewrite !decoded_digest in Hrun by lia.
    replace (memcmp_bytes (md_digest hash q) a =? 0) with true in Hrun
      by (symmetry; apply Z.eqb_eq, memcmp_bytes_zero;
          [apply Nat2Z.inj; rewrite Hlen; lia | now symmetry]).
    eexists. split;
      [apply Hrun; [lia | exact Hhash | exact Hwf | unfold PTRDIFF_MAX; lia]|].
    rewrite !printed_app, !printed_decode_trace. reflexivity.
Qed.

Lemma main_create_then_verify_witness :
  (exists t,
      main toy_digests [] [] [] 5
        [text "hashchain"; text "create"; text "toy4"; text "2"; text "hello"]
      = (t, Some EXIT_SUCCESS)
      /\ printed Stdout t = text "GSAnLg==" ++ [NL] ++ text "kpmgpw==" ++ [NL])
  /\ (exists t,
         main toy_digests [] [] [] 5
           [text "hashchain"; text "verify"; text "toy4";
            text "GSAnLg=="; text "kpmgpw=="]
         = (t, Some EXIT_SUCCESS)
         /\ printed Stdout t = text "success" ++ [NL]).
Proof.
  destruct (main_create_then_verify toy_digests [] [] [] (text "hashchain")
              (text "toy4") (text "2") (text "hello") (toy_md 4) 2)
    as [Hcreate Hverify];
    [reflexivity | apply toy_md_wf; lia | vm_compute; discriminate
    | vm_compute; discriminate | reflexivity | lia | vm_compute; discriminate |].
  split; [exact Hcreate|].
  apply (Hverify 0%nat). vm_compute. lia.
Defined.

(** * [test.c] *)

Lemma fgets_chars_spec (k : nat) :
  forall fp l rest,
    fgets_chars k fp = (l, rest) ->
    fp = l ++ rest /\ (length l <= k)%nat
    /\ ((1 <= k)%nat -> fp <> [] -> l <> []).
Proof.
  induction k as [|k IH]; intros fp l rest.
  - cbn [fgets_chars]. intros [= <- <-].
    split; [reflexivity|]. split; [cbn [length]; lia | lia].
  - destruct fp as [|c r].
    { cbn [fgets_chars]. intros [= <- <-].
      split; [reflexivity|]. split; [cbn [length]; lia | congruence]. }
    cbn [fgets_chars]. destruct (Z_of_byte c =? 10).
    + intros [= <- <-].
      split; [reflexivity|]. split; [cbn [length]; lia | discriminate].
    + destruct (fgets_chars k r) as [l' rest'] eqn:Hk.
      intros [= <- <-]. destruct (IH r l' rest' Hk) as (Hr & Hl & _).
      split; [cbn [app]; now rewrite <- Hr|].
      split; [cbn [length]; lia | discriminate].
Qed.

Lemma c_string_app_nul (l tail : list byte) :
  c_string (l ++ NUL :: tail) = c_string l.
Proof.
  induction l as [|c l IH]; [reflexivity|].
  cbn [app c_string]. destruct (Z_of_byte c =? 0); [reflexivity|].
  now rewrite IH.
Qed.

Lemma c_string_firstn (s : list byte) (n : nat) :
  n = length (c_string s) -> c_string (firstn (S n) s) = c_string s.
Proof.
  revert n. induction s as [|c s IH]; intros n Hn; [reflexivity|].
  cbn [c_string] in *. cbn [firstn c_string].
  destruct (Z_of_byte c =? 0); [reflexivity|].
  cbn [length] in Hn. subst n. f_equal. now apply IH.
Qed.

Lemma length_c_string (s : list byte) : (length (c_string s) <= length s)%nat.
Proof.
  induction s as [|c s IH]; [reflexivity|].
  cbn [c_string]. destruct (Z_of_byte c =? 0); cbn [length]; lia.
Qed.

(** [fgets] on a stream that is not at its end, into a block of 255
    bytes: the piece and a [NUL] are stored at the start of the block. *)
Lemma fgets_piece (b : block) (c : byte) (r l rest : list byte) :
  length b = 255%nat ->
  fgets_chars 254 (c :: r) = (l, rest) ->
  fgets (Some b) 255 (c :: r)
  = ([EvStore 0 (Z.of_nat (length l) + 1)],
     Some (Some (Some (l ++ NUL :: skipn (S (length l)) b)), rest))
  /\ (1 <= length l <= 254)%nat
  /\ (length rest < length (c :: r))%nat
  /\ length (l ++ NUL :: skipn (S (length l)) b) = 255%nat.
Proof.
  intros Hb Hk. destruct (fgets_chars_spec 254 _ _ _ Hk) as (Hfp & Hl & Hne).
  assert (Hl1 : (1 <= length l)%nat).
  { destruct l; [elim Hne; [lia | discriminate | reflexivity]|cbn; lia]. }
  split; [|split; [lia|split]].
  - unfold fgets. change (Z.to_nat (255 - 1)) with 254%nat. rewrite Hk.
    rewrite store_ok
      by (apply in_bounds_true; rewrite ?length_app; cbn [length]; lia).
    cbn [bind ret app Z.to_nat firstn].
    rewrite length_app. cbn [length].
    replace (Z.of_nat (length l + 1)) with (Z.of_nat (length l) + 1) by lia.
    replace (Z.to_nat (0 + (Z.of_nat (length l) + 1))) with (S (length l)) by lia.
    rewrite <- app_assoc. reflexivity.
  - apply (f_equal (@length byte)) in Hfp. rewrite length_app in Hfp. lia.
  - rewrite length_app. cbn [length]. rewrite length_skipn. lia.
Qed.

(** Printing the line that was just read. *)
Lemma printf_line_piece (l tail : list byte) :
  (length l + 1 + length tail = 255)%nat ->
  exists k,
    Test.printf_line (Some (l ++ NUL :: tail))
    = ([EvLoad 0 k; EvPrint Stdout (c_string l ++ [NL])], Some tt).
Proof.
  intros Hlen. unfold Test.printf_line, load_string, strlen.
  rewrite c_string_app_nul.
  pose proof (length_c_string l) as Hc.
  rewrite load_ok
    by (apply in_bounds_true; rewrite ?length_app; cbn [length]; lia).
  cbn [bind ret]. unfold slice. cbn [Z.to_nat skipn].
  replace (Z.to_nat (Z.of_nat (length (c_string l)) + 1))
    with (S (length (c_string l))) by lia.
  rewrite c_string_firstn by (now rewrite c_string_app_nul).
  rewrite c_string_app_nul.
  eexists. reflexivity.
Qed.

Lemma length_pieces (n : nat) (fp : list byte) : (length (pieces n fp) <= n)%nat.
Proof.
  revert fp. induction n as [|n IH]; intros fp; [reflexivity|].
  destruct fp as [|c r]; [cbn; lia|].
  cbn [pieces]. destruct (fgets_chars 254 (c :: r)) as [l rest].
  cbn [length]. specialize (IH rest). lia.
Qed.

(** The first loop of [testGetFile] on a stream of at most [n]
    characters: every piece is printed behind [[+]], and counted. *)
Lemma count_loop_spec (n : nat) :
  forall (fp : list byte) (fuel : nat) (b : block) (riadok : Z),
    (length fp <= n)%nat -> (n < fuel)%nat -> length b = 255%nat ->
    0 <= riadok -> riadok + Z.of_nat n <= INT_MAX ->
    exists t b',
      Test.count_loop fuel (Some b) fp riadok
      = (t, Some (Some b', riadok + Z.of_nat (length (pieces n fp))))
      /\ length b' = 255%nat
      /\ printed Stdout t
         = concat (map (fun c => text "[+]" ++ c_string c ++ [NL])
                     (pieces n fp))
      /\ printed Stderr t = []
      /\ filter is_heap_event t = []
      /\ Forall (access_within 255) t.
Proof.
  induction n as [|n IH]; intros fp fuel b riadok Hfp Hfuel Hb Hr Hmax.
  - destruct fp; [|cbn in Hfp; lia]. destruct fuel as [|fuel]; [lia|].
    exists [], b. cbn [Test.count_loop fgets bind ret app pieces length].
    rewrite Z.add_0_r. repeat split; [exact Hb | constructor].
  - destruct fuel as [|fuel]; [lia|].
    destruct fp as [|c r].
    { exists [], b. cbn [Test.count_loop fgets bind ret app pieces length].
      rewrite Z.add_0_r. repeat split; [exact Hb | constructor]. }
    cbn [Test.count_loop pieces].
    destruct (fgets_chars 254 (c :: r)) as [l rest] eqn:Hk.
    destruct (fgets_piece b c r l rest Hb Hk) as (Hrun & Hl & Hrest & Hb').
    rewrite Hrun. cbn [bind].
    destruct (printf_line_piece l (skipn (S (length l)) b)) as [k Hprint];
      [rewrite length_skipn; lia|].
    rewrite Hprint. cbn [fprintf emit bind app].
    unfold int_add. rewrite wrap_int_small by (unfold INT_MAX in *; lia).
    destruct (IH rest fuel (l ++ NUL :: skipn (S (length l)) b) (riadok + 1))
      as (t & b' & Hloop & Hlen & Hout & Herr & Hheap & Hacc);
      [cbn [length] in *; lia | lia | exact Hb' | lia | lia |].
    rewrite Hloop. cbn [length].
    eexists. exists b'. split; [f_equal; f_equal; f_equal; lia|].
    split; [exact Hlen|].
    cbn [printed same_stream app filter is_heap_event map concat].
    rewrite Hout, Herr, Hheap.
    repeat split.
    repeat constructor; cbn [access_within]; try lia. exact Hacc.
Qed.

(** The second loop: the piece that is the last one of the first loop
    and the piece before it are printed. *)
Lemma report_loop_spec (n : nat) :
  forall (fp : list byte) (fuel : nat) (b : block) (riadok count : Z),
    (length fp <= n)%nat -> (n < fuel)%nat -> length b = 255%nat ->
    0 <= count -> count + Z.of_nat n + 1 <= INT_MAX ->
    exists t b',
      Test.report_loop fuel (Some b) fp riadok count = (t, Some (Some b'))
      /\ printed Stdout t = report riadok count (map c_string (pieces n fp))
      /\ printed Stderr t = []
      /\ filter is_heap_event t = []
      /\ Forall (access_within 255) t.
Proof.
  induction n as [|n IH]; intros fp fuel b riadok count Hfp Hfuel Hb Hc Hmax.
  - destruct fp; [|cbn in Hfp; lia]. destruct fuel as [|fuel]; [lia|].
    exists [], b. repeat split. constructor.
  - destruct fuel as [|fuel]; [lia|].
    destruct fp as [|c r]; [exists [], b; repeat split; constructor|].
    cbn [Test.report_loop pieces].
    destruct (fgets_chars 254 (c :: r)) as [l rest] eqn:Hk.
    destruct (fgets_piece b c r l rest Hb Hk) as (Hrun & Hl & Hrest & Hb').
    rewrite Hrun. cbn [bind].
    destruct (printf_line_piece l (skipn (S (length l)) b)) as [k Hprint];
      [rewrite length_skipn; lia|].
    unfold int_add.
    rewrite (wrap_int_small (count + 1)) by (unfold INT_MAX in *; lia).
    rewrite (wrap_int_small (count + 1 + 1)) by (unfold INT_MAX in *; lia).
    replace (count + 1 + 1) with (count + 2) by lia.
    destruct (IH rest fuel (l ++ NUL :: skipn (S (length l)) b) riadok (count + 1))
      as (t & b' & Hloop & Hout & Herr & Hheap & Hacc);
      [cbn [length] in *; lia | lia | exact Hb' | lia | lia |].
    cbn [map report].
    destruct (count + 1 =? riadok); destruct (count + 2 =? riadok);
      rewrite ?Hprint; cbn [fprintf emit bind ret app]; rewrite Hloop;
      (eexists; exists b'; split; [reflexivity|]);
      cbn [printed same_stream app filter is_heap_event];
      rewrite Hout, Herr, Hheap; repeat split;
      rewrite <- ?app_assoc; try reflexivity;
      repeat constructor; cbn [access_within]; try lia; exact Hacc.
Qed.

(** The second loop prints the last two pieces when [riadok] is their
    number. *)
Lemma report_last_two (cs : list (list byte)) :
  forall count, 0 <= count ->
    report (count + Z.of_nat (length cs)) count cs
    = match cs with
      | [] => []
      | _ => last_two cs
      end.
Proof.
  induction cs as [|c cs IH]; intros count Hc; [reflexivity|].
  cbn [report length].
  destruct cs as [|c' cs].
  - cbn [length report]. replace (count + 1 =? count + Z.of_nat 1) with true
      by (symmetry; apply Z.eqb_eq; lia).
    replace (count + 2 =? count + Z.of_nat 1) with false
      by (symmetry; apply Z.eqb_neq; lia).
    unfold last_two. cbn [rev app]. now rewrite !app_nil_r.
  - replace (count + 1 =? count + Z.of_nat (S (length (c' :: cs)))) with false
      by (symmetry; apply Z.eqb_neq; cbn [length]; lia).
    cbn [app].
    replace (count + Z.of_nat (S (length (c' :: cs))))
      with (count + 1 + Z.of_nat (length (c' :: cs))) by lia.
    rewrite IH by lia.
    destruct cs as [|c'' cs].
    + cbn [length]. replace (count + 2 =? count + 1 + Z.of_nat 1) with true
        by (symmetry; apply Z.eqb_eq; lia).
      unfold last_two. cbn [rev app]. now rewrite <- !app_assoc.
    + replace (count + 2 =? count + 1 + Z.of_nat (length (c' :: c'' :: cs)))
        with false by (symmetry; apply Z.eqb_neq; cbn [length]; lia).
      cbn [app]. unfold last_two.
      change (rev (c :: c' :: c'' :: cs)) with (rev (c' :: c'' :: cs) ++ [c]).
      destruct (rev (c' :: c'' :: cs)) as [|s [|p q]] eqn:Hrev.
      * apply (f_equal (@length _)) in Hrev. rewrite length_rev in Hrev.
        discriminate.
      * apply (f_equal (@length _)) in Hrev. rewrite length_rev in Hrev.
        discriminate.
      * reflexivity.
Qed.

(** The run of [testGetFile] on a file that can be opened. *)
Lemma testGetFile_run (garbage content : list byte) :
  Z.of_nat (length content) + 1 <= INT_MAX ->
  let ps := map c_string (pieces (length content) content) in
  exists t,
    Test.testGetFile garbage (Some content) = (t, Some tt)
    /\ printed Stdout t
       = concat (map (fun c => text "[+]" ++ c ++ [NL]) ps) ++ last_two ps
    /\ printed Stderr t = []
    /\ filter is_heap_event t = [EvAlloc 255; EvFree]
    /\ Forall (access_within 255) t.
Proof.
  intros Hmax ps. unfold Test.testGetFile, malloc.
  change (to_size_t 255 <=? PTRDIFF_MAX) with true.
  change (to_size_t 255) with 255. cbn [bind emit ret app].
  set (b := resize (Z.to_nat 255) garbage).
  assert (Hb : length b = 255%nat) by apply length_resize.
  destruct (count_loop_spec (length content) content (S (length content)) b 0)
    as (t1 & b1 & Hrun1 & Hb1 & Hout1 & Herr1 & Hheap1 & Hacc1);
    [lia | lia | exact Hb | lia | lia |].
  rewrite Hrun1. cbn [bind].
  pose proof (length_pieces (length content) content) as Hlen.
  destruct (report_loop_spec (length content) content (S (length content)) b1
              (0 + Z.of_nat (length (pieces (length content) content))) 0)
    as (t2 & b2 & Hrun2 & Hout2 & Herr2 & Hheap2 & Hacc2);
    [lia | lia | exact Hb1 | lia | lia |].
  rewrite Hrun2. cbn [bind free emit app].
  eexists. split; [reflexivity|].
  cbn [printed filter is_heap_event].
  rewrite !printed_app, !filter_app, Hout1, Hout2, Herr1, Herr2, Hheap1, Hheap2.
  cbn [printed filter is_heap_event app]. rewrite !app_nil_r.
  split; [|split; [reflexivity|split; [reflexivity|]]].
  - rewrite <- (length_map c_string (pieces (length content) content)).
    fold ps. rewrite (report_last_two ps 0) by lia.
    f_equal; [unfold ps; now rewrite map_map | now destruct ps].
  - constructor; [exact I|]. apply Forall_app. split; [exact Hacc1|].
    apply Forall_app. split; [exact Hacc2|]. repeat constructor.
Qed.

(** X15.  [testGetFile] never writes outside its buffer of 255 bytes,
    whatever the file holds: every run ends, nothing goes to [stderr],
    and every store is inside the block.  The block is freed when the
    file was opened; when it was not, [cant open file!] is written to
    [stdout] and the block is not freed. *)
Theorem testGetFile_line_buffer (garbage : list byte)
    (chains : option (list byte)) :
  (forall content, chains = Some content ->
                   Z.of_nat (length content) + 1 <= INT_MAX) ->
  exists t,
    Test.testGetFile garbage chains = (t, Some tt)
    /\ Forall (access_within 255) t
    /\ printed Stderr t = []
    /\ filter is_heap_event t
       = EvAlloc 255 :: match chains with Some _ => [EvFree] | None => [] end
    /\ (chains = None -> printed Stdout t = text "cant open file!").
Proof.
  intros Hmax. destruct chains as [content|].
  - destruct (testGetFile_run garbage content (Hmax content eq_refl))
      as (t & Hrun & _ & Herr & Hheap & Hacc).
    exists t. repeat split; try assumption. discriminate.
  - eexists. split; [reflexivity|]. repeat split. repeat constructor.
Qed.

Lemma testGetFile_line_buffer_witness :
  exists t,
    Test.testGetFile (junk 255) (Some (text "GSAnLg==" ++ [NL])) = (t, Some tt)
    /\ Forall (access_within 255) t
    /\ filter is_heap_event t = [EvAlloc 255; EvFree].
Proof.
  destruct (testGetFile_line_buffer (junk 255) (Some (text "GSAnLg==" ++ [NL])))
    as (t & Hrun & Hacc & _ & Hheap & _).
  - intros content [= <-]. vm_compute. discriminate.
  - exists t. split; [exact Hrun|]. split; [exact Hacc | exact Hheap].
Defined.

Lemma fgets_chars_line (l rest : list byte) :
  forall k, (length l < k)%nat ->
    forallb (fun c => negb (Z_of_byte c =? 10) && negb (Z_of_byte c =? 0)) l
    = true ->
    fgets_chars k (l ++ NL :: rest) = (l ++ [NL], rest).
Proof.
  induction l as [|c l IH]; intros k Hk Hl.
  - destruct k; [cbn in Hk; lia | reflexivity].
  - destruct k as [|k]; [cbn in Hk; lia|].
    cbn [forallb] in Hl. apply andb_true_iff in Hl. destruct Hl as [Hc Hl].
    apply andb_true_iff in Hc. destruct Hc as [Hc _].
    apply negb_true_iff in Hc.
    cbn [app fgets_chars]. rewrite Hc.
    rewrite IH by (cbn [length] in Hk; lia || exact Hl). reflexivity.
Qed.

Lemma c_string_line (l : list byte) :
  forallb (fun c => negb (Z_of_byte c =? 10) && negb (Z_of_byte c =? 0)) l
  = true ->
  c_string (l ++ [NL]) = l ++ [NL].
Proof.
  induction l as [|c l IH]; [reflexivity|].
  cbn [forallb]. rewrite andb_true_iff. intros [Hc Hl].
  apply andb_true_iff in Hc. destruct Hc as [_ Hc]. apply negb_true_iff in Hc.
  cbn [app c_string]. rewrite Hc. now rewrite IH.
Qed.

(** A text of lines that fit the buffer is cut into its lines. *)
Lemma pieces_lines (lines : list (list byte)) :
  forall n,
    Forall (fun l => text_line l = true) lines ->
    (length (concat (map (fun l => l ++ [NL]) lines)) <= n)%nat ->
    pieces n (concat (map (fun l => l ++ [NL]) lines))
    = map (fun l => l ++ [NL]) lines.
Proof.
  induction lines as [|l lines IH]; intros n Hall Hn.
  - destruct n; reflexivity.
  - inversion Hall as [|? ? Hl Hrest]; subst.
    unfold text_line in Hl. apply andb_true_iff in Hl. destruct Hl as [Hlen Hl].
    apply Nat.leb_le in Hlen.
    cbn [map concat] in *. rewrite !length_app in Hn. cbn [length] in Hn.
    destruct n as [|n]; [lia|].
    rewrite <- app_assoc. cbn [app].
    assert (Hcons : exists c r, l ++ NL :: concat (map (fun l => l ++ [NL]) lines)
                                = c :: r)
      by (destruct l; eexists; eexists; reflexivity).
    destruct Hcons as (c & r & Hcons).
    cbn [pieces]. rewrite Hcons. rewrite <- Hcons.
    rewrite (fgets_chars_line l _ 254) by (lia || exact Hl).
    f_equal. apply IH; [exact Hrest | lia].
Qed.

Lemma last_two_snoc2 (front : list (list byte)) (c s : list byte) :
  last_two (front ++ [c; s])
  = text "Client HASH: " ++ c ++ [NL] ++ text "SERVER STORED HASH: " ++ s ++ [NL].
Proof.
  unfold last_two. rewrite rev_app_distr. reflexivity.
Qed.

(** The run of [testGetFile] on a text of lines that fit the buffer. *)
Lemma testGetFile_lines (garbage : list byte) (lines : list (list byte)) :
  Forall (fun l => text_line l = true) lines ->
  Z.of_nat (length (concat (map (fun l => l ++ [NL]) lines))) + 1 <= INT_MAX ->
  exists t,
    Test.testGetFile garbage (Some (concat (map (fun l => l ++ [NL]) lines)))
    = (t, Some tt)
    /\ printed Stdout t
       = concat (map (fun l => text "[+]" ++ l ++ [NL; NL]) lines)
           ++ last_two (map (fun l => l ++ [NL]) lines).
Proof.
  intros Hall Hmax. set (content := concat (map (fun l => l ++ [NL]) lines)) in *.
  destruct (testGetFile_run garbage content Hmax)
    as (t & Hrun & Hout & _ & _ & _).
  cbv zeta in Hout. unfold content in Hout at 1 2 3 4.
  rewrite (pieces_lines lines) in Hout by (assumption || reflexivity).
  assert (Hcs : map c_string (map (fun l => l ++ [NL]) lines)
                = map (fun l => l ++ [NL]) lines).
  { clear - Hall. induction Hall as [|l lines Hl _ IH]; [reflexivity|].
    cbn [map]. rewrite IH. f_equal. apply c_string_line.
    unfold text_line in Hl. now apply andb_true_iff in Hl. }
  rewrite Hcs in Hout.
  exists t. split; [exact Hrun|].
  rewrite Hout, map_map. f_equal. f_equal.
  apply map_ext. intros l. now rewrite <- !app_assoc.
Qed.

(** X16.  On a file of lines of at most 253 characters, each ended by
    a newline, the program of [test.c] returns 0 and writes every line
    behind [[+]], then the line before the last behind [Client HASH: ]
    and the last line behind [SERVER STORED HASH: ]; each line is
    written with its own newline and one more.  With one line only the
    server's hash is written, with none nothing. *)
Theorem testGetFile_last_two_lines (garbage : list byte)
    (lines : list (list byte)) :
  Forall (fun l => text_line l = true) lines ->
  Z.of_nat (length (concat (map (fun l => l ++ [NL]) lines))) + 1 <= INT_MAX ->
  exists t,
    Test.main garbage (Some (concat (map (fun l => l ++ [NL]) lines)))
    = (t, Some 0)
    /\ printed Stdout t
       = concat (map (fun l => text "[+]" ++ l ++ [NL; NL]) lines)
           ++ last_two (map (fun l => l ++ [NL]) lines)
    /\ (forall front c s, lines = front ++ [c; s] ->
          last_two (map (fun l => l ++ [NL]) lines)
          = text "Client HASH: " ++ c ++ [NL; NL]
              ++ text "SERVER STORED HASH: " ++ s ++ [NL; NL])
    /\ (forall s, lines = [s] ->
          last_two (map (fun l => l ++ [NL]) lines)
          = text "SERVER STORED HASH: " ++ s ++ [NL; NL])
    /\ (lines = [] -> printed Stdout t = []).
Proof.
  intros Hall Hmax.
  destruct (testGetFile_lines garbage lines Hall Hmax) as (t & Hrun & Hout).
  unfold Test.main. rewrite Hrun. cbn [bind ret].
  eexists. split; [reflexivity|]. rewrite app_nil_r.
  split; [exact Hout|]. split; [|split].
  - intros front c s ->. rewrite map_app. cbn [map].
    rewrite last_two_snoc2. now rewrite <- !app_assoc.
  - intros s ->. unfold last_two. cbn [map rev app].
    now rewrite <- !app_assoc.
  - intros ->. exact Hout.
Qed.

Lemma testGetFile_last_two_lines_witness :
  exists t,
    Test.main (junk 255) (Some (text "GSAnLg==" ++ [NL] ++ text "kpmgpw==" ++ [NL]))
    = (t, Some 0)
    /\ printed Stdout t
       = text "[+]GSAnLg==" ++ [NL; NL] ++ text "[+]kpmgpw==" ++ [NL; NL]
           ++ text "Client HASH: GSAnLg==" ++ [NL; NL]
           ++ text "SERVER STORED HASH: kpmgpw==" ++ [NL; NL].
Proof.
  destruct (testGetFile_last_two_lines (junk 255)
              [text "GSAnLg=="; text "kpmgpw=="])
    as (t & Hrun & Hout & _).
  - repeat constructor.
  - vm_compute. discriminate.
  - exists t. split; [exact Hrun | exact Hout].
Defined.

Lemma text_char_line (c : byte) :
  text_char c = true ->
  negb (Z_of_byte c =? 10) && negb (Z_of_byte c =? 0) = true.
Proof.
  intros Ht. apply andb_true_iff. split; apply negb_true_iff, Z.eqb_neq; intros Hc.
  - assert (c = NL) by (apply Z_of_byte_inj; exact Hc). subst c. discriminate.
  - unfold text_char in Ht. apply Z.eqb_eq in Hc. rewrite Hc in Ht. discriminate.
Qed.

(** The base64 text of at most 189 bytes is a line that fits the buffer
    of [test.c]. *)
Lemma text_line_encoded (bs : list byte) :
  (length bs <= 189)%nat -> text_line (EVP_EncodeBlock bs) = true.
Proof.
  intros Hbs. destruct (EVP_EncodeBlock_facts bs) as (_ & Hl & Ht & _).
  unfold text_line. apply andb_true_iff. split.
  - apply Nat.leb_le. rewrite Hl.
    assert ((length bs + 2) / 3 < 64)%nat
      by (apply Nat.Div0.div_lt_upper_bound; lia).
    lia.
  - rewrite forallb_forall in *. intros c Hc. apply text_char_line, Ht, Hc.
Qed.

Lemma encoded_line_length (bs : list byte) :
  (length bs <= 48)%nat -> (length (EVP_EncodeBlock bs) <= 64)%nat.
Proof.
  intros Hbs. destruct (EVP_EncodeBlock_facts bs) as (_ & Hl & _). rewrite Hl.
  assert ((length bs + 2) / 3 < 17)%nat
    by (apply Nat.Div0.div_lt_upper_bound; lia).
  lia.
Qed.

Lemma list_last_two {A : Type} (l : list A) (d : A) :
  (2 <= length l)%nat ->
  l = firstn (length l - 2) l
        ++ [nth (length l - 2) l d; nth (length l - 1) l d].
Proof.
  intros Hl. rewrite <- (firstn_skipn (length l - 2) l) at 1. f_equal.
  rewrite (skipn_nth_cons l (length l - 2) d) by lia. f_equal.
  replace (S (length l - 2)) with (length l - 1)%nat by lia.
  rewrite (skipn_nth_cons l (length l - 1) d) by lia. f_equal.
  apply skipn_all2. lia.
Qed.

Lemma length_lines (lines : list (list byte)) (k : nat) :
  Forall (fun l => (length l <= k)%nat) lines ->
  (length (concat (map (fun l => l ++ [NL]) lines)) <= length lines * S k)%nat.
Proof.
  induction 1 as [|l lines Hl _ IH]; [reflexivity|].
  cbn [map concat length]. rewrite !length_app. cbn [length]. lia.
Qed.

(** X17.  [test.c] on what [cmd_create] wrote: for a digest of at most
    48 bytes and a chain of [n >= 2] digests, the client's hash is the
    base64 text of element [n - 2] of the chain and the server's hash
    that of element [n - 1], the last one. *)
Theorem testGetFile_on_created_chain (digests : list byte -> option EVP_MD)
    (garbage : list byte) (argc : Z) (argv : list (list byte))
    (hash : EVP_MD) (n : Z) :
  4 <= argc ->
  digests (c_string (nth 1 argv [])) = Some hash ->
  md_wf hash -> EVP_MD_size hash <= 48 ->
  strlen (nth 3 argv []) <= INT_MAX ->
  sscanf_d (nth 2 argv []) = Some n ->
  2 <= n -> n * EVP_MD_size hash <= PTRDIFF_MAX -> n * 65 < INT_MAX ->
  let elems := iter_hash (md_digest hash) (Z.to_nat n)
                 (c_string (nth 3 argv [])) in
  exists t1 t2 front,
    cmd_create digests argc argv = (t1, Some EXIT_SUCCESS)
    /\ Test.main garbage (Some (printed Stdout t1)) = (t2, Some 0)
    /\ printed Stdout t2
       = front
           ++ text "Client HASH: "
           ++ EVP_EncodeBlock (nth (Z.to_nat n - 2) elems []) ++ [NL; NL]
           ++ text "SERVER STORED HASH: "
           ++ EVP_EncodeBlock (nth (Z.to_nat n - 1) elems []) ++ [NL; NL].
Proof.
  intros Hargc Hhash Hwf Hd Hstr Hscan Hn Hmax Hfile elems.
  destruct (Hwf) as [Hpos Hlen].
  destruct (cmd_create_positive_length digests argc argv hash n)
    as (t1 & Hrun1 & Hout1 & _); try assumption;
    [unfold B64_BLOCK_SIZE; lia | lia |].
  fold elems in Hout1.
  assert (Hall : Forall (fun e => length e = Z.to_nat (EVP_MD_size hash)) elems)
    by (apply Forall_length_iter_hash; intros y; specialize (Hlen y); lia).
  assert (Hcount : length elems = Z.to_nat n)
    by (unfold elems; apply length_iter_hash).
  rewrite (map_wrap64_short elems _ Hall) in Hout1 by lia.
  set (lines := map EVP_EncodeBlock elems).
  assert (Hout : printed Stdout t1 = concat (map (fun l => l ++ [NL]) lines))
    by (unfold lines; now rewrite map_map).
  assert (Htext : Forall (fun l => text_line l = true) lines).
  { unfold lines. apply Forall_map. revert Hall. apply Forall_impl.
    intros e He. apply text_line_encoded. lia. }
  assert (Hshort : Forall (fun l => (length l <= 64)%nat) lines).
  { unfold lines. apply Forall_map. revert Hall. apply Forall_impl.
    intros e He. apply encoded_line_length. lia. }
  pose proof (length_lines lines 64 Hshort) as Hsize.
  assert (Hlines : length lines = Z.to_nat n)
    by (unfold lines; now rewrite length_map).
  destruct (testGetFile_lines garbage lines Htext) as (t2 & Hrun2 & Hout2);
    [unfold INT_MAX in *; lia|].
  rewrite <- Hout in Hrun2.
  exists t1, (t2 ++ []). eexists.
  split; [exact Hrun1|].
  split; [unfold Test.main; rewrite Hrun2; reflexivity|].
  rewrite app_nil_r, Hout2. f_equal.
  rewrite (list_last_two lines []) at 1 by lia.
  rewrite map_app. cbn [map]. rewrite last_two_snoc2.
  rewrite Hlines. unfold lines.
  rewrite <- (map_nth EVP_EncodeBlock elems []).
  rewrite <- (map_nth EVP_EncodeBlock elems [] (Z.to_nat n - 1)).
  change (EVP_EncodeBlock []) with (@nil byte).
  now rewrite <- !app_assoc.
Qed.

Lemma testGetFile_on_created_chain_witness :
  exists t1 t2 front,
    cmd_create toy_digests 4 (argv_create "2") = (t1, Some EXIT_SUCCESS)
    /\ Test.main (junk 255) (Some (printed Stdout t1)) = (t2, Some 0)
    /\ printed Stdout t2
       = front ++ text "Client HASH: GSAnLg==" ++ [NL; NL]
           ++ text "SERVER STORED HASH: kpmgpw==" ++ [NL; NL].
Proof.
  destruct (testGetFile_on_created_chain toy_digests (junk 255) 4
              (argv_create "2") (toy_md 4) 2)
    as (t1 & t2 & front & H1 & H2 & H3);
    [lia | reflexivity | apply toy_md_wf; lia | vm_compute; discriminate
    | vm_compute; discriminate | reflexivity | lia | vm_compute; discriminate
    | reflexivity |].
  exists t1, t2, front. split; [exact H1|]. split; [exact H2 | exact H3].
Defined.

Lemma concat_flat_map_lines (elems : list (list byte)) :
  concat (map (fun e => (EVP_EncodeBlock (firstn 48 e) ++ [NL])
                          ++ (EVP_EncodeBlock (skipn 48 e) ++ [NL])) elems)
  = concat (map (fun l => l ++ [NL])
              (flat_map (fun e => [EVP_EncodeBlock (firstn 48 e);
                                   EVP_EncodeBlock (skipn 48 e)]) elems)).
Proof.
  induction elems as [|e elems IH]; [reflexivity|].
  cbn [map concat flat_map app]. now rewrite IH, <- !app_assoc.
Qed.

(** X18.  For a digest of more than 48 and less than 96 bytes (SHA-512
    has 64) each element of the chain is written as two lines, and
    [test.c] takes the two lines of the last element for two hashes:
    the client's hash is the text of its first 48 bytes, the server's
    hash the text of the other bytes. *)
Theorem testGetFile_on_long_digests (digests : list byte -> option EVP_MD)
    (garbage : list byte) (argc : Z) (argv : list (list byte))
    (hash : EVP_MD) (n : Z) :
  4 <= argc ->
  digests (c_string (nth 1 argv [])) = Some hash ->
  md_wf hash -> 48 < EVP_MD_size hash < 96 ->
  strlen (nth 3 argv []) <= INT_MAX ->
  sscanf_d (nth 2 argv []) = Some n ->
  1 <= n -> n * EVP_MD_size hash <= PTRDIFF_MAX -> n * 130 < INT_MAX ->
  let tip := Nat.iter (Z.to_nat n) (md_digest hash) (c_string (nth 3 argv [])) in
  exists t1 t2 front,
    cmd_create digests argc argv = (t1, Some EXIT_SUCCESS)
    /\ Test.main garbage (Some (printed Stdout t1)) = (t2, Some 0)
    /\ printed Stdout t2
       = front
           ++ text "Client HASH: "
           ++ EVP_EncodeBlock (firstn 48 tip) ++ [NL; NL]
           ++ text "SERVER STORED HASH: "
           ++ EVP_EncodeBlock (skipn 48 tip) ++ [NL; NL].
Proof.
  intros Hargc Hhash Hwf Hd Hstr Hscan Hn Hmax Hfile tip.
  destruct (Hwf) as [Hpos Hlen].
  destruct (cmd_create_positive_length digests argc argv hash n)
    as (t1 & Hrun1 & Hout1 & _); try assumption;
    [unfold B64_BLOCK_SIZE; lia|].
  set (elems := iter_hash (md_digest hash) (Z.to_nat n)
                  (c_string (nth 3 argv []))) in *.
  assert (Hall : Forall (fun e => length e = Z.to_nat (EVP_MD_size hash)) elems)
    by (apply Forall_length_iter_hash; intros y; specialize (Hlen y); lia).
  assert (Hcount : length elems = Z.to_nat n)
    by (unfold elems; apply length_iter_hash).
  set (two := fun e : list byte =>
                [EVP_EncodeBlock (firstn 48 e); EVP_EncodeBlock (skipn 48 e)]).
  set (lines := flat_map two elems).
  assert (Hout : printed Stdout t1 = concat (map (fun l => l ++ [NL]) lines)).
  { rewrite Hout1. unfold lines, two. rewrite <- concat_flat_map_lines.
    f_equal. clear - Hall Hd. induction Hall as [|e l He _ IH]; [reflexivity|].
    cbn [map]. rewrite IH. f_equal. apply wrap64_two_lines. lia. }
  assert (Htext : Forall (fun l => text_line l = true) lines).
  { unfold lines. apply Forall_flat_map. revert Hall. apply Forall_impl.
    intros e He. unfold two.
    apply Forall_cons; [|apply Forall_cons; [|apply Forall_nil]];
      apply text_line_encoded; rewrite ?length_firstn, ?length_skipn; lia. }
  assert (Hshort : Forall (fun l => (length l <= 64)%nat) lines).
  { unfold lines. apply Forall_flat_map. revert Hall. apply Forall_impl.
    intros e He. unfold two.
    apply Forall_cons; [|apply Forall_cons; [|apply Forall_nil]];
      apply encoded_line_length; rewrite ?length_firstn, ?length_skipn; lia. }
  pose proof (length_lines lines 64 Hshort) as Hsize.
  assert (Hlines : length lines = (2 * Z.to_nat n)%nat).
  { unfold lines. rewrite <- Hcount. clear. induction elems as [|e l IH];
      [reflexivity|]. cbn [flat_map two app length] in *. lia. }
  destruct (testGetFile_lines garbage lines Htext) as (t2 & Hrun2 & Hout2);
    [unfold INT_MAX in *; lia|].
  rewrite <- Hout in Hrun2.
  assert (Hsplit : lines = flat_map two (firstn (Z.to_nat n - 1) elems)
                             ++ [EVP_EncodeBlock (firstn 48 tip);
                                 EVP_EncodeBlock (skipn 48 tip)]).
  { unfold lines.
    rewrite <- (firstn_skipn (Z.to_nat n - 1) elems) at 1.
    rewrite flat_map_app. f_equal.
    rewrite (skipn_nth_cons elems (Z.to_nat n - 1) []) by lia.
    rewrite skipn_all2 by lia. cbn [flat_map app]. unfold two.
    unfold elems. rewrite nth_iter_hash by lia.
    replace (S (Z.to_nat n - 1)) with (Z.to_nat n) by lia. reflexivity. }
  exists t1, (t2 ++ []). eexists.
  split; [exact Hrun1|].
  split; [unfold Test.main; rewrite Hrun2; reflexivity|].
  rewrite app_nil_r, Hout2. f_equal.
  rewrite Hsplit at 1. rewrite map_app. cbn [map]. rewrite last_two_snoc2.
  now rewrite <- !app_assoc.
Qed.

Lemma testGetFile_on_long_digests_witness :
  exists t1 t2 front,
    cmd_create toy_digests 4
      [text "create"; text "toy64"; text "1"; text "hello"]
    = (t1, Some EXIT_SUCCESS)
    /\ Test.main (junk 255) (Some (printed Stdout t1)) = (t2, Some 0)
    /\ printed Stdout t2
       = front
           ++ text "Client HASH: "
           ++ EVP_EncodeBlock (firstn 48 digest64) ++ [NL; NL]
           ++ text "SERVER STORED HASH: "
           ++ EVP_EncodeBlock (skipn 48 digest64) ++ [NL; NL].
Proof.
  destruct (testGetFile_on_long_digests toy_digests (junk 255) 4
              [text "create"; text "toy64"; text "1"; text "hello"]
              (toy_md 64) 1)
    as (t1 & t2 & front & H1 & H2 & H3);
    [lia | reflexivity | apply toy_md_wf; lia | vm_compute; split; reflexivity
    | vm_compute; discriminate | reflexivity | lia | vm_compute; discriminate
    | reflexivity |].
  exists t1, t2, front. split; [exact H1|]. split; [exact H2 | exact H3].
Defined.
